(** * databutter: the performance engine (performance-engine.js)

    A shallow embedding of [PerformanceConstraints], [PerformanceMonitor],
    [GPUOnlyAnimationBuilder] and [PerformanceGSAPOverride], together with
    the default parameter state and the year animation of
    [ButteryAnimationEngine] (animation-engine.js) and the level and
    adaptation methods of [ButteryPerformanceMonitor].

    JavaScript objects used as dictionaries are finite maps from property
    names to values; mutation is explicit state passing in a small
    state-and-exception monad, so that a [TypeError] raised half-way through
    a method leaves the writes made before it in place, as it does in the
    source.  Numbers are exact rationals extended with [NaN] and the two
    infinities: the code only compares them, takes minima and maxima, and
    rounds one quotient, so the rounding of binary64 arithmetic is outside
    the model (the times and durations that the year animation computes are
    exact sums and products here). *)

From Stdlib Require Import ZArith QArith Qround.
From stdpp Require Import gmap strings list fin_maps pretty.

Local Open Scope Z_scope.

(** ** JavaScript numbers *)

Inductive number :=
  | NaN
  | Inf (negative : bool)
  | Fin (q : Q).

Definition num (z : Z) : number := Fin (inject_Z z).

(** [a <= b] on numbers; [false] as soon as one side is [NaN]. *)
Definition num_leb (a b : number) : bool :=
  match a, b with
  | NaN, _ | _, NaN => false
  | Inf true, _ => true
  | _, Inf false => true
  | Inf false, _ => false
  | _, Inf true => false
  | Fin x, Fin y => Qle_bool x y
  end.

(** [a < b]; [false] as soon as one side is [NaN]. *)
Definition num_ltb (a b : number) : bool :=
  match a, b with
  | NaN, _ | _, NaN => false
  | _, _ => negb (num_leb b a)
  end.

(** [Math.min(a, b)] and [Math.max(a, b)]: [NaN] is contagious, otherwise
    one of the two arguments is returned. *)
Definition Math_min (a b : number) : number :=
  match a, b with
  | NaN, _ | _, NaN => NaN
  | _, _ => if num_leb a b then a else b
  end.

Definition Math_max (a b : number) : number :=
  match a, b with
  | NaN, _ | _, NaN => NaN
  | _, _ => if num_leb a b then b else a
  end.

(** [Math.round]: the nearest integer, ties towards plus infinity. *)
Definition Math_round (a : number) : number :=
  match a with
  | Fin q => num (Qfloor (q + (1 # 2)))
  | _ => a
  end.

(** [a / b] with the IEEE results for a zero or infinite divisor (there is
    no negative zero in the model: a zero divisor counts as positive). *)
Definition js_div (a b : number) : number :=
  match a, b with
  | NaN, _ | _, NaN => NaN
  | Inf _, Inf _ => NaN
  | Inf s, Fin y => Inf (xorb s (Qle_bool y 0 && negb (Qeq_bool y 0)))
  | Fin _, Inf _ => num 0
  | Fin x, Fin y =>
      if Qeq_bool y 0 then
        if Qeq_bool x 0 then NaN else Inf (negb (Qle_bool 0 x))
      else Fin (x / y)
  end.

(** [a + b], [a - b] and [a * b] with the IEEE results for infinite
    operands. *)
Definition js_add (a b : number) : number :=
  match a, b with
  | NaN, _ | _, NaN => NaN
  | Inf s, Inf s' => if Bool.eqb s s' then Inf s else NaN
  | Inf s, Fin _ | Fin _, Inf s => Inf s
  | Fin x, Fin y => Fin (x + y)
  end.

Definition js_neg (a : number) : number :=
  match a with
  | NaN => NaN
  | Inf s => Inf (negb s)
  | Fin x => Fin (- x)
  end.

Definition js_sub (a b : number) : number := js_add a (js_neg b).

Definition js_mul (a b : number) : number :=
  match a, b with
  | NaN, _ | _, NaN => NaN
  | Inf s, Inf s' => Inf (xorb s s')
  | Inf s, Fin y | Fin y, Inf s =>
      if Qeq_bool y 0 then NaN else Inf (xorb s (negb (Qle_bool 0 y)))
  | Fin x, Fin y => Fin (x * y)
  end.

(** ** Exceptions and the state monad *)

Inductive error :=
  | TypeError (msg : string)
  | Thrown (msg : string).

Inductive result (A : Type) :=
  | Ok (a : A)
  | Throw (e : error).
Arguments Ok {A} a.
Arguments Throw {A} e.

(** A computation over a mutable store [S]: it returns or throws, and in
    both cases hands back the store as it left it. *)
Definition M (S A : Type) : Type := S → result A * S.

Definition ret {S A} (a : A) : M S A := λ s, (Ok a, s).
Definition bind {S A B} (m : M S A) (k : A → M S B) : M S B :=
  λ s, match m s with
       | (Ok a, s') => k a s'
       | (Throw e, s') => (Throw e, s')
       end.
Definition throw {S A} (e : error) : M S A := λ s, (Throw e, s).
Definition get {S} : M S S := λ s, (Ok s, s).
Definition modify {S} (f : S → S) : M S unit := λ s, (Ok tt, f s).

(** [try { m } catch (error) { h error }] *)
Definition try_catch {S A} (m : M S A) (h : error → M S A) : M S A :=
  λ s, match m s with
       | (Ok a, s') => (Ok a, s')
       | (Throw e, s') => h e s'
       end.

Declare Scope js_scope.
Delimit Scope js_scope with js.
Notation "'let*' x := m 'in' k" := (bind m (λ x, k))
  (at level 10, x name, m at level 100, k at level 200) : js_scope.
Notation "m ;; k" := (bind m (λ _, k))
  (at level 100, right associativity) : js_scope.
Local Open Scope js_scope.

(** [xs.forEach(f)] *)
Fixpoint forEach {S A} (f : A → M S unit) (xs : list A) : M S unit :=
  match xs with
  | [] => ret tt
  | x :: xs' => f x ;; forEach f xs'
  end.

(** ** Parameter objects *)

(** A leaf of a parameter object is a number or a boolean; [undefined] is
    the absence of the key.  (The presets also carry the name of an easing
    curve, a string, in their [easing] group; the code embedded here neither
    reads nor writes it.) *)
Inductive field :=
  | FNum (n : number)
  | FBool (b : bool).

(** An entry of the parameter object: a parameter group (a nested object
    such as [timing]) or a plain leaf (such as [animationSpeed]). *)
Inductive entry :=
  | Group (g : gmap string field)
  | Leaf (f : field).

Abbreviation params := (gmap string entry).

(** [ToBoolean] *)
Definition truthy_number (n : number) : bool :=
  match n with
  | NaN => false
  | Inf _ => true
  | Fin q => negb (Qeq_bool q 0)
  end.

Definition truthy_field (f : option field) : bool :=
  match f with
  | None => false
  | Some (FNum n) => truthy_number n
  | Some (FBool b) => b
  end.

Definition truthy_entry (e : option entry) : bool :=
  match e with
  | None => false
  | Some (Group _) => true
  | Some (Leaf f) => truthy_field (Some f)
  end.

(** [ToNumber] *)
Definition to_number (f : field) : number :=
  match f with
  | FNum n => n
  | FBool true => num 1
  | FBool false => num 0
  end.

(** [v || d] where [d] is a number literal. *)
Definition or_default (v : option field) (d : number) : field :=
  match v with
  | Some f => if truthy_field v then f else FNum d
  | None => FNum d
  end.

(** [v ?? d]: the default only replaces an absent value. *)
Definition nullish_default (v : option field) (d : number) : field :=
  match v with
  | Some f => f
  | None => FNum d
  end.

(** [params.g.f] for a truthy [params.g]: a property read on a number or
    boolean leaf finds nothing. *)
Definition read_field (g f : string) (p : params) : option field :=
  match p !! g with
  | Some (Group o) => o !! f
  | _ => None
  end.

(** [params.g.f = v].  Class bodies are strict code: the write throws when
    [params.g] is [undefined] and when it is a primitive. *)
Definition write_field (g f : string) (v : field) : M params unit :=
  λ p, match p !! g with
       | Some (Group o) => (Ok tt, <[g := Group (<[f := v]> o)]> p)
       | Some (Leaf _) =>
           (Throw (TypeError ("Cannot create property " +:+ f)), p)
       | None =>
           (Throw (TypeError ("Cannot set properties of undefined (setting " +:+ f +:+ ")")), p)
       end.

(** ** Property maps *)

(** The values an animation request can carry under a property name. *)
Inductive value :=
  | VUndefined
  | VNull
  | VBool (b : bool)
  | VNum (n : number)
  | VStr (s : string)
  | VObj (o : gmap string value).

(** [Object.keys(v)]: the own enumerable string keys.  It throws on
    [undefined] and [null]; a boolean or a number has none; a string has
    its indices.  The order of the keys of an object is that of the finite
    map, not the insertion order of the source. *)
Definition Object_keys (v : value) : result (list string) :=
  match v with
  | VUndefined | VNull =>
      Throw (TypeError "Cannot convert undefined or null to object")
  | VBool _ | VNum _ => Ok []
  | VStr s => Ok (pretty <$> seq 0 (String.length s))
  | VObj o => Ok (map_to_list o).*1
  end.

(** [xs.includes(x)] on an array of strings. *)
Definition includes (xs : list string) (x : string) : bool :=
  bool_decide (x ∈ xs).

(** ** Performance tiers and the observable trace *)

Inductive Level := high | medium | low.

#[global] Instance Level_eq_dec : EqDecision Level.
Proof. solve_decision. Defined.

(** The per-tier bundle returned by [getConstraints]. *)
Record Bundle := {
  maxSegments : number;
  maxJiggle : number;
  maxVariation : number;
  allowSquash : bool;
  allowSecondaryAction : bool
}.

(** What the code prints or shows, and a marker for each call that the
    properties below count. *)
Inductive event :=
  | BlockedProperty (key : string)          (* console.warn, filterGPUProperties *)
  | LimitReached                            (* console.warn, safeAnimate *)
  | LevelChanged (previous now : Level) (fps : Z)  (* console.log *)
  | StrictMode (fps : Z)                    (* console.warn, enforceConstraints *)
  | CallbackError (e : error)               (* console.error, notifyCallbacks *)
  | PerformanceWarning (fps : Z)            (* showPerformanceWarning *)
  | UpdateUI (fps : Z) (level : Level)      (* updateUI *)
  | Enforce (level : Level)                 (* enforceConstraints entered *)
  | Notify (index : nat) (fps : Z) (level : Level) (bundle : Bundle).
                                            (* subscriber [index] called *)

(** ** PerformanceConstraints *)

Module PerformanceConstraints.

Definition MAX_CONCURRENT_ANIMATIONS : Z := 8.
Definition MAX_SEGMENTS_PER_YEAR : number := num 4.
Definition MIN_ANIMATION_DURATION : number := Fin (5 # 100).
Definition MAX_JIGGLE_FREQUENCY : number := num 10.
Definition MAX_TIMING_VARIATION : number := Fin (5 # 10).
Definition MIN_FPS_THRESHOLD : number := num 50.
Definition GPU_ONLY_PROPERTIES : list string :=
  ["opacity"; "transform"; "x"; "y"; "rotation"; "scale";
   "scaleX"; "scaleY"; "rotationX"; "rotationY"; "rotationZ"].

(** [params.g.f = Math.min(params.g.f || d, c)] *)
Definition clamp_min (g f : string) (d c : number) : M params unit :=
  let* p := get in
  write_field g f (FNum (Math_min (to_number (or_default (read_field g f p) d)) c)).

(** [params.g.f = Math.max(params.g.f || d, c)] *)
Definition clamp_max (g f : string) (d c : number) : M params unit :=
  let* p := get in
  write_field g f (FNum (Math_max (to_number (or_default (read_field g f p) d)) c)).

(** [if (params.g) { body }] *)
Definition when_group (g : string) (body : M params unit) : M params unit :=
  let* p := get in
  if truthy_entry (p !! g) then body else ret tt.

(** The object is clamped in place and the same reference is returned:
    the store of the computation is the object itself. *)
Definition validateParameters : M params unit :=
  when_group "timing"
    (clamp_min "timing" "maxSegments" (num 4) MAX_SEGMENTS_PER_YEAR ;;
     clamp_min "timing" "organicVariation" (Fin (3 # 10)) MAX_TIMING_VARIATION) ;;
  when_group "secondaryAction"
    (clamp_min "secondaryAction" "jiggleIntensity" (num 2) (num 3) ;;
     clamp_min "secondaryAction" "maxJiggles" (num 3) (num 5)) ;;
  when_group "squashAndStretch"
    (clamp_max "squashAndStretch" "squashAmount" (Fin (9 # 10)) (Fin (7 # 10)) ;;
     clamp_min "squashAndStretch" "stretchAmount" (Fin (11 # 10)) (Fin (13 # 10))).

(** The local object [safe] and what was printed on the console. *)
Record frame := { safe : gmap string value; printed : list event }.

Definition set_safe (key : string) (v : value) : M frame unit :=
  modify (λ fr, {| safe := <[key := v]> (safe fr); printed := printed fr |}).

Definition console_warn (e : event) : M frame unit :=
  modify (λ fr, {| safe := safe fr; printed := printed fr ++ [e] |}).

Definition lift_result {S A} (r : result A) : M S A := λ s, (r, s).

Definition safeAttrs : list string :=
  ["width"; "height"; "d"; "transform"; "opacity"].

Definition isGPUSafeAttribute (attrProps : value) : result bool :=
  match Object_keys attrProps with
  | Ok attrs => Ok (forallb (includes safeAttrs) attrs)
  | Throw e => Throw e
  end.

(** The body of the [forEach] of [filterGPUProperties]. *)
Definition filter_key (properties : gmap string value) (key : string)
  : M frame unit :=
  let v := default VUndefined (properties !! key) in
  if includes GPU_ONLY_PROPERTIES key then set_safe key v
  else
    let* attr_ok :=
      (if String.eqb key "attr" then lift_result (isGPUSafeAttribute v)
       else ret false) in
    if attr_ok then set_safe key v
    else if String.eqb key "duration" || String.eqb key "ease"
            || String.eqb key "delay"
    then set_safe key v
    else console_warn (BlockedProperty key).

Definition filterGPUProperties (properties : gmap string value)
  : M (list event) (gmap string value) :=
  λ c, match forEach (filter_key properties) (map_to_list properties).*1
               {| safe := ∅; printed := c |} with
       | (Ok _, fr) => (Ok (safe fr), printed fr)
       | (Throw e, fr) => (Throw e, printed fr)
       end.

End PerformanceConstraints.


(** ** ButteryAnimationEngine: the parameter state the monitor writes to *)

Module ButteryAnimationEngine.

(** [this.animationParams] as the constructor of animation-engine.js
    builds it. *)
Definition animationParams : params :=
  <["timing" := Group (<["baseDuration" := FNum (num 1500)]>
                       (<["staggerDelay" := FNum (num 300)]> ∅))]>
  (<["squashAndStretch" := Group (<["enabled" := FBool true]>
                                  (<["squashAmount" := FNum (Fin (9 # 10))]>
                                  (<["stretchAmount" := FNum (Fin (11 # 10))]>
                                  (<["squashDuration" := FNum (Fin (15 # 100))]> ∅))))]>
  (<["anticipation" := Group (<["enabled" := FBool true]>
                              (<["pullbackAmount" := FNum (Fin (95 # 100))]>
                              (<["pauseDuration" := FNum (Fin (5 # 100))]> ∅)))]>
  (<["followThrough" := Group (<["enabled" := FBool true]>
                               (<["overshootAmount" := FNum (Fin (105 # 100))]>
                               (<["settleDuration" := FNum (Fin (2 # 10))]> ∅)))]>
  (<["secondaryAction" := Group (<["enabled" := FBool true]>
                                 (<["jiggleIntensity" := FNum (num 1)]>
                                 (<["maxJiggles" := FNum (num 3)]> ∅)))]> ∅)))).

(** [this.animationParams] of the progressive-drawing variant of the engine:
    two plain entries and no group. *)
Definition progressive_animationParams : params :=
  <["animationSpeed" := Leaf (FNum (num 1))]>
  (<["drawingDuration" := Leaf (FNum (num 2))]> ∅).

(** *** animateYearButtery *)

(** What a tween is aimed at: the path of a year
    ([this.paths[year].node()]), a selector string, or the empty object of
    a pause. *)
Inductive Target :=
  | Path (year : string)
  | Selector (s : string)
  | EmptyObject.

(** A call [this.timeline.to(target, vars, position)]; [position] is [None]
    when the call has no third argument. *)
Record Tween := {
  target : Target;
  vars : gmap string value;
  position : option number
}.

(** The fields of the engine that [animateYearButtery] uses:
    [this.animationParams], the years [this.paths] has an entry for,
    [this.timeline] ([null] until an animation is started), and the results
    [Math.random()] is going to give, with the number of them already
    handed out.  [console.log] is left out. *)
Record Engine := {
  this_animationParams : params;
  paths : list string;
  timeline : option (list Tween);
  random : nat → Q;
  drawn : nat
}.

(** [this.width], set by the constructor to [1000 - 60 - 30]. *)
Definition width : number := num (1000 - 60 - 30).

(** [this.animationParams.g.f]: a [TypeError] when [this.animationParams.g]
    is [undefined], [undefined] when it is a number or a boolean. *)
Definition get_field (g f : string) : M Engine (option field) :=
  let* this := get in
  match this_animationParams this !! g with
  | Some (Group o) => ret (o !! f)
  | Some (Leaf _) => ret None
  | None =>
      throw (TypeError ("Cannot read properties of undefined (reading " +:+ f +:+ ")"))
  end.

(** [ToNumber] of a field that may be [undefined]. *)
Definition field_number (f : option field) : number :=
  match f with
  | Some f => to_number f
  | None => NaN
  end.

(** A field as the value of a tween property. *)
Definition field_value (f : option field) : value :=
  match f with
  | Some (FNum n) => VNum n
  | Some (FBool b) => VBool b
  | None => VUndefined
  end.

Definition Math_random : M Engine number :=
  let* this := get in
  modify (λ this, {| this_animationParams := this_animationParams this;
                     paths := paths this; timeline := timeline this;
                     random := random this; drawn := S (drawn this) |}) ;;
  ret (Fin (random this (drawn this))).

(** [this.timeline.to(target, vars, position)]: the method is looked up
    first (a [TypeError] on a [null] timeline), then the arguments are
    evaluated, then the tween is added. *)
Definition timeline_to (target : Target) (vars : M Engine (gmap string value))
    (position : option number) : M Engine unit :=
  let* this := get in
  match timeline this with
  | None => throw (TypeError "Cannot read properties of null (reading to)")
  | Some _ =>
      let* vars := vars in
      modify (λ this,
        {| this_animationParams := this_animationParams this;
           paths := paths this;
           timeline :=
             (λ tweens, tweens ++ [{| target := target; vars := vars;
                                      position := position |}]) <$> timeline this;
           random := random this; drawn := drawn this |})
  end.

(** [this.paths[year].node()] *)
Definition path_node (year : string) : M Engine Target :=
  let* this := get in
  if bool_decide (year ∈ paths this) then ret (Path year)
  else throw (TypeError "Cannot read properties of undefined (reading node)").

(** Lines 242 to 255: anticipation. *)
Definition anticipation (element : Target) (delay : number) : M Engine unit :=
  let* enabled := get_field "anticipation" "enabled" in
  if truthy_field enabled then
    timeline_to element
      (let* pullbackAmount := get_field "anticipation" "pullbackAmount" in
       ret (<["scaleX" := field_value pullbackAmount]>
            (<["transformOrigin" := VStr "center center"]>
            (<["duration" := VNum (Fin (1 # 10))]>
            (<["ease" := VStr "power2.in"]> ∅)))))
      (Some (js_div delay (num 1000))) ;;
    timeline_to EmptyObject
      (let* pauseDuration := get_field "anticipation" "pauseDuration" in
       ret (<["duration" := field_value pauseDuration]> ∅))
      None
  else ret tt.

(** Lines 257 to 267: squash. *)
Definition squash (element : Target) (delay : number) : M Engine unit :=
  let* enabled := get_field "squashAndStretch" "enabled" in
  if truthy_field enabled then
    timeline_to element
      (let* squashAmount := get_field "squashAndStretch" "squashAmount" in
       let* squashDuration := get_field "squashAndStretch" "squashDuration" in
       ret (<["scaleY" := field_value squashAmount]>
            (<["scaleX" := VNum (num 1)]>
            (<["transformOrigin" := VStr "bottom center"]>
            (<["duration" := field_value squashDuration]>
            (<["ease" := VStr "power2.in"]> ∅))))))
      (Some (js_add (js_div delay (num 1000)) (Fin (15 # 100))))
  else ret tt.

(** Lines 269 to 283: the reveal and the drawing. *)
Definition reveal (year : string) (element : Target) (baseDuration delay : number)
    : M Engine unit :=
  timeline_to element
    (let* enabled := get_field "squashAndStretch" "enabled" in
     let* scaleY :=
       (if truthy_field enabled then
          let* stretchAmount := get_field "squashAndStretch" "stretchAmount" in
          ret (field_value stretchAmount)
        else ret (VNum (num 1))) in
     ret (<["opacity" := VNum (num 1)]>
          (<["scaleY" := scaleY]>
          (<["duration" := VNum (js_mul baseDuration (Fin (3 # 10)))]>
          (<["ease" := VStr "power2.out"]> ∅)))))
    (Some (js_add (js_div delay (num 1000)) (Fin (25 # 100)))) ;;
  timeline_to (Selector (".reveal-" +:+ year))
    (ret (<["attr" := VObj (<["width" := VNum width]> ∅)]>
          (<["duration" := VNum (js_mul baseDuration (Fin (6 # 10)))]>
          (<["ease" := VStr "power2.out"]> ∅))))
    (Some (js_add (js_div delay (num 1000)) (Fin (3 # 10)))).

(** The body of the loop, lines 288 to 306. *)
Definition jiggle (i : Z) (element : Target) (delay : number) : M Engine unit :=
  let jiggleTime :=
    js_add (js_add (js_div delay (num 1000)) (Fin (5 # 10)))
           (js_mul (num i) (Fin (2 # 10))) in
  let* intensity := get_field "secondaryAction" "jiggleIntensity" in
  timeline_to element
    (let* r := Math_random in
     let x := js_mul (js_sub r (Fin (5 # 10))) (field_number intensity) in
     let* r := Math_random in
     let y := js_mul (js_sub r (Fin (5 # 10))) (field_number intensity) in
     ret (<["x" := VNum x]>
          (<["y" := VNum y]>
          (<["duration" := VNum (Fin (8 # 100))]>
          (<["ease" := VStr "none"]> ∅)))))
    (Some jiggleTime) ;;
  timeline_to element
    (ret (<["x" := VNum (num 0)]>
          (<["y" := VNum (num 0)]>
          (<["duration" := VNum (Fin (12 # 100))]>
          (<["ease" := VStr "power2.out"]> ∅)))))
    (Some (js_add jiggleTime (Fin (8 # 100)))).

(** [i < this.animationParams.secondaryAction.maxJiggles] *)
Definition more_jiggles (i : Z) : M Engine bool :=
  let* maxJiggles := get_field "secondaryAction" "maxJiggles" in
  ret (num_ltb (num i) (field_number maxJiggles)).

(** [for (let i = ...; i < maxJiggles; i++) { ... }], from [i] on.  The
    loop has no bound of its own: [None] is a run that is not over when the
    fuel is. *)
Fixpoint jiggles (fuel : nat) (i : Z) (element : Target) (delay : number)
    (this : Engine) : option (result unit * Engine) :=
  match fuel with
  | O => None
  | S fuel =>
      match more_jiggles i this with
      | (Ok true, this) =>
          match jiggle i element delay this with
          | (Ok _, this) => jiggles fuel (i + 1) element delay this
          | (Throw e, this) => Some (Throw e, this)
          end
      | (Ok false, this) => Some (Ok tt, this)
      | (Throw e, this) => Some (Throw e, this)
      end
  end.

(** [enabled && jiggleIntensity > 0], line 286. *)
Definition secondaryAction_on : M Engine bool :=
  let* enabled := get_field "secondaryAction" "enabled" in
  if truthy_field enabled then
    let* jiggleIntensity := get_field "secondaryAction" "jiggleIntensity" in
    ret (num_ltb (num 0) (field_number jiggleIntensity))
  else ret false.

(** Lines 308 to 323: follow through. *)
Definition followThrough (element : Target) (baseDuration delay : number)
    : M Engine unit :=
  let* enabled := get_field "followThrough" "enabled" in
  if truthy_field enabled then
    timeline_to element
      (let* overshootAmount := get_field "followThrough" "overshootAmount" in
       ret (<["scaleY" := field_value overshootAmount]>
            (<["duration" := VNum (Fin (1 # 10))]>
            (<["ease" := VStr "power2.out"]> ∅))))
      (Some (js_sub (js_add (js_div delay (num 1000)) baseDuration) (Fin (3 # 10)))) ;;
    timeline_to element
      (let* settleDuration := get_field "followThrough" "settleDuration" in
       ret (<["scaleY" := VNum (num 1)]>
            (<["duration" := field_value settleDuration]>
            (<["ease" := VStr "back.out(1.5)"]> ∅))))
      None
  else ret tt.

(** What comes before the loop: the two constants, then anticipation,
    squash, reveal and the test of line 286. *)
Definition before_jiggles (year : string) (delay : number)
    : M Engine (number * Target * bool) :=
  let* field := get_field "timing" "baseDuration" in
  let baseDuration := js_div (field_number field) (num 1000) in
  let* element := path_node year in
  anticipation element delay ;;
  squash element delay ;;
  reveal year element baseDuration delay ;;
  let* on := secondaryAction_on in
  ret (baseDuration, element, on).

(** [animateYearButtery(year, delay)]; [fuel] bounds the turns of the
    loop. *)
Definition animateYearButtery (fuel : nat) (year : string) (delay : number)
    (this : Engine) : option (result unit * Engine) :=
  match before_jiggles year delay this with
  | (Ok (baseDuration, element, on), this) =>
      match (if on then jiggles fuel 0 element delay this
             else Some (Ok tt, this)) with
      | Some (Ok _, this) => Some (followThrough element baseDuration delay this)
      | Some (Throw e, this) => Some (Throw e, this)
      | None => None
      end
  | (Throw e, this) => Some (Throw e, this)
  end.

End ButteryAnimationEngine.

(** ** PerformanceMonitor *)

Module PerformanceMonitor.
Section Monitor.

(** The state owned by the subscribers.  A subscriber sees
    [(fps, level, bundle)], may change that state and may throw; it does
    not reach into the monitor or the engine. *)
Context {W : Type}.

Definition Callback : Type := Z → Level → Bundle → M W unit.

Record Sample := {
  sample_fps : Z;
  timestamp : Z;
  sample_level : Level
}.

(** The fields of [this]. *)
Record Monitor := {
  fps : Z;
  frameCount : Z;
  lastTime : Q;
  performanceLevel : Level;
  monitoring : bool;
  history : list Sample;
  callbacks : list Callback
}.

(** The monitor, [window.animationEngine.animationParams] (when an engine
    is registered), the subscribers' state, the trace, and the host's queue
    of animation-frame callbacks: how many times [tick] stands in it. *)
Record World := {
  monitor : Monitor;
  animationEngine : option params;
  outside : W;
  trace : list event;
  frameRequests : nat
}.

Definition set_monitor (f : Monitor → Monitor) : M World unit :=
  modify (λ w, {| monitor := f (monitor w); animationEngine := animationEngine w;
                  outside := outside w; trace := trace w;
                  frameRequests := frameRequests w |}).

Definition emit (e : event) : M World unit :=
  modify (λ w, {| monitor := monitor w; animationEngine := animationEngine w;
                  outside := outside w; trace := trace w ++ [e];
                  frameRequests := frameRequests w |}).

(** [requestAnimationFrame(tick)]: [tick] is queued for the next frame. *)
Definition requestAnimationFrame : M World unit :=
  modify (λ w, {| monitor := monitor w; animationEngine := animationEngine w;
                  outside := outside w; trace := trace w;
                  frameRequests := S (frameRequests w) |}).

(** Run a computation on [window.animationEngine.animationParams]. *)
Definition on_engine {A} (m : M params A) : M World A :=
  λ w, match animationEngine w with
       | Some p =>
           let '(r, p') := m p in
           (r, {| monitor := monitor w; animationEngine := Some p';
                  outside := outside w; trace := trace w;
                  frameRequests := frameRequests w |})
       | None =>
           (Throw (TypeError "Cannot read properties of undefined (reading animationParams)"), w)
       end.

(** Run a subscriber on its own state. *)
Definition on_outside {A} (m : M W A) : M World A :=
  λ w, let '(r, o') := m (outside w) in
       (r, {| monitor := monitor w; animationEngine := animationEngine w;
              outside := o'; trace := trace w;
              frameRequests := frameRequests w |}).

Definition set_fps (v : Z) (m : Monitor) : Monitor :=
  {| fps := v; frameCount := frameCount m; lastTime := lastTime m;
     performanceLevel := performanceLevel m; monitoring := monitoring m;
     history := history m; callbacks := callbacks m |}.
Definition set_frameCount (v : Z) (m : Monitor) : Monitor :=
  {| fps := fps m; frameCount := v; lastTime := lastTime m;
     performanceLevel := performanceLevel m; monitoring := monitoring m;
     history := history m; callbacks := callbacks m |}.
Definition set_lastTime (v : Q) (m : Monitor) : Monitor :=
  {| fps := fps m; frameCount := frameCount m; lastTime := v;
     performanceLevel := performanceLevel m; monitoring := monitoring m;
     history := history m; callbacks := callbacks m |}.
Definition set_performanceLevel (v : Level) (m : Monitor) : Monitor :=
  {| fps := fps m; frameCount := frameCount m; lastTime := lastTime m;
     performanceLevel := v; monitoring := monitoring m;
     history := history m; callbacks := callbacks m |}.
Definition set_monitoring (v : bool) (m : Monitor) : Monitor :=
  {| fps := fps m; frameCount := frameCount m; lastTime := lastTime m;
     performanceLevel := performanceLevel m; monitoring := v;
     history := history m; callbacks := callbacks m |}.
Definition set_history (v : list Sample) (m : Monitor) : Monitor :=
  {| fps := fps m; frameCount := frameCount m; lastTime := lastTime m;
     performanceLevel := performanceLevel m; monitoring := monitoring m;
     history := v; callbacks := callbacks m |}.
Definition set_callbacks (v : list Callback) (m : Monitor) : Monitor :=
  {| fps := fps m; frameCount := frameCount m; lastTime := lastTime m;
     performanceLevel := performanceLevel m; monitoring := monitoring m;
     history := history m; callbacks := v |}.

(** The constructor, at [performance.now() = now]. *)
Definition new (now : Q) : Monitor :=
  {| fps := 60; frameCount := 0; lastTime := now; performanceLevel := high;
     monitoring := true; history := []; callbacks := [] |}.

(** [updateHistory], with [Date.now() = now] at both of its reads. *)
Definition updateHistory (now : Z) : M World unit :=
  set_monitor (λ m, set_history
    (history m ++ [{| sample_fps := fps m; timestamp := now;
                      sample_level := performanceLevel m |}]) m) ;;
  let cutoff := now - 60000 in
  set_monitor (λ m, set_history
    (List.filter (λ entry, cutoff <? timestamp entry) (history m)) m).

Definition showPerformanceWarning : M World unit :=
  let* w := get in
  emit (PerformanceWarning (fps (monitor w))).

Definition enforceConstraints : M World unit :=
  let* w := get in
  emit (Enforce (performanceLevel (monitor w))) ;;
  if decide (performanceLevel (monitor w) = low) then
    emit (StrictMode (fps (monitor w))) ;;
    match animationEngine w with
    | Some _ =>
        on_engine (write_field "timing" "maxSegments" (FNum (num 2))) ;;
        on_engine (write_field "secondaryAction" "jiggleIntensity" (FNum (num 0))) ;;
        on_engine (write_field "timing" "organicVariation" (FNum (Fin (1 # 10)))) ;;
        on_engine (write_field "squashAndStretch" "enabled" (FBool false)) ;;
        showPerformanceWarning
    | None => ret tt
    end
  else ret tt.

(** The classifier of [adjustPerformanceLevel]. *)
Definition classify (fps : Z) : Level :=
  if fps <? 45 then low
  else if fps <? 55 then medium
  else high.

Definition adjustPerformanceLevel : M World unit :=
  let* w := get in
  let previousLevel := performanceLevel (monitor w) in
  set_monitor (λ m, set_performanceLevel (classify (fps m)) m) ;;
  let* w := get in
  if decide (previousLevel ≠ performanceLevel (monitor w)) then
    emit (LevelChanged previousLevel (performanceLevel (monitor w))
                       (fps (monitor w))) ;;
    enforceConstraints
  else ret tt.

Definition updateUI : M World unit :=
  let* w := get in
  emit (UpdateUI (fps (monitor w)) (performanceLevel (monitor w))).

Definition getConstraints (m : Monitor) : Bundle :=
  match performanceLevel m with
  | high => {| maxSegments := num 4; maxJiggle := num 2;
               maxVariation := Fin (3 # 10);
               allowSquash := true; allowSecondaryAction := true |}
  | medium => {| maxSegments := num 3; maxJiggle := num 1;
                 maxVariation := Fin (2 # 10);
                 allowSquash := true; allowSecondaryAction := true |}
  | low => {| maxSegments := num 2; maxJiggle := num 0;
              maxVariation := Fin (1 # 10);
              allowSquash := false; allowSecondaryAction := false |}
  end.

Definition onPerformanceChange (callback : Callback) : M World unit :=
  set_monitor (λ m, set_callbacks (callbacks m ++ [callback]) m).

(** One round of the [forEach] of [notifyCallbacks]: the arguments are
    read from [this] at the time of the call. *)
Definition notify_one (ic : nat * Callback) : M World unit :=
  try_catch
    (let* w := get in
     let m := monitor w in
     emit (Notify ic.1 (fps m) (performanceLevel m) (getConstraints m)) ;;
     on_outside (ic.2 (fps m) (performanceLevel m) (getConstraints m)))
    (λ error, emit (CallbackError error)).

Definition notifyCallbacks : M World unit :=
  let* w := get in
  forEach notify_one (imap pair (callbacks (monitor w))).

(** What [tick] does once a window has closed and [this.fps] is set. *)
Definition window_close (now : Z) : M World unit :=
  updateHistory now ;;
  adjustPerformanceLevel ;;
  notifyCallbacks ;;
  updateUI.

(** [Math.round((frameCount * 1000) / elapsed)] for a positive [elapsed]. *)
Definition measured_fps (frameCount : Z) (elapsed : Q) : Z :=
  Qfloor (inject_Z (frameCount * 1000) / elapsed + (1 # 2)).

(** The closure [tick] of [startMonitoring], called with
    [performance.now() = currentTime] and [Date.now() = now].  A stopped
    monitor returns at once; otherwise the frame is counted, a window that is
    over is closed, and [tick] asks for the next frame.  An exception out of
    the window leaves that request unmade. *)
Definition tick (currentTime : Q) (now : Z) : M World unit :=
  let* w := get in
  if negb (monitoring (monitor w)) then ret tt
  else
    set_monitor (λ m, set_frameCount (frameCount m + 1) m) ;;
    let* w := get in
    let elapsed := (currentTime - lastTime (monitor w))%Q in
    (if Qle_bool 1000 elapsed then
       set_monitor (λ m, set_fps (measured_fps (frameCount m) elapsed) m) ;;
       set_monitor (set_frameCount 0) ;;
       set_monitor (set_lastTime currentTime) ;;
       window_close now
     else ret tt) ;;
    requestAnimationFrame.

(** [startMonitoring]: the closure is made and queued for the first
    time. *)
Definition startMonitoring : M World unit := requestAnimationFrame.

(** [new PerformanceMonitor()] on a page: the fields, then
    [this.startMonitoring()]. *)
Definition construct (now : Q) : M World unit :=
  set_monitor (λ _, new now) ;;
  startMonitoring.

(** A window whose measured rate is [sample]: the part of [tick] that
    follows the measurement. *)
Definition feed (sample : Z) (now : Z) : M World unit :=
  set_monitor (set_fps sample) ;;
  window_close now.

Definition stop : M World unit := set_monitor (set_monitoring false).

Definition start : M World unit :=
  let* w := get in
  if negb (monitoring (monitor w)) then
    set_monitor (set_monitoring true) ;;
    startMonitoring
  else ret tt.

(** The host's side of a frame.  It takes a queued callback off the queue
    and calls it. *)
Definition frame_callback (currentTime : Q) (now : Z) : M World unit :=
  modify (λ w, {| monitor := monitor w; animationEngine := animationEngine w;
                  outside := outside w; trace := trace w;
                  frameRequests := pred (frameRequests w) |}) ;;
  tick currentTime now.

(** [n] callbacks, one after the other; callback [k] reads the clocks
    [clock k].  An exception of a callback is reported by the host and the
    next callback is called. *)
Fixpoint run_callbacks (n k : nat) (clock : nat → Q * Z) (w : World) : World :=
  match n with
  | O => w
  | S n => run_callbacks n (S k) clock
             (frame_callback (clock k).1 (clock k).2 w).2
  end.

(** One animation frame: the callbacks that were queued when the frame
    began are run; what they queue is for the next frame. *)
Definition animation_frame (clock : nat → Q * Z) (w : World) : World :=
  run_callbacks (frameRequests w) 0 clock w.

(** ** getMetrics *)

(** [Math.min(...xs)] and [Math.max(...xs)]: plus and minus infinity on
    no argument. *)
Definition Math_min_spread (xs : list number) : number :=
  fold_left Math_min xs (Inf false).
Definition Math_max_spread (xs : list number) : number :=
  fold_left Math_max xs (Inf true).

Record Metrics := {
  currentFPS : number;
  metrics_level : Level;
  averageFPS : number;
  minFPS : number;
  maxFPS : number;
  dataPoints : nat
}.

Definition getMetrics (m : Monitor) : Metrics :=
  let fpss := map (λ entry, num (sample_fps entry)) (history m) in
  {| currentFPS := num (fps m);
     metrics_level := performanceLevel m;
     averageFPS :=
       if (0 <? length (history m))%nat then
         Math_round
           (js_div (num (fold_left (λ sum entry, sum + sample_fps entry) (history m) 0))
                   (num (Z.of_nat (length (history m)))))
       else num (fps m);
     minFPS := if (0 <? length (history m))%nat then Math_min_spread fpss
               else num (fps m);
     maxFPS := if (0 <? length (history m))%nat then Math_max_spread fpss
               else num (fps m);
     dataPoints := length (history m) |}.

End Monitor.
Arguments Callback : clear implicits.
Arguments Monitor : clear implicits.
Arguments World : clear implicits.
End PerformanceMonitor.

(** ** GPUOnlyAnimationBuilder *)

Module GPUOnlyAnimationBuilder.

(** A variable of a tween: a value out of the property map or an
    argument, or the arrow function [() => { this.animationCount--; }] that
    [safeAnimate] puts under [onComplete]. *)
Inductive tween_var :=
  | Value (v : value)
  | OnComplete.

(** A tween handed to [timeline.to].  [completions] is no field of the
    source: it notes how many times the tween engine has called the tween's
    [onComplete], for the properties below to speak about; no code reads
    it. *)
Record Tween := {
  target : string;
  vars : gmap string tween_var;
  position : number;
  completions : nat
}.

Record Builder := {
  animationCount : Z;
  timeline : list Tween;
  console : list event
}.

(** The constructor, on a fresh timeline.  [element], [params] and
    [performanceMonitor] play no part in [safeAnimate] and are left out. *)
Definition new : Builder :=
  {| animationCount := 0; timeline := []; console := [] |}.

Definition on_console {A} (m : M (list event) A) : M Builder A :=
  λ b, let '(r, c) := m (console b) in
       (r, {| animationCount := animationCount b; timeline := timeline b;
              console := c |}).

Definition console_warn (e : event) : M Builder unit :=
  on_console (modify (λ c, c ++ [e])).

Definition set_animationCount (f : Z → Z) : M Builder unit :=
  modify (λ b, {| animationCount := f (animationCount b);
                  timeline := timeline b; console := console b |}).

(** [this.timeline.to(target, vars, position)] *)
Definition timeline_to (target : string) (vars : gmap string tween_var)
    (position : number) : M Builder unit :=
  modify (λ b, {| animationCount := animationCount b;
                  timeline := timeline b ++
                    [{| target := target; vars := vars;
                        position := position; completions := 0 |}];
                  console := console b |}).

Definition safeAnimate (target : string) (properties : gmap string value)
    (duration : number) (ease : value) (delay : number) : M Builder unit :=
  let* gpuProperties :=
    on_console (PerformanceConstraints.filterGPUProperties properties) in
  let* b := get in
  if PerformanceConstraints.MAX_CONCURRENT_ANIMATIONS <=? animationCount b then
    console_warn LimitReached
  else
    let safeDuration :=
      Math_max duration PerformanceConstraints.MIN_ANIMATION_DURATION in
    set_animationCount (λ n, n + 1) ;;
    timeline_to target
      (<["onComplete" := OnComplete]>
       (<["ease" := Value ease]>
       (<["duration" := Value (VNum safeDuration)]>
       (Value <$> gpuProperties))))
      delay.

(** The body of the arrow function: [this.animationCount--], whenever it
    is called. *)
Definition onComplete : M Builder unit :=
  set_animationCount (λ n, n - 1).

(** The tween engine calls the [onComplete] of the tween at index [i] of
    the timeline.  When and how often it does so is the engine's matter: the
    builder has no say in it.  The call is noted in [completions]. *)
Definition complete (i : nat) : M Builder unit :=
  let* b := get in
  match timeline b !! i with
  | Some tw =>
      match vars tw !! "onComplete" with
      | Some OnComplete =>
          modify (λ b, {| animationCount := animationCount b;
                          timeline := <[i := {| target := target tw; vars := vars tw;
                                                position := position tw;
                                                completions := S (completions tw) |}]>
                                        (timeline b);
                          console := console b |}) ;;
          onComplete
      | _ => ret tt
      end
  | None => ret tt
  end.

(** What can happen to a builder: a request, or a call of a tween's
    [onComplete] by the tween engine. *)
Inductive action :=
  | Animate (target : string) (properties : gmap string value)
            (duration : number) (ease : value) (delay : number)
  | Complete (i : nat).

Definition perform (a : action) : M Builder unit :=
  match a with
  | Animate t p d e dl => safeAnimate t p d e dl
  | Complete i => complete i
  end.

(** A run: an exception of [safeAnimate] goes to its caller, and the
    builder lives on. *)
Definition run (actions : list action) (b : Builder) : Builder :=
  fold_left (λ b a, (perform a b).2) actions b.

(** The tweens in flight: those whose [onComplete] has not been called. *)
Definition in_flight (b : Builder) : Z :=
  Z.of_nat (length (List.filter (λ tw, Nat.eqb (completions tw) 0) (timeline b))).


(** An element of the array given to [batchAnimate]; a field that is not
    there is [None]. *)
Record Animation := {
  anim_target : string;
  anim_properties : gmap string value;
  anim_duration : option number;
  anim_ease : option value;
  anim_delay : option number
}.

(** [this.safeAnimate(anim.target, anim.properties, anim.duration, anim.ease,
    anim.delay)]: an argument that is [undefined] takes the default of the
    parameter list, [duration = 1, ease = "power2.out", delay = 0]. *)
Definition safeAnimate_anim (anim : Animation) : M Builder unit :=
  safeAnimate (anim_target anim) (anim_properties anim)
    (default (num 1) (anim_duration anim))
    (match anim_ease anim with
     | None | Some VUndefined => VStr "power2.out"
     | Some ease => ease
     end)
    (default (num 0) (anim_delay anim)).

(** [animations.slice(i, j)] *)
Definition slice {A} (i j : nat) (l : list A) : list A :=
  take (j - i) (drop i l).

(** The [for] loop of [batchAnimate], from index [i]; every round moves [i]
    forward, so [fuel = animations.length] rounds are never exhausted. *)
Fixpoint batch_loop (fuel i : nat) (animations : list Animation) : M Builder unit :=
  match fuel with
  | O => ret tt
  | S fuel' =>
      if (i <? length animations)%nat then
        let maxBatchSize := 4%nat in
        let batch := slice i (i + maxBatchSize) animations in
        forEach safeAnimate_anim batch ;;
        batch_loop fuel' (i + maxBatchSize) animations
      else ret tt
  end.

Definition batchAnimate (animations : list Animation) : M Builder unit :=
  batch_loop (length animations) 0 animations.

(** [getConstraints]: the bundle of the monitor the builder was given, or
    the fixed bundle when it was given none. *)
Definition getConstraints {W} (performanceMonitor : option (PerformanceMonitor.Monitor W))
    : Bundle :=
  match performanceMonitor with
  | Some m => PerformanceMonitor.getConstraints m
  | None => {| maxSegments := num 4; maxJiggle := num 2;
               maxVariation := Fin (3 # 10);
               allowSquash := true; allowSecondaryAction := true |}
  end.

Definition shouldAnimate {W} (performanceMonitor : option (PerformanceMonitor.Monitor W))
    (animationType : string) : bool :=
  let constraints := getConstraints performanceMonitor in
  if String.eqb animationType "squash" then allowSquash constraints
  else if String.eqb animationType "secondaryAction" then allowSecondaryAction constraints
  else if String.eqb animationType "jiggle" then num_ltb (num 0) (maxJiggle constraints)
  else true.

End GPUOnlyAnimationBuilder.

(** ** PerformanceGSAPOverride *)

Module PerformanceGSAPOverride.
Section Override.

(** The state of the animation library itself. *)
Context {L : Type}.

(** The console, and the library. *)
Record Page := { console : list event; library : L }.

(** The three methods of [gsap] that [initialize] replaces.  Each takes a
    target and a property map. *)
Record GSAP := {
  to : string → gmap string value → M Page unit;
  from : string → gmap string value → M Page unit;
  set : string → gmap string value → M Page unit
}.

Definition on_console {A} (m : M (list event) A) : M Page A :=
  λ pg, let '(r, c) := m (console pg) in
        (r, {| console := c; library := library pg |}).

(** [function(target, properties) { const safeProperties = ...;
    return original.call(this, target, safeProperties); }] *)
Definition guarded (original : string → gmap string value → M Page unit)
    : string → gmap string value → M Page unit :=
  λ target properties,
    let* safeProperties :=
      on_console (PerformanceConstraints.filterGPUProperties properties) in
    original target safeProperties.

(** [initialize]: the three methods of [gsap] after the assignments. *)
Definition initialize (gsap : GSAP) : GSAP :=
  let originalTo := to gsap in
  let originalFrom := from gsap in
  let originalSet := set gsap in
  {| to := guarded originalTo;
     from := guarded originalFrom;
     set := guarded originalSet |}.

End Override.
Arguments Page : clear implicits.
Arguments GSAP : clear implicits.
End PerformanceGSAPOverride.

(** ** ButteryPerformanceMonitor (the lightweight monitor) *)

Module ButteryPerformanceMonitor.

(** What this monitor prints or shows. *)
Inductive notice :=
  | Changed (previous now : Level) (fps : Z)   (* console.log *)
  | Reducing                                   (* console.log, adaptForPerformance *)
  | Warning (level : Level) (fps : Z).         (* showPerformanceWarning *)

(** [fps], [performanceLevel], [window.animationEngine] (with its
    [animationParams], when it has any) and the trace. *)
Record Page := {
  fps : Z;
  performanceLevel : Level;
  animationEngine : option (option params);
  trace : list notice
}.

Definition emit (n : notice) : M Page unit :=
  modify (λ pg, {| fps := fps pg; performanceLevel := performanceLevel pg;
                   animationEngine := animationEngine pg;
                   trace := trace pg ++ [n] |}).

(** [ToNumber] of [params.key]: [undefined] and an object give [NaN]. *)
Definition entry_number (e : option entry) : number :=
  match e with
  | Some (Leaf f) => to_number f
  | Some (Group _) | None => NaN
  end.

(** [params.key = Math.min(params.key, c)] *)
Definition cap (key : string) (c : number) (p : params) : params :=
  <[key := Leaf (FNum (Math_min (entry_number (p !! key)) c))]> p.

Definition showPerformanceWarning : M Page unit :=
  let* pg := get in
  emit (Warning (performanceLevel pg) (fps pg)).

Definition adaptForPerformance : M Page unit :=
  let* pg := get in
  match performanceLevel pg, animationEngine pg with
  | low, Some engine =>
      emit Reducing ;;
      match engine with
      | Some animationParams =>
          modify (λ pg, {| fps := fps pg; performanceLevel := performanceLevel pg;
                           animationEngine :=
                             Some (Some (cap "leadingEdgeBulge" (Fin (1 # 10))
                                           (cap "drawingDuration" (Fin (15 # 10))
                                              animationParams)));
                           trace := trace pg |})
      | None => ret tt
      end ;;
      showPerformanceWarning
  | _, _ => ret tt
  end.

(** The classifier of [updatePerformanceLevel]. *)
Definition classify (fps : Z) : Level :=
  if fps <? 30 then low
  else if fps <? 50 then medium
  else high.

Definition updatePerformanceLevel : M Page unit :=
  let* pg := get in
  let previousLevel := performanceLevel pg in
  modify (λ pg, {| fps := fps pg; performanceLevel := classify (fps pg);
                   animationEngine := animationEngine pg; trace := trace pg |}) ;;
  let* pg := get in
  if decide (previousLevel ≠ performanceLevel pg) then
    emit (Changed previousLevel (performanceLevel pg) (fps pg)) ;;
    adaptForPerformance
  else ret tt.

End ButteryPerformanceMonitor.

(** * Specifications *)

Import PerformanceConstraints.

(** ** The documented clamping table *)

Inductive bound :=
  | Ceiling (c : number)
  | Floor (c : number).

Record rule := {
  grp : string;
  fld : string;
  dflt : number;
  bnd : bound
}.

(** One line per documented formula. *)
Definition rules : list rule :=
  [ {| grp := "timing"; fld := "maxSegments"; dflt := num 4; bnd := Ceiling (num 4) |};
    {| grp := "timing"; fld := "organicVariation"; dflt := Fin (3 # 10);
       bnd := Ceiling (Fin (5 # 10)) |};
    {| grp := "secondaryAction"; fld := "jiggleIntensity"; dflt := num 2;
       bnd := Ceiling (num 3) |};
    {| grp := "secondaryAction"; fld := "maxJiggles"; dflt := num 3;
       bnd := Ceiling (num 5) |};
    {| grp := "squashAndStretch"; fld := "squashAmount"; dflt := Fin (9 # 10);
       bnd := Floor (Fin (7 # 10)) |};
    {| grp := "squashAndStretch"; fld := "stretchAmount"; dflt := Fin (11 # 10);
       bnd := Ceiling (Fin (13 # 10)) |} ].

Definition apply_bound (b : bound) (n : number) : number :=
  match b with
  | Ceiling c => Math_min n c
  | Floor c => Math_max n c
  end.


(** The documented value, [min(requested ?? default, ceiling)] or
    [max(requested ?? default, floor)]. *)
Definition documented_value (r : rule) (requested : option field) : field :=
  FNum (apply_bound (bnd r) (to_number (nullish_default requested (dflt r)))).

(** The same with the [||] of the source in place of [??]. *)
Definition computed_value (r : rule) (requested : option field) : field :=
  FNum (apply_bound (bnd r) (to_number (or_default requested (dflt r)))).

(** The documented contract of [validateParameters] at an input: it returns,
    and every field of the table holds its documented value. *)
Definition meets_documented_formulas (p : params) : Prop :=
  ∃ p', validateParameters p = (Ok tt, p') ∧
    ∀ r, r ∈ rules →
      read_field (grp r) (fld r) p'
      = Some (documented_value r (read_field (grp r) (fld r) p)).

(** Each of the three parameter groups is an object, or is absent. *)
Definition object_or_absent (p : params) (g : string) : Prop :=
  match p !! g with
  | Some (Leaf _) => False
  | _ => True
  end.

Definition groups_typed (p : params) : Prop :=
  object_or_absent p "timing" ∧ object_or_absent p "secondaryAction" ∧
  object_or_absent p "squashAndStretch".

(** The rules that apply to group [g], one after the other. *)
Definition clamp_rule (o : gmap string field) (r : rule) : gmap string field :=
  <[fld r := computed_value r (o !! fld r)]> o.

Definition rules_of (g : string) : list rule :=
  List.filter (λ r, String.eqb (grp r) g) rules.

Definition clamp_group (g : string) (o : gmap string field) : gmap string field :=
  fold_left clamp_rule (rules_of g) o.

Definition clamp_entry (g : string) (e : entry) : entry :=
  match e with
  | Group o => Group (clamp_group g o)
  | Leaf f => Leaf f
  end.

(** [validateParameters] as a function on the whole object. *)
Definition validated (p : params) : params :=
  map_imap (λ g e, Some (clamp_entry g e)) p.

(** The effect of one [if (params.g) { ... }] block. *)
Definition step_group (g : string) (p : params) : params :=
  match p !! g with
  | Some (Group o) => <[g := Group (clamp_group g o)]> p
  | _ => p
  end.


(** A request for no jiggle at all: the three groups are present and
    [secondaryAction.jiggleIntensity] is [0]. *)
Definition zero_jiggle : params :=
  <["timing" := Group ∅]>
  (<["secondaryAction" := Group (<["jiggleIntensity" := FNum (num 0)]> ∅)]>
  (<["squashAndStretch" := Group ∅]> ∅)).

(** ** The allow-list of the property filter *)

Definition metadata : list string := ["duration"; "ease"; "delay"].

(** [key], carrying [v], is on the allow-list: a GPU-only property, a
    metadata key, or [attr] with every sub-key a safe attribute. *)
Definition allowed (key : string) (v : value) : Prop :=
  key ∈ GPU_ONLY_PROPERTIES ∨ key ∈ metadata ∨
  (key = "attr" ∧ ∃ attrs, Object_keys v = Ok attrs ∧ ∀ a, a ∈ attrs → a ∈ safeAttrs).

(** The value under [attr], when there is one, is not [undefined] or
    [null]. *)
Definition attr_is_bag (properties : gmap string value) : Prop :=
  properties !! "attr" ≠ Some VUndefined ∧ properties !! "attr" ≠ Some VNull.

(** The outcome of the three tests of [filterGPUProperties] on one key:
    kept, blocked, or an exception. *)
Definition verdict (key : string) (v : value) : result bool :=
  if includes GPU_ONLY_PROPERTIES key then Ok true
  else match (if String.eqb key "attr" then isGPUSafeAttribute v else Ok false) with
       | Throw e => Throw e
       | Ok true => Ok true
       | Ok false => Ok (String.eqb key "duration" || String.eqb key "ease"
                         || String.eqb key "delay")
       end.

Definition keeps (properties : gmap string value) (key : string) : bool :=
  match properties !! key with
  | Some v => match verdict key v with Ok true => true | _ => false end
  | None => false
  end.

(** A request that moves and fades a path, with a blocked [width]. *)
Definition sample_request : gmap string value :=
  <["x" := VNum (num 100)]>
  (<["opacity" := VNum (num 1)]>
  (<["width" := VNum (num 300)]>
  (<["ease" := VStr "power2.out"]>
  (<["attr" := VObj (<["d" := VStr "M0,0L10,10"]> ∅)]> ∅)))).

(** A request whose attribute bag is empty. *)
Definition empty_attr_request : gmap string value :=
  <["attr" := VObj ∅]> (<["left" := VNum (num 10)]> ∅).

Import GPUOnlyAnimationBuilder.


(** The tween after one more call of its [onComplete]. *)
Definition called (tw : Tween) : Tween :=
  {| target := target tw; vars := vars tw; position := position tw;
     completions := S (completions tw) |}.


(** The variables of the tween that [safeAnimate] schedules. *)
Definition scheduled_vars (gpuProperties : gmap string value) (safeDuration : number)
    (ease : value) : gmap string tween_var :=
  <["onComplete" := OnComplete]>
    (<["ease" := Value ease]>
    (<["duration" := Value (VNum safeDuration)]>
    (Value <$> gpuProperties))).




Import PerformanceMonitor.

(** ** The strict performance mode *)

(** [p.g.f = v] on an object [p] whose [g] is an object. *)
Definition set_in (g f : string) (v : field) (p : params) : params :=
  match p !! g with
  | Some (Group o) => <[g := Group (<[f := v]> o)]> p
  | _ => p
  end.

(** The four writes of [enforceConstraints], in the order of the source. *)
Definition strict_mode (p : params) : params :=
  set_in "squashAndStretch" "enabled" (FBool false)
    (set_in "timing" "organicVariation" (FNum (Fin (1 # 10)))
       (set_in "secondaryAction" "jiggleIntensity" (FNum (num 0))
          (set_in "timing" "maxSegments" (FNum (num 2)) p))).

(** The fields the strict mode writes. *)
Definition strict_fields : list (string * string) :=
  [("timing", "maxSegments"); ("secondaryAction", "jiggleIntensity");
   ("timing", "organicVariation"); ("squashAndStretch", "enabled")].

(** The four fields hold their strict values. *)
Definition clamped (p : params) : Prop :=
  read_field "timing" "maxSegments" p = Some (FNum (num 2)) ∧
  read_field "secondaryAction" "jiggleIntensity" p = Some (FNum (num 0)) ∧
  read_field "timing" "organicVariation" p = Some (FNum (Fin (1 # 10))) ∧
  read_field "squashAndStretch" "enabled" p = Some (FBool false).

(** The parameter state has the three groups the monitor writes into, as
    the one of [ButteryAnimationEngine] has. *)
Definition engine_groups (p : params) : Prop :=
  ∃ t s q, p !! "timing" = Some (Group t) ∧
           p !! "secondaryAction" = Some (Group s) ∧
           p !! "squashAndStretch" = Some (Group q).

(** No engine is registered, or the registered one has the three groups. *)
Definition engine_ready {W} (w : World W) : Prop :=
  match animationEngine w with
  | Some p => engine_groups p
  | None => True
  end.

(** ** Reading the trace *)

Definition is_Enforce (e : event) : bool :=
  match e with Enforce _ => true | _ => false end.

Definition is_StrictMode (e : event) : bool :=
  match e with StrictMode _ => true | _ => false end.

(** How many times [enforceConstraints] was entered. *)
Definition enforcements (evs : list event) : nat :=
  length (List.filter is_Enforce evs).

(** How many times its low branch ran. *)
Definition strict_modes (evs : list event) : nat :=
  length (List.filter is_StrictMode evs).

(** The subscriber calls, in the order they were made. *)
Definition calls (evs : list event) : list (nat * Z * Level * Bundle) :=
  omap (λ e, match e with
             | Notify i fps level bundle => Some (i, fps, level, bundle)
             | _ => None
             end) evs.

(** The errors printed by [notifyCallbacks]. *)
Definition callback_errors (evs : list event) : list error :=
  omap (λ e, match e with CallbackError err => Some err | _ => None end) evs.

(** The events of one round of notifications and the subscribers' state
    after it. *)
Fixpoint notifications {W} (ics : list (nat * Callback W)) (fps : Z)
    (level : Level) (bundle : Bundle) (o : W) : list event * W :=
  match ics with
  | [] => ([], o)
  | ic :: rest =>
      let '(r, o') := ic.2 fps level bundle o in
      let '(evs, o'') := notifications rest fps level bundle o' in
      (Notify ic.1 fps level bundle ::
         match r with Throw e => [CallbackError e] | Ok _ => [] end ++ evs, o'')
  end.

(** The events of [adjustPerformanceLevel] when the level goes from
    [previous] to [level]. *)
Definition transition_events (previous level : Level) (fps : Z)
    (engine : option params) : list event :=
  if decide (previous ≠ level) then
    [LevelChanged previous level fps; Enforce level] ++
    (if decide (level = low) then
       StrictMode fps :: match engine with
                         | Some _ => [PerformanceWarning fps]
                         | None => []
                         end
     else [])
  else [].

Definition transition_engine (previous level : Level) (engine : option params)
    : option params :=
  if decide (previous ≠ level) then
    if decide (level = low) then strict_mode <$> engine else engine
  else engine.

(** ** One window, as a function *)

Definition with_monitor {W} (f : Monitor W → Monitor W) (w : World W) : World W :=
  {| monitor := f (monitor w); animationEngine := animationEngine w;
     outside := outside w; trace := trace w;
     frameRequests := frameRequests w |}.

(** The world with [tick] queued once more. *)
Definition requested {W} (w : World W) : World W :=
  {| monitor := monitor w; animationEngine := animationEngine w;
     outside := outside w; trace := trace w;
     frameRequests := S (frameRequests w) |}.

(** The world with one callback taken off the queue. *)
Definition dequeued {W} (w : World W) : World W :=
  {| monitor := monitor w; animationEngine := animationEngine w;
     outside := outside w; trace := trace w;
     frameRequests := pred (frameRequests w) |}.

(** The events of the window that closes on [w] (whose [fps] is already
    the measured one). *)
Definition window_events {W} (w : World W) : list event :=
  let m := monitor w in
  let level := classify (fps m) in
  transition_events (performanceLevel m) level (fps m) (animationEngine w) ++
  (notifications (imap pair (callbacks m)) (fps m) level
     (getConstraints (set_performanceLevel level m)) (outside w)).1 ++
  [UpdateUI (fps m) level].

(** The world after that window. *)
Definition window_effect {W} (now : Z) (w : World W) : World W :=
  let m := monitor w in
  let level := classify (fps m) in
  {| monitor :=
       set_performanceLevel level
         (set_history
            (List.filter (λ entry, now - 60000 <? timestamp entry)
               (history m ++ [{| sample_fps := fps m; timestamp := now;
                                 sample_level := performanceLevel m |}])) m);
     animationEngine := transition_engine (performanceLevel m) level (animationEngine w);
     outside :=
       (notifications (imap pair (callbacks m)) (fps m) level
          (getConstraints (set_performanceLevel level m)) (outside w)).2;
     trace := trace w ++ window_events w;
     frameRequests := frameRequests w |}.

(** The frame that closes a window: the count, the measurement, the reset. *)
Definition measure {W} (currentTime : Q) (w : World W) : World W :=
  with_monitor
    (λ m, set_lastTime currentTime
            (set_frameCount 0
               (set_fps (measured_fps (frameCount m + 1) (currentTime - lastTime m))
                  (set_frameCount (frameCount m + 1) m)))) w.

(** The events a computation added to the trace. *)
Definition new_events {W} (w w' : World W) : list event :=
  drop (length (trace w)) (trace w').

(** ** Scenarios: one sample per window *)

Record observation := {
  obs_level : Level;
  obs_events : list event;
  obs_engine : option params
}.

(** Feed the samples one window after the other, a second apart, and note
    after each window the level, the events of the window and the engine's
    parameters.  The scenario ends if a window throws. *)
Fixpoint scenario {W} (samples : list Z) (now : Z) (w : World W)
    : list observation :=
  match samples with
  | [] => []
  | sample :: rest =>
      let '(r, w') := feed sample now w in
      {| obs_level := performanceLevel (monitor w');
         obs_events := new_events w w';
         obs_engine := animationEngine w' |} ::
      match r with
      | Ok _ => scenario rest (now + 1000) w'
      | Throw _ => []
      end
  end.

(** ** The steps of the monitor *)

(** What the monitor does on its own: a callback of a frame, which the
    host takes off its queue and calls, a subscription, a stop, a start.
    Nothing else writes to the world. *)
Inductive step {W} : World W → World W → Prop :=
  | step_tick currentTime now w :
      step w (frame_callback currentTime now w).2
  | step_onPerformanceChange callback w :
      step w (onPerformanceChange callback w).2
  | step_stop w :
      step w (stop w).2
  | step_start w :
      step w (start w).2.

(** ** A world to run things in *)

(** Two subscribers: the first always throws, the second appends the rate
    it is given to a list. *)
Definition demo_callbacks : list (Callback (list Z)) :=
  [ (λ _ _ _, throw (Thrown "subscriber failed"));
    (λ fps _ _, modify (λ seen, seen ++ [fps])) ].

(** A fresh monitor with the two subscribers, and the engine of
    animation-engine.js registered.  The callback that the constructor has
    queued is the one being called. *)
Definition demo_world : World (list Z) :=
  {| monitor := set_callbacks demo_callbacks (PerformanceMonitor.new 0);
     animationEngine := Some ButteryAnimationEngine.animationParams;
     outside := [];
     trace := [];
     frameRequests := 0 |}.

(** ** Further specifications *)

(** The order of the levels: low under medium under high. *)
Definition rank (l : Level) : Z :=
  match l with
  | low => 0
  | medium => 1
  | high => 2
  end.

(** A tween as [safeAnimate] schedules them: under [onComplete] it has
    the arrow function, every other variable is a value under a key on the
    allow-list of the filter, and it has an ease and a duration, which is at
    least the minimum unless the requested one was [NaN]. *)
Definition well_scheduled (tw : Tween) : Prop :=
  vars tw !! "onComplete" = Some OnComplete ∧
  (∀ key x, vars tw !! key = Some x →
     key = "onComplete" ∨ ∃ v, x = Value v ∧ allowed key v) ∧
  is_Some (vars tw !! "ease") ∧
  ∃ d, vars tw !! "duration" = Some (Value (VNum d)) ∧
       (d = NaN ∨ num_leb MIN_ANIMATION_DURATION d = true).

(** A computation that leaves the monitor's fields as they are, also when
    it throws. *)
Definition keeps_monitor {W A} (m : M (World W) A) : Prop :=
  ∀ w, monitor (m w).2 = monitor w.

(** What a frame does to the fields of the monitor. *)
Definition frame_effect {W} (currentTime : Q) (now : Z) (m : Monitor W) : Monitor W :=
  if negb (monitoring m) then m
  else if Qle_bool 1000 (currentTime - lastTime m) then
    let rate := measured_fps (frameCount m + 1) (currentTime - lastTime m) in
    set_performanceLevel (classify rate)
      (set_history
         (List.filter (λ entry, now - 60000 <? timestamp entry)
            (history m ++ [{| sample_fps := rate; timestamp := now;
                              sample_level := performanceLevel m |}]))
         (set_lastTime currentTime
            (set_frameCount 0
               (set_fps rate (set_frameCount (frameCount m + 1) m)))))
  else set_frameCount (frameCount m + 1) m.

(** The world with [n] callbacks in the queue. *)
Definition with_frameRequests {W} (n : nat) (w : World W) : World W :=
  {| monitor := monitor w; animationEngine := animationEngine w;
     outside := outside w; trace := trace w; frameRequests := n |}.

(** Frames one after the other; in each frame every callback reads the
    same clocks. *)
Definition run_frames {W} (times : list (Q * Z)) (w : World W) : World W :=
  fold_left (λ w t, animation_frame (λ _, t) w) times w.

(** Sixty frames, evenly spread over the second that follows time 0. *)
Definition second_of_frames : list (Q * Z) :=
  (λ k, ((inject_Z (Z.of_nat k) * (1000 # 60))%Q, 0)) <$> seq 1 60.

(** Twelve requests for [batchAnimate], with nothing but a target and a
    property map. *)
Definition sample_batch : list Animation :=
  replicate 12 {| anim_target := "path"; anim_properties := sample_request;
                  anim_duration := None; anim_ease := None; anim_delay := None |}.

(** ** The override and the lightweight monitor *)

(** A stand-in for the animation library in examples: each method records
    its name, its target and the properties it is given. *)
Definition record_call (method : string)
    : string → gmap string value
      → M (PerformanceGSAPOverride.Page (list (string * string * gmap string value))) unit :=
  λ target properties,
    modify (λ pg, PerformanceGSAPOverride.Build_Page
                    (PerformanceGSAPOverride.console pg)
                    (PerformanceGSAPOverride.library pg ++ [(method, target, properties)])).

Definition recording_gsap
    : PerformanceGSAPOverride.GSAP (list (string * string * gmap string value)) :=
  PerformanceGSAPOverride.Build_GSAP
    (record_call "to") (record_call "from") (record_call "set").

(** A page with a silent console, the library not called yet. *)
Definition fresh_page
    : PerformanceGSAPOverride.Page (list (string * string * gmap string value)) :=
  PerformanceGSAPOverride.Build_Page [] [].

(** A request whose [attr] is [null]. *)
Definition null_attr_request : gmap string value :=
  <["attr" := VNull]> sample_request.

(** The two ceilings of [adaptForPerformance]. *)
Definition caps : list (string * number) :=
  [("drawingDuration", Fin (15 # 10)); ("leadingEdgeBulge", Fin (1 # 10))].

(** The parameters after the two assignments of [adaptForPerformance]. *)
Definition adapted (p : params) : params :=
  ButteryPerformanceMonitor.cap "leadingEdgeBulge" (Fin (1 # 10))
    (ButteryPerformanceMonitor.cap "drawingDuration" (Fin (15 # 10)) p).

(** A page of the lightweight monitor: the progressive engine at full
    rate. *)
Definition progressive_page (fps : Z) (level : Level) : ButteryPerformanceMonitor.Page :=
  ButteryPerformanceMonitor.Build_Page fps level
    (Some (Some ButteryAnimationEngine.progressive_animationParams)) [].

(** ** The year animation *)

(** [p.g] is an object. *)
Definition is_group (g : string) (p : params) : Prop :=
  ∃ o, p !! g = Some (Group o).

(** The five groups [animateYearButtery] reads from. *)
Definition animation_groups (p : params) : Prop :=
  Forall (λ g, is_group g p)
    ["timing"; "anticipation"; "squashAndStretch"; "secondaryAction"; "followThrough"].

(** [this.animationParams.g.enabled] is truthy. *)
Definition enabled (g : string) (p : params) : bool :=
  truthy_field (read_field g "enabled" p).

(** The test of line 286. *)
Definition jiggling (p : params) : bool :=
  enabled "secondaryAction" p &&
  num_ltb (num 0)
    (ButteryAnimationEngine.field_number (read_field "secondaryAction" "jiggleIntensity" p)).

(** The turns the loop of line 287 takes: none for a [maxJiggles] that is
    not a number above 0, and no number at all for plus infinity. *)
Definition turns (p : params) : option nat :=
  match ButteryAnimationEngine.field_number (read_field "secondaryAction" "maxJiggles" p) with
  | Fin q => Some (Z.to_nat (Qceiling q))
  | Inf false => None
  | _ => Some 0%nat
  end.

(** The engine with one more tween on its timeline. *)
Definition push (tween : ButteryAnimationEngine.Tween) (this : ButteryAnimationEngine.Engine)
    : ButteryAnimationEngine.Engine :=
  ButteryAnimationEngine.Build_Engine
    (ButteryAnimationEngine.this_animationParams this)
    (ButteryAnimationEngine.paths this)
    ((λ tweens, tweens ++ [tween]) <$> ButteryAnimationEngine.timeline this)
    (ButteryAnimationEngine.random this)
    (ButteryAnimationEngine.drawn this).

Definition with_params (p : params) (this : ButteryAnimationEngine.Engine)
    : ButteryAnimationEngine.Engine :=
  ButteryAnimationEngine.Build_Engine p
    (ButteryAnimationEngine.paths this)
    (ButteryAnimationEngine.timeline this)
    (ButteryAnimationEngine.random this)
    (ButteryAnimationEngine.drawn this).

(** The tween moves the path sideways or up and down. *)
Definition shakes (tween : ButteryAnimationEngine.Tween) : Prop :=
  is_Some (ButteryAnimationEngine.vars tween !! "x") ∨
  is_Some (ButteryAnimationEngine.vars tween !! "y").

(** The tween scales from the bottom, as the squash does. *)
Definition squashes (tween : ButteryAnimationEngine.Tween) : Prop :=
  ButteryAnimationEngine.vars tween !! "transformOrigin" = Some (VStr "bottom center").

(** An engine about to play: the engine of animation-engine.js with an
    empty timeline, a path for each year and a constant [Math.random]. *)
Definition demo_engine : ButteryAnimationEngine.Engine :=
  ButteryAnimationEngine.Build_Engine ButteryAnimationEngine.animationParams
    ["year1"; "year2"; "year3"] (Some []) (λ _, 1 # 4) 0.

Definition pushes (tweens : list ButteryAnimationEngine.Tween)
    (this : ButteryAnimationEngine.Engine) : ButteryAnimationEngine.Engine :=
  foldl (λ this tween, push tween this) this tweens.

(** [baseDuration], line 236. *)
Definition base_duration (p : params) : number :=
  js_div (ButteryAnimationEngine.field_number (read_field "timing" "baseDuration" p)) (num 1000).

(** The tweens of each part of [animateYearButtery], as a function of the
    parameters. *)
Definition anticipation_tweens (element : ButteryAnimationEngine.Target) (delay : number)
    (p : params) : list ButteryAnimationEngine.Tween :=
  if enabled "anticipation" p then
    [ ButteryAnimationEngine.Build_Tween element
        (<["scaleX" := ButteryAnimationEngine.field_value
                         (read_field "anticipation" "pullbackAmount" p)]>
         (<["transformOrigin" := VStr "center center"]>
         (<["duration" := VNum (Fin (1 # 10))]>
         (<["ease" := VStr "power2.in"]> ∅))))
        (Some (js_div delay (num 1000)));
      ButteryAnimationEngine.Build_Tween ButteryAnimationEngine.EmptyObject
        (<["duration" := ButteryAnimationEngine.field_value
                           (read_field "anticipation" "pauseDuration" p)]> ∅)
        None ]
  else [].

Definition squash_tweens (element : ButteryAnimationEngine.Target) (delay : number)
    (p : params) : list ButteryAnimationEngine.Tween :=
  if enabled "squashAndStretch" p then
    [ ButteryAnimationEngine.Build_Tween element
        (<["scaleY" := ButteryAnimationEngine.field_value
                         (read_field "squashAndStretch" "squashAmount" p)]>
         (<["scaleX" := VNum (num 1)]>
         (<["transformOrigin" := VStr "bottom center"]>
         (<["duration" := ButteryAnimationEngine.field_value
                            (read_field "squashAndStretch" "squashDuration" p)]>
         (<["ease" := VStr "power2.in"]> ∅)))))
        (Some (js_add (js_div delay (num 1000)) (Fin (15 # 100)))) ]
  else [].

Definition reveal_tweens (year : string) (element : ButteryAnimationEngine.Target)
    (delay : number) (p : params) : list ButteryAnimationEngine.Tween :=
  [ ButteryAnimationEngine.Build_Tween element
      (<["opacity" := VNum (num 1)]>
       (<["scaleY" := if enabled "squashAndStretch" p
                      then ButteryAnimationEngine.field_value
                             (read_field "squashAndStretch" "stretchAmount" p)
                      else VNum (num 1)]>
       (<["duration" := VNum (js_mul (base_duration p) (Fin (3 # 10)))]>
       (<["ease" := VStr "power2.out"]> ∅))))
      (Some (js_add (js_div delay (num 1000)) (Fin (25 # 100))));
    ButteryAnimationEngine.Build_Tween (ButteryAnimationEngine.Selector (".reveal-" +:+ year))
      (<["attr" := VObj (<["width" := VNum ButteryAnimationEngine.width]> ∅)]>
       (<["duration" := VNum (js_mul (base_duration p) (Fin (6 # 10)))]>
       (<["ease" := VStr "power2.out"]> ∅)))
      (Some (js_add (js_div delay (num 1000)) (Fin (3 # 10)))) ].

Definition followThrough_tweens (element : ButteryAnimationEngine.Target) (delay : number)
    (p : params) : list ButteryAnimationEngine.Tween :=
  if enabled "followThrough" p then
    [ ButteryAnimationEngine.Build_Tween element
        (<["scaleY" := ButteryAnimationEngine.field_value
                         (read_field "followThrough" "overshootAmount" p)]>
         (<["duration" := VNum (Fin (1 # 10))]>
         (<["ease" := VStr "power2.out"]> ∅)))
        (Some (js_sub (js_add (js_div delay (num 1000)) (base_duration p)) (Fin (3 # 10))));
      ButteryAnimationEngine.Build_Tween element
        (<["scaleY" := VNum (num 1)]>
         (<["duration" := ButteryAnimationEngine.field_value
                            (read_field "followThrough" "settleDuration" p)]>
         (<["ease" := VStr "back.out(1.5)"]> ∅)))
        None ]
  else [].

(** The two tweens of turn [i] of the loop, for the two random numbers
    [r1] and [r2]. *)
Definition jiggle_tweens (i : Z) (element : ButteryAnimationEngine.Target) (delay : number)
    (p : params) (r1 r2 : Q) : list ButteryAnimationEngine.Tween :=
  let jiggleTime :=
    js_add (js_add (js_div delay (num 1000)) (Fin (5 # 10)))
           (js_mul (num i) (Fin (2 # 10))) in
  let intensity :=
    ButteryAnimationEngine.field_number (read_field "secondaryAction" "jiggleIntensity" p) in
  [ ButteryAnimationEngine.Build_Tween element
      (<["x" := VNum (js_mul (js_sub (Fin r1) (Fin (5 # 10))) intensity)]>
       (<["y" := VNum (js_mul (js_sub (Fin r2) (Fin (5 # 10))) intensity)]>
       (<["duration" := VNum (Fin (8 # 100))]>
       (<["ease" := VStr "none"]> ∅))))
      (Some jiggleTime);
    ButteryAnimationEngine.Build_Tween element
      (<["x" := VNum (num 0)]>
       (<["y" := VNum (num 0)]>
       (<["duration" := VNum (Fin (12 # 100))]>
       (<["ease" := VStr "power2.out"]> ∅))))
      (Some (js_add jiggleTime (Fin (8 # 100)))) ].

(** The tweens of [n] turns of the loop from turn [i] on, the random
    numbers taken from position [d] on. *)
Fixpoint loop_tweens (n : nat) (i : Z) (element : ButteryAnimationEngine.Target)
    (delay : number) (p : params) (random : nat → Q) (d : nat)
    : list ButteryAnimationEngine.Tween :=
  match n with
  | O => []
  | S n => jiggle_tweens i element delay p (random d) (random (S d))
           ++ loop_tweens n (i + 1) element delay p random (S (S d))
  end.

Definition with_drawn (d : nat) (this : ButteryAnimationEngine.Engine)
    : ButteryAnimationEngine.Engine :=
  ButteryAnimationEngine.Build_Engine
    (ButteryAnimationEngine.this_animationParams this)
    (ButteryAnimationEngine.paths this)
    (ButteryAnimationEngine.timeline this)
    (ButteryAnimationEngine.random this)
    d.

(** The turns of the loop in a call of [animateYearButtery]: those of
    [turns] when line 286 lets the loop run, none otherwise. *)
Definition jiggle_turns (p : params) : option nat :=
  if jiggling p then turns p else Some 0%nat.

(** All tweens of one call that takes [k] turns of the loop. *)
Definition scheduled (year : string) (delay : number) (p : params)
    (random : nat → Q) (d k : nat) : list ButteryAnimationEngine.Tween :=
  anticipation_tweens (ButteryAnimationEngine.Path year) delay p
  ++ squash_tweens (ButteryAnimationEngine.Path year) delay p
  ++ reveal_tweens year (ButteryAnimationEngine.Path year) delay p
  ++ loop_tweens k 0 (ButteryAnimationEngine.Path year) delay p random d
  ++ followThrough_tweens (ButteryAnimationEngine.Path year) delay p.

(** The engine of animation-engine.js with a [maxJiggles] of plus
    infinity. *)
Definition endless_engine : ButteryAnimationEngine.Engine :=
  with_params (set_in "secondaryAction" "maxJiggles" (FNum (Inf false))
                 ButteryAnimationEngine.animationParams) demo_engine.

(** ** The claims as they are stated *)

(** The frame at [currentTime] does not take the level to low on an engine
    that lacks a group the strict mode writes into: it leaves the window
    open, or the level is low already, or the rate it measures is not
    classified low, or the engine is ready. *)
Definition frame_enforceable {W} (currentTime : Q) (w : World W) : Prop :=
  monitoring (monitor w) = true →
  Qle_bool 1000 (currentTime - lastTime (monitor w)) = true →
  performanceLevel (monitor w) ≠ low →
  classify (measured_fps (frameCount (monitor w) + 1)
              (currentTime - lastTime (monitor w))) = low →
  engine_ready w.

(** The window that closes on [w] does the same. *)
Definition enforceable {W} (w : World W) : Prop :=
  performanceLevel (monitor w) ≠ low → classify (fps (monitor w)) = low →
  engine_ready w.

(** The monitor of [demo_world], with the parameters of the
    progressive-drawing engine registered. *)
Definition progressive_world : World (list Z) :=
  {| monitor := monitor demo_world;
     animationEngine := Some ButteryAnimationEngine.progressive_animationParams;
     outside := []; trace := []; frameRequests := 0 |}.

(** C4 as it is stated, at one world: at the low level
    [enforceConstraints] writes the four fields of the registered engine. *)
Definition enforces_as_stated {W} (w : World W) : Prop :=
  performanceLevel (monitor w) = low → is_Some (animationEngine w) →
  ∃ w' p', enforceConstraints w = (Ok tt, w') ∧
           animationEngine w' = Some p' ∧ clamped p'.

(** C6 as it is stated, at one frame that closes a window: every
    registered subscriber is called, in the order of registration, with the
    rate, the level and the bundle of the window. *)
Definition notifies_as_stated {W} (currentTime : Q) (now : Z) (w : World W) : Prop :=
  let w' := (tick currentTime now w).2 in
  calls (new_events w w')
  = imap (λ i _, (i, fps (monitor w'), performanceLevel (monitor w'),
                  getConstraints (monitor w')))
         (callbacks (monitor w)).

(** C7 as it is stated, at one property map: the filter returns, its
    output is a sub-map of the input, and every key of the output is on the
    allow-list. *)
Definition filters_as_stated (properties : gmap string value) : Prop :=
  ∃ out c', filterGPUProperties properties [] = (Ok out, c') ∧
            out ⊆ properties ∧
            ∀ key v, out !! key = Some v → allowed key v.

(** * Properties *)

(** ** Numbers *)

Lemma num_leb_refl n : n ≠ NaN → num_leb n n = true.
Proof.
  destruct n as [|[]|q]; try done.
  intros _. simpl. apply Qle_bool_iff, Qle_refl.
Qed.



Lemma Math_min_le a c : a ≠ NaN → c ≠ NaN → num_leb (Math_min a c) c = true.
Proof.
  intros Ha Hc.
  assert (Math_min a c = if num_leb a c then a else c) as -> by (by destruct a, c).
  destruct (num_leb a c) eqn:E; [done | by apply num_leb_refl].
Qed.

Lemma num_leb_total a b : a ≠ NaN → b ≠ NaN → num_leb a b = false → num_leb b a = true.
Proof.
  intros Ha Hb. destruct a as [|[]|x], b as [|[]|y]; try done. simpl.
  intros H. apply Qle_bool_iff.
  destruct (Qlt_le_dec y x) as [Hlt|Hle].
  - by apply Qlt_le_weak.
  - apply Qle_bool_iff in Hle. congruence.
Qed.

Lemma Math_max_ge a c : a ≠ NaN → c ≠ NaN → num_leb c (Math_max a c) = true.
Proof.
  intros Ha Hc.
  assert (Math_max a c = if num_leb a c then c else a) as -> by (by destruct a, c).
  destruct (num_leb a c) eqn:E; [by apply num_leb_refl | by apply num_leb_total].
Qed.

Lemma Math_min_idem a c : a ≠ NaN → c ≠ NaN → Math_min (Math_min a c) c = Math_min a c.
Proof.
  intros Ha Hc.
  assert (∀ x, x ≠ NaN → Math_min x c = if num_leb x c then x else c) as E
    by (intros x Hx; by destruct x, c).
  rewrite (E a Ha). destruct (num_leb a c) eqn:E1.
  - by rewrite (E a Ha), E1.
  - by rewrite (E c Hc), num_leb_refl.
Qed.


(** ** validateParameters *)








Lemma clamp_min_run g f d c p o :
  p !! g = Some (Group o) →
  clamp_min g f d c p
  = (Ok tt, <[g := Group (<[f := FNum (Math_min (to_number (or_default (o !! f) d)) c)]> o)]> p).
Proof.
  intros Hg. unfold clamp_min, bind, get, write_field, read_field. by rewrite Hg.
Qed.

Lemma clamp_max_run g f d c p o :
  p !! g = Some (Group o) →
  clamp_max g f d c p
  = (Ok tt, <[g := Group (<[f := FNum (Math_max (to_number (or_default (o !! f) d)) c)]> o)]> p).
Proof.
  intros Hg. unfold clamp_max, bind, get, write_field, read_field. by rewrite Hg.
Qed.

Lemma when_group_skip g body p :
  truthy_entry (p !! g) = false → when_group g body p = (Ok tt, p).
Proof. intros H. unfold when_group, bind, get. by rewrite H. Qed.

Lemma when_group_enter g body p o :
  p !! g = Some (Group o) → when_group g body p = body p.
Proof. intros H. unfold when_group, bind, get. by rewrite H. Qed.

Lemma bind_ok {S A B} (m : M S A) (k : A → M S B) s a s' :
  m s = (Ok a, s') → bind m k s = k a s'.
Proof. intros H. unfold bind. by rewrite H. Qed.

Lemma block_timing p :
  object_or_absent p "timing" →
  when_group "timing"
    (clamp_min "timing" "maxSegments" (num 4) MAX_SEGMENTS_PER_YEAR ;;
     clamp_min "timing" "organicVariation" (Fin (3 # 10)) MAX_TIMING_VARIATION) p
  = (Ok tt, step_group "timing" p).
Proof.
  unfold object_or_absent, step_group. destruct (p !! "timing") as [[o|f]|] eqn:E; [|done|].
  - intros _. rewrite (when_group_enter _ _ _ o E).
    erewrite bind_ok by (by apply clamp_min_run).
    erewrite clamp_min_run by apply lookup_insert_eq.
    by rewrite insert_insert_eq.
  - intros _. apply when_group_skip. by rewrite E.
Qed.

Lemma block_secondaryAction p :
  object_or_absent p "secondaryAction" →
  when_group "secondaryAction"
    (clamp_min "secondaryAction" "jiggleIntensity" (num 2) (num 3) ;;
     clamp_min "secondaryAction" "maxJiggles" (num 3) (num 5)) p
  = (Ok tt, step_group "secondaryAction" p).
Proof.
  unfold object_or_absent, step_group.
  destruct (p !! "secondaryAction") as [[o|f]|] eqn:E; [|done|].
  - intros _. rewrite (when_group_enter _ _ _ o E).
    erewrite bind_ok by (by apply clamp_min_run).
    erewrite clamp_min_run by apply lookup_insert_eq.
    by rewrite insert_insert_eq.
  - intros _. apply when_group_skip. by rewrite E.
Qed.

Lemma block_squashAndStretch p :
  object_or_absent p "squashAndStretch" →
  when_group "squashAndStretch"
    (clamp_max "squashAndStretch" "squashAmount" (Fin (9 # 10)) (Fin (7 # 10)) ;;
     clamp_min "squashAndStretch" "stretchAmount" (Fin (11 # 10)) (Fin (13 # 10))) p
  = (Ok tt, step_group "squashAndStretch" p).
Proof.
  unfold object_or_absent, step_group.
  destruct (p !! "squashAndStretch") as [[o|f]|] eqn:E; [|done|].
  - intros _. rewrite (when_group_enter _ _ _ o E).
    erewrite bind_ok by (by apply clamp_max_run).
    erewrite clamp_min_run by apply lookup_insert_eq.
    by rewrite insert_insert_eq.
  - intros _. apply when_group_skip. by rewrite E.
Qed.

Lemma step_group_lookup g p k :
  step_group g p !! k = if decide (k = g) then clamp_entry g <$> p !! k else p !! k.
Proof.
  unfold step_group. destruct (p !! g) as [[o|f]|] eqn:E; case_decide; subst;
    rewrite ?E, ?lookup_insert_eq, ?lookup_insert_ne by done; done.
Qed.

Lemma validated_lookup p k : validated p !! k = clamp_entry k <$> p !! k.
Proof. unfold validated. rewrite map_lookup_imap. by destruct (p !! k). Qed.

Lemma clamp_group_other g o :
  g ≠ "timing" → g ≠ "secondaryAction" → g ≠ "squashAndStretch" →
  clamp_group g o = o.
Proof.
  intros H1 H2 H3. unfold clamp_group, rules_of, rules. cbn [List.filter grp].
  rewrite !(proj2 (String.eqb_neq _ _)) by done. done.
Qed.

Lemma step_group_typed g h p :
  object_or_absent p h → object_or_absent (step_group g p) h.
Proof.
  unfold object_or_absent. rewrite step_group_lookup.
  case_decide; [|done]. by destruct (p !! h) as [[]|].
Qed.

(** On a typed input [validateParameters] returns, and its result is
    [validated]. *)
Lemma validateParameters_run p :
  groups_typed p → validateParameters p = (Ok tt, validated p).
Proof.
  intros (Ht & Hs & Hq). unfold validateParameters.
  erewrite bind_ok by (by apply block_timing).
  erewrite bind_ok by (apply block_secondaryAction; by apply step_group_typed).
  rewrite block_squashAndStretch by (by do 2 apply step_group_typed).
  f_equal. apply map_eq. intros k.
  rewrite !step_group_lookup, validated_lookup.
  repeat case_decide; subst; try done.
  destruct (p !! k) as [[o|f]|]; simpl; [|done..].
  by rewrite clamp_group_other.
Qed.

Lemma clamp_group_lookup r o :
  r ∈ rules → clamp_group (grp r) o !! fld r = Some (computed_value r (o !! fld r)).
Proof.
  unfold rules. rewrite !elem_of_cons, elem_of_nil.
  intros [->|[->|[->|[->|[->|[->|[]]]]]]]; unfold clamp_group, clamp_rule; simpl;
    by rewrite ?lookup_insert_eq, ?lookup_insert_ne, ?lookup_insert_eq by done.
Qed.





Lemma read_field_validated r p o :
  r ∈ rules → p !! grp r = Some (Group o) →
  read_field (grp r) (fld r) (validated p) = Some (computed_value r (o !! fld r)).
Proof.
  intros Hr Hg. unfold read_field. rewrite validated_lookup, Hg. simpl.
  by apply clamp_group_lookup.
Qed.

(** What the code does on [zero_jiggle]: the requested [0] is falsy, the
    default [2] takes its place, and [2] is what is stored. *)
Example validateParameters_zero_jiggle_run :
  ∃ p', validateParameters zero_jiggle = (Ok tt, p') ∧
        read_field "secondaryAction" "jiggleIntensity" p' = Some (FNum (num 2)).
Proof. eexists. split; [by vm_compute | by vm_compute]. Qed.

(** C2, as stated, fails: on [zero_jiggle] the documented formula
    [min(0 ?? 2, 3)] is [0], and [validateParameters] stores [2]. *)
Lemma validateParameters_not_nullish : ¬ meets_documented_formulas zero_jiggle.
Proof.
  intros (p' & Hrun & H).
  specialize (H {| grp := "secondaryAction"; fld := "jiggleIntensity";
                   dflt := num 2; bnd := Ceiling (num 3) |}).
  assert (Ht : groups_typed zero_jiggle) by (vm_compute; tauto).
  rewrite (validateParameters_run zero_jiggle Ht) in Hrun.
  apply (f_equal snd) in Hrun. cbn [snd] in Hrun. subst p'.
  assert (Hin : {| grp := "secondaryAction"; fld := "jiggleIntensity";
                   dflt := num 2; bnd := Ceiling (num 3) |} ∈ rules)
    by (unfold rules; do 2 right; left).
  specialize (H Hin). vm_compute in H. discriminate H.
Qed.

Lemma or_default_nullish r v :
  v = None ∨ truthy_field v = true → computed_value r v = documented_value r v.
Proof.
  unfold computed_value, documented_value.
  intros [-> | H]; [done|]. destruct v as [f|]; [|done].
  unfold or_default, nullish_default. by rewrite H.
Qed.

(** C2, amended: on a parameter object whose three groups are objects or
    absent, [validateParameters] raises no error; in each group that is
    present every field of the table is set to [min(requested || default,
    ceiling)] (to [max(requested || default, floor)] for [squashAmount]),
    which is the documented [??] value whenever the requested field is
    absent or truthy; a group that is absent stays absent. *)
Theorem validateParameters_clamps (p : params) :
  groups_typed p →
  ∃ p', validateParameters p = (Ok tt, p') ∧
    (∀ r o, r ∈ rules → p !! grp r = Some (Group o) →
       read_field (grp r) (fld r) p' = Some (computed_value r (o !! fld r)) ∧
       (o !! fld r = None ∨ truthy_field (o !! fld r) = true →
        read_field (grp r) (fld r) p' = Some (documented_value r (o !! fld r)))) ∧
    (∀ g, p !! g = None → p' !! g = None).
Proof.
  intros Hp. exists (validated p). split; [by apply validateParameters_run|].
  split.
  - intros r o Hr Hg. pose proof (read_field_validated r p o Hr Hg) as E.
    split; [done|]. intros Hv. by rewrite E, or_default_nullish.
  - intros g Hg. by rewrite validated_lookup, Hg.
Qed.

Lemma validateParameters_clamps_witness :
  groups_typed zero_jiggle ∧
  ∃ p', validateParameters zero_jiggle = (Ok tt, p') ∧
    (∀ r o, r ∈ rules → zero_jiggle !! grp r = Some (Group o) →
       read_field (grp r) (fld r) p' = Some (computed_value r (o !! fld r)) ∧
       (o !! fld r = None ∨ truthy_field (o !! fld r) = true →
        read_field (grp r) (fld r) p' = Some (documented_value r (o !! fld r)))) ∧
    (∀ g, zero_jiggle !! g = None → p' !! g = None).
Proof.
  assert (H : groups_typed zero_jiggle) by (vm_compute; tauto).
  split; [exact H | exact (validateParameters_clamps zero_jiggle H)].
Defined.



(** ** filterGPUProperties *)

Lemma filter_key_run properties key v fr :
  properties !! key = Some v →
  filter_key properties key fr =
    match verdict key v with
    | Ok true => (Ok tt, {| safe := <[key := v]> (safe fr); printed := printed fr |})
    | Ok false => (Ok tt, {| safe := safe fr;
                             printed := printed fr ++ [BlockedProperty key] |})
    | Throw e => (Throw e, fr)
    end.
Proof.
  intros Hv. unfold filter_key, verdict. rewrite Hv.
  change (default VUndefined (Some v)) with v.
  destruct (includes GPU_ONLY_PROPERTIES key); [done|].
  unfold bind, lift_result, ret.
  destruct (String.eqb key "attr"); [destruct (isGPUSafeAttribute v) as [[]|]|]; try done.
  all: by destruct (String.eqb key "duration" || String.eqb key "ease"
                   || String.eqb key "delay").
Qed.

Lemma verdict_throw key v e :
  verdict key v = Throw e → key = "attr" ∧ (v = VUndefined ∨ v = VNull).
Proof.
  unfold verdict. destruct (includes GPU_ONLY_PROPERTIES key); [done|].
  destruct (String.eqb key "attr") eqn:E; [|done].
  apply String.eqb_eq in E. intros H. split; [done|].
  unfold isGPUSafeAttribute in H.
  destruct v; try (by left); try (by right); cbn [Object_keys] in H;
    by destruct (forallb _ _).
Qed.

Lemma verdict_allowed key v : verdict key v = Ok true ↔ allowed key v.
Proof.
  unfold verdict, allowed, includes. split.
  - case_bool_decide as Hg; [by left|].
    destruct (String.eqb key "attr") eqn:E.
    + apply String.eqb_eq in E. subst key. unfold isGPUSafeAttribute.
      destruct (Object_keys v) as [attrs|] eqn:Ek; [|done].
      destruct (forallb _ attrs) eqn:Ef; [|done].
      intros _. right; right. split; [done|]. exists attrs. split; [done|].
      intros a Ha. rewrite forallb_forall in Ef.
      specialize (Ef a (proj1 (list_elem_of_In _ _) Ha)).
      by apply bool_decide_eq_true in Ef.
    + intros [= H]. right; left. unfold metadata.
      rewrite !elem_of_cons.
      apply orb_true_iff in H as [H|H]; [apply orb_true_iff in H as [H|H]|];
        apply String.eqb_eq in H; auto.
  - intros [Hg | [Hm | (-> & attrs & Ek & Ha)]].
    + by rewrite bool_decide_eq_true_2.
    + unfold metadata in Hm. rewrite !elem_of_cons, elem_of_nil in Hm.
      destruct Hm as [->|[->|[->|[]]]]; by vm_compute.
    + assert (bool_decide ("attr" ∈ GPU_ONLY_PROPERTIES) = false) as ->
        by (by vm_compute).
      cbn [String.eqb Ascii.eqb Bool.eqb]. unfold isGPUSafeAttribute. rewrite Ek.
      assert (forallb (includes safeAttrs) attrs = true) as ->; [|done].
      apply forallb_forall. intros a Hin%list_elem_of_In.
      by apply bool_decide_eq_true, Ha.
Qed.

Lemma keeps_allowed properties key v :
  properties !! key = Some v → keeps properties key = true ↔ allowed key v.
Proof.
  intros Hv. unfold keeps. rewrite Hv, <- verdict_allowed.
  destruct (verdict key v) as [[]|]; naive_solver.
Qed.

(** The loop of [filterGPUProperties] over keys the object has. *)
Lemma forEach_filter_key properties l : ∀ fr,
  (∀ k, k ∈ l → is_Some (properties !! k)) →
  match forEach (filter_key properties) l fr with
  | (Ok _, fr') =>
      (∀ k, safe fr' !! k =
            if decide (k ∈ l ∧ keeps properties k = true) then properties !! k
            else safe fr !! k) ∧
      (∃ extra, printed fr' = printed fr ++ extra ∧
         ∀ k, k ∈ l → keeps properties k = false → BlockedProperty k ∈ extra)
  | (Throw e, _) =>
      ∃ k v, k ∈ l ∧ properties !! k = Some v ∧ verdict k v = Throw e
  end.
Proof.
  induction l as [|key l IH]; intros fr Hl.
  - cbn [forEach]. unfold ret. split.
    + intros k. case_decide as H; [|done]. by destruct H as [?%elem_of_nil _].
    + exists []. split; [by rewrite app_nil_r|]. by intros k ?%elem_of_nil.
  - cbn [forEach]. unfold bind at 1.
    destruct (Hl key) as [v Hv]; [by left|].
    rewrite (filter_key_run _ _ _ _ Hv).
    assert (Hl' : ∀ k, k ∈ l → is_Some (properties !! k))
      by (intros k Hk; apply Hl; by right).
    destruct (verdict key v) as [[]|e] eqn:Ev.
    + specialize (IH {| safe := <[key := v]> (safe fr); printed := printed fr |} Hl').
      destruct (forEach _ l _) as [[[]|e] fr'].
      * destruct IH as [IH1 (extra & IH2 & IH3)]. split.
        -- intros k. rewrite IH1. cbn [safe].
           assert (Hk : keeps properties key = true) by (unfold keeps; by rewrite Hv, Ev).
           destruct (decide (k = key)) as [->|Hne].
           ++ rewrite lookup_insert_eq, Hv.
              rewrite (decide_True (P := key ∈ key :: l ∧ _)) by (split; [by left|done]).
              by case_decide.
           ++ rewrite lookup_insert_ne by done.
              destruct (decide (k ∈ l ∧ keeps properties k = true)) as [[H1 H2]|H1].
              ** rewrite decide_True; [done | split; [by right|done]].
              ** rewrite decide_False; [done|].
                 intros [[->|H3]%elem_of_cons H4]; [done | by apply H1].
        -- exists extra. split; [done|].
           intros k [->|Hk]%elem_of_cons Hb; [|by apply IH3].
           unfold keeps in Hb. by rewrite Hv, Ev in Hb.
      * destruct IH as (k & v' & ? & ? & ?). exists k, v'. split; [by right|done].
    + specialize (IH {| safe := safe fr;
                        printed := printed fr ++ [BlockedProperty key] |} Hl').
      assert (Hk : keeps properties key = false) by (unfold keeps; by rewrite Hv, Ev).
      destruct (forEach _ l _) as [[[]|e] fr'] eqn:Erun.
      * destruct IH as [IH1 (extra & IH2 & IH3)]. split.
        -- intros k. rewrite IH1. cbn [safe].
           destruct (decide (k ∈ l ∧ keeps properties k = true)) as [[H1 H2]|H1].
           ++ rewrite decide_True; [done | split; [by right|done]].
           ++ rewrite decide_False; [done|].
              intros [[->|H3]%elem_of_cons H4]; [congruence | by apply H1].
        -- exists (BlockedProperty key :: extra). cbn [printed] in IH2.
           split; [by rewrite IH2, <- app_assoc|].
           intros k [->|Hin]%elem_of_cons Hb; [by left|].
           right. by apply IH3.
      * destruct IH as (k & v' & ? & ? & ?). exists k, v'. split; [by right|done].
    + exists key, v. split; [by left|done].
Qed.

Lemma elem_of_keys {A} (m : gmap string A) k :
  k ∈ (map_to_list m).*1 ↔ is_Some (m !! k).
Proof.
  rewrite list_elem_of_fmap. split.
  - intros ([k' x] & -> & Hx%elem_of_map_to_list). by exists x.
  - intros [x Hx]. exists (k, x). split; [done|]. by apply elem_of_map_to_list.
Qed.

(** The filter returns on every map whose [attr], if any, is not
    [undefined] or [null]; the result keeps exactly the allowed entries. *)
Lemma filterGPUProperties_run properties c :
  attr_is_bag properties →
  ∃ out extra, filterGPUProperties properties c = (Ok out, c ++ extra) ∧
    (∀ k, out !! k = if keeps properties k then properties !! k else None) ∧
    (∀ k, is_Some (properties !! k) → keeps properties k = false →
          BlockedProperty k ∈ extra).
Proof.
  intros [Hu Hn]. unfold filterGPUProperties.
  pose proof (forEach_filter_key properties (map_to_list properties).*1
                {| safe := ∅; printed := c |}) as H.
  destruct (forEach _ _ _) as [[[]|e] fr'].
  - destruct H as [H1 (extra & H2 & H3)]; [by intros k ?%elem_of_keys|].
    exists (safe fr'), extra. cbn [printed] in H2. split; [by rewrite H2|]. split.
    + intros k. rewrite H1. cbn [safe]. rewrite lookup_empty.
      destruct (keeps properties k) eqn:Ek.
      * rewrite decide_True; [done|]. split; [|done].
        apply elem_of_keys. unfold keeps in Ek. by destruct (properties !! k).
      * rewrite decide_False; [done|]. by intros [_ ?].
    + intros k Hk Hb. apply H3; [by apply elem_of_keys|done].
  - destruct H as (k & v & _ & Hv & [-> [-> | ->]]%verdict_throw);
      [by intros k ?%elem_of_keys|..]; done.
Qed.

(** C7, as stated, fails: on a request whose [attr] is [null] the filter
    does not return, [Object.keys] throws. *)
Lemma filterGPUProperties_not_total : ¬ filters_as_stated null_attr_request.
Proof.
  intros (out & c' & Hrun & _). apply (f_equal fst) in Hrun. by vm_compute in Hrun.
Qed.

(** C7: on every property map (whose [attr], if present, is a value
    [Object.keys] accepts) [filterGPUProperties] returns; its output is a
    sub-map of the input, with the original values; every key of the output
    is a GPU-only property, a metadata key, or [attr] with all its sub-keys
    safe attributes; and a key that is not on the allow-list raises nothing:
    it is left out of the output and reported by a warning. *)
Theorem filterGPUProperties_allow_list (properties : gmap string value)
    (c : list event) :
  attr_is_bag properties →
  ∃ out c', filterGPUProperties properties c = (Ok out, c') ∧
    out ⊆ properties ∧
    (∀ key v, out !! key = Some v → allowed key v) ∧
    (∀ key v, properties !! key = Some v → ¬ allowed key v →
       out !! key = None ∧ BlockedProperty key ∈ c').
Proof.
  intros Hbag.
  destruct (filterGPUProperties_run properties c Hbag) as (out & extra & Hrun & Hout & Hw).
  exists out, (c ++ extra). split; [done|]. split; [|split].
  - apply map_subseteq_spec. intros k v. rewrite Hout. by destruct (keeps properties k).
  - intros key v. rewrite Hout. destruct (keeps properties key) eqn:Ek; [|done].
    intros Hv. by apply (keeps_allowed properties).
  - intros key v Hv Hna.
    assert (keeps properties key = false) as Ek.
    { destruct (keeps properties key) eqn:Ek; [|done].
      by apply (keeps_allowed properties key v Hv) in Ek. }
    split; [by rewrite Hout, Ek|].
    apply elem_of_app. right. by apply Hw.
Qed.

Lemma filterGPUProperties_allow_list_witness :
  attr_is_bag sample_request ∧
  ∃ out c', filterGPUProperties sample_request [] = (Ok out, c') ∧
    out ⊆ sample_request ∧
    (∀ key v, out !! key = Some v → allowed key v) ∧
    (∀ key v, sample_request !! key = Some v → ¬ allowed key v →
       out !! key = None ∧ BlockedProperty key ∈ c').
Proof.
  assert (H : attr_is_bag sample_request) by (by split; vm_compute).
  split; [exact H | exact (filterGPUProperties_allow_list sample_request [] H)].
Defined.

(** What the filter does with [sample_request]: [width] is blocked, the
    rest goes through. *)
Example filterGPUProperties_sample :
  ∃ out, filterGPUProperties sample_request [] = (Ok out, [BlockedProperty "width"]) ∧
         out = delete "width" sample_request.
Proof. eexists. split; [by vm_compute | by vm_compute]. Qed.

(** The one input on which the filter throws: [Object.keys] rejects an
    [attr] that is [null] (or [undefined]). *)
Example filterGPUProperties_null_attr :
  (filterGPUProperties (<["attr" := VNull]> ∅) []).1
  = Throw (TypeError "Cannot convert undefined or null to object").
Proof. by vm_compute. Qed.

(** C9: an empty attribute bag passes the nested check, no sub-key having
    been looked at, and [attr] is part of the output. *)
Theorem filterGPUProperties_empty_attr (properties : gmap string value)
    (c : list event) :
  properties !! "attr" = Some (VObj ∅) →
  isGPUSafeAttribute (VObj ∅) = Ok true ∧
  Object_keys (VObj ∅) = Ok [] ∧
  ∃ out c', filterGPUProperties properties c = (Ok out, c') ∧
            out !! "attr" = Some (VObj ∅).
Proof.
  intros Hattr. split; [by vm_compute|]. split; [by vm_compute|].
  assert (Hbag : attr_is_bag properties) by (by split; rewrite Hattr).
  destruct (filterGPUProperties_run properties c Hbag) as (out & extra & Hrun & Hout & _).
  exists out, (c ++ extra). split; [done|].
  rewrite Hout. unfold keeps. rewrite Hattr. by vm_compute.
Qed.

Lemma filterGPUProperties_empty_attr_witness :
  empty_attr_request !! "attr" = Some (VObj ∅) ∧
  isGPUSafeAttribute (VObj ∅) = Ok true ∧
  Object_keys (VObj ∅) = Ok [] ∧
  ∃ out c', filterGPUProperties empty_attr_request [] = (Ok out, c') ∧
            out !! "attr" = Some (VObj ∅).
Proof.
  assert (H : empty_attr_request !! "attr" = Some (VObj ∅)) by (by vm_compute).
  split; [exact H | exact (filterGPUProperties_empty_attr empty_attr_request [] H)].
Defined.

(** The filter throws on every other map. *)
Lemma forEach_filter_key_throw properties v e l : ∀ fr,
  properties !! "attr" = Some v → verdict "attr" v = Throw e →
  "attr" ∈ l → (∀ k, k ∈ l → is_Some (properties !! k)) →
  ∃ fr', forEach (filter_key properties) l fr = (Throw e, fr').
Proof.
  intros fr Hv He. revert fr.
  induction l as [|key l IH]; intros fr Hin Hl; [by apply elem_of_nil in Hin|].
  cbn [forEach]. unfold bind at 1.
  destruct (Hl key) as [v' Hv']; [by left|].
  rewrite (filter_key_run _ _ _ _ Hv').
  destruct (verdict key v') as [[]|e'] eqn:Ev.
  - apply IH; [|intros k Hk; apply Hl; by right].
    apply elem_of_cons in Hin as [<-|Hin]; [|done]. congruence.
  - apply IH; [|intros k Hk; apply Hl; by right].
    apply elem_of_cons in Hin as [<-|Hin]; [|done]. congruence.
  - destruct (verdict_throw _ _ _ Ev) as [-> _].
    assert (e' = e) as -> by congruence. by eexists.
Qed.

Lemma filterGPUProperties_throw properties c :
  ¬ attr_is_bag properties →
  ∃ c', filterGPUProperties properties c
        = (Throw (TypeError "Cannot convert undefined or null to object"), c').
Proof.
  intros Hbag.
  assert (∃ v, properties !! "attr" = Some v ∧ (v = VUndefined ∨ v = VNull))
    as (v & Hv & Hnull).
  { unfold attr_is_bag in Hbag.
    destruct (properties !! "attr") as [v|] eqn:Hv; [|by destruct Hbag].
    exists v. split; [done|].
    destruct v; try (by destruct Hbag); auto. }
  assert (He : verdict "attr" v
               = Throw (TypeError "Cannot convert undefined or null to object"))
    by (by destruct Hnull as [-> | ->]).
  unfold filterGPUProperties.
  destruct (forEach_filter_key_throw properties v _ (map_to_list properties).*1
              {| safe := ∅; printed := c |} Hv He) as (fr' & ->).
  - apply elem_of_keys. by exists v.
  - by intros k ?%elem_of_keys.
  - by eexists.
Qed.


(** ** GPUOnlyAnimationBuilder: the concurrency cap *)






(** A call of the [onComplete] of a tween that carries the arrow function
    takes one from the count, whatever the count and whatever came before. *)
Lemma complete_run i b tw :
  timeline b !! i = Some tw → vars tw !! "onComplete" = Some OnComplete →
  complete i b =
    (Ok tt, {| animationCount := animationCount b - 1;
               timeline := <[i := called tw]> (timeline b);
               console := console b |}).
Proof. intros Hi Hv. unfold complete, bind, get. by rewrite Hi, Hv. Qed.

Lemma complete_none i b :
  timeline b !! i = None → complete i b = (Ok tt, b).
Proof. intros Hi. unfold complete, bind, get. by rewrite Hi. Qed.






(** ** The strict mode on a parameter state *)

Lemma write_field_run g f v p o :
  p !! g = Some (Group o) → write_field g f v p = (Ok tt, set_in g f v p).
Proof. intros H. unfold write_field, set_in. by rewrite H. Qed.

Lemma set_in_lookup g f v p k :
  set_in g f v p !! k =
    match p !! g with
    | Some (Group o) => if decide (k = g) then Some (Group (<[f := v]> o)) else p !! k
    | _ => p !! k
    end.
Proof.
  unfold set_in. destruct (p !! g) as [[o|x]|] eqn:E; [|done..].
  case_decide; subst; by rewrite ?lookup_insert_eq, ?lookup_insert_ne.
Qed.

Lemma set_in_groups g f v p : engine_groups p → engine_groups (set_in g f v p).
Proof.
  intros (t & s & q & Ht & Hs & Hq). unfold engine_groups.
  rewrite !set_in_lookup.
  destruct (p !! g) as [[o|x]|] eqn:E; [|by eauto 10..].
  repeat case_decide; subst; eauto 10.
Qed.

Lemma read_field_set_in g f v p g' f' :
  read_field g' f' (set_in g f v p) =
    match p !! g with
    | Some (Group _) =>
        if decide (g' = g ∧ f' = f) then Some v else read_field g' f' p
    | _ => read_field g' f' p
    end.
Proof.
  unfold read_field. rewrite set_in_lookup.
  destruct (p !! g) as [[o|x]|] eqn:E; [|done..].
  destruct (decide (g' = g)) as [->|Hg].
  - rewrite E. destruct (decide (f' = f)) as [->|Hf].
    + by rewrite lookup_insert_eq, decide_True.
    + rewrite lookup_insert_ne by done. rewrite decide_False; [done|]. by intros [_ ?].
  - rewrite decide_False; [done|]. by intros [? _].
Qed.

Lemma strict_mode_groups p : engine_groups p → engine_groups (strict_mode p).
Proof. intros H. unfold strict_mode. by do 4 apply set_in_groups. Qed.

Lemma decide_pair {A} (g f a b : string) (x y : A) :
  (if decide (g = a ∧ f = b) then x else y) = (if decide ((g, f) = (a, b)) then x else y).
Proof.
  destruct (decide (g = a ∧ f = b)) as [[-> ->]|H].
  - by rewrite decide_True.
  - rewrite decide_False; [done|]. intros [= -> ->]. by apply H.
Qed.

(** The strict mode sets its four fields and leaves every other field as
    it was. *)
Lemma read_field_strict_mode p g f :
  engine_groups p →
  read_field g f (strict_mode p) =
    if decide ((g, f) = ("timing", "maxSegments")) then Some (FNum (num 2))
    else if decide ((g, f) = ("secondaryAction", "jiggleIntensity")) then Some (FNum (num 0))
    else if decide ((g, f) = ("timing", "organicVariation")) then Some (FNum (Fin (1 # 10)))
    else if decide ((g, f) = ("squashAndStretch", "enabled")) then Some (FBool false)
    else read_field g f p.
Proof.
  intros Hp. unfold strict_mode.
  pose proof (set_in_groups "timing" "maxSegments" (FNum (num 2)) p Hp) as H1.
  pose proof (set_in_groups "secondaryAction" "jiggleIntensity" (FNum (num 0)) _ H1) as H2.
  pose proof (set_in_groups "timing" "organicVariation" (FNum (Fin (1 # 10))) _ H2) as H3.
  destruct Hp as (t0 & s0 & q0 & Ht0 & Hs0 & Hq0).
  destruct H1 as (t1 & s1 & q1 & Ht1 & Hs1 & Hq1).
  destruct H2 as (t2 & s2 & q2 & Ht2 & Hs2 & Hq2).
  destruct H3 as (t3 & s3 & q3 & Ht3 & Hs3 & Hq3).
  rewrite read_field_set_in, Hq3.
  rewrite read_field_set_in, Ht2.
  rewrite read_field_set_in, Hs1.
  rewrite read_field_set_in, Ht0.
  rewrite !decide_pair.
  repeat (destruct (decide ((g, f) = _)) as [[= -> ->]|?]; [reflexivity|]).
  reflexivity.
Qed.

Lemma strict_mode_clamped p : engine_groups p → clamped (strict_mode p).
Proof.
  intros Hp. unfold clamped. rewrite !read_field_strict_mode by done.
  by repeat split.
Qed.

(** Entries that are not groups, and absent keys, are as they were; a key
    that held a group still holds one. *)
Lemma strict_mode_shape p k :
  match p !! k, strict_mode p !! k with
  | Some (Group _), Some (Group _) => True
  | Some (Leaf a), Some (Leaf b) => a = b
  | None, None => True
  | _, _ => False
  end.
Proof.
  assert (∀ g f v (p p0 : params),
    match p0 !! k, p !! k with
    | Some (Group _), Some (Group _) => True
    | Some (Leaf a), Some (Leaf b) => a = b
    | None, None => True
    | _, _ => False
    end →
    match p0 !! k, set_in g f v p !! k with
    | Some (Group _), Some (Group _) => True
    | Some (Leaf a), Some (Leaf b) => a = b
    | None, None => True
    | _, _ => False
    end) as Hstep.
  { intros g f v p1 p0 H. rewrite set_in_lookup.
    destruct (p1 !! g) as [[o|x]|] eqn:E; [|done..].
    case_decide; [subst; rewrite E in H|done].
    by destruct (p0 !! g) as [[]|]. }
  unfold strict_mode. do 4 apply Hstep. by destruct (p !! k) as [[]|].
Qed.

(** On a clamped state the strict mode changes nothing. *)
Lemma set_in_id g f v p : read_field g f p = Some v → set_in g f v p = p.
Proof.
  unfold read_field, set_in. destruct (p !! g) as [[o|x]|] eqn:E; try done.
  intros Hf. by rewrite (insert_id o), (insert_id p).
Qed.

Lemma strict_mode_id p : clamped p → strict_mode p = p.
Proof.
  intros (H1 & H2 & H3 & H4). unfold strict_mode.
  by rewrite (set_in_id _ _ _ _ H1), (set_in_id _ _ _ _ H2),
    (set_in_id _ _ _ _ H3), (set_in_id _ _ _ _ H4).
Qed.

Lemma clamped_groups p : clamped p → engine_groups p.
Proof.
  intros (H1 & H2 & _ & H4). unfold read_field, engine_groups in *.
  destruct (p !! "timing") as [[t|]|]; try done.
  destruct (p !! "secondaryAction") as [[s|]|]; try done.
  destruct (p !! "squashAndStretch") as [[q|]|]; try done.
  by exists t, s, q.
Qed.

(** ** The monitor, method by method *)

Section MonitorFacts.
Context {W : Type}.
Implicit Types (w : World W) (m : Monitor W).

Lemma updateHistory_run now w :
  updateHistory now w =
    (Ok tt,
     {| monitor :=
          set_history
            (List.filter (λ entry, now - 60000 <? timestamp entry)
               (history (monitor w) ++
                [{| sample_fps := fps (monitor w); timestamp := now;
                    sample_level := performanceLevel (monitor w) |}]))
            (monitor w);
        animationEngine := animationEngine w;
        outside := outside w;
        trace := trace w;
        frameRequests := frameRequests w |}).
Proof. reflexivity. Qed.

Lemma on_engine_write g f v w p o :
  animationEngine w = Some p → p !! g = Some (Group o) →
  on_engine (write_field g f v) w =
    (Ok tt, {| monitor := monitor w; animationEngine := Some (set_in g f v p);
               outside := outside w; trace := trace w;
        frameRequests := frameRequests w |}).
Proof.
  intros Hp Hg. unfold on_engine. by rewrite Hp, (write_field_run _ _ _ _ o Hg).
Qed.

(** [enforceConstraints] outside the low level: a marker in the trace,
    nothing else. *)
Lemma enforceConstraints_not_low w :
  performanceLevel (monitor w) ≠ low →
  enforceConstraints w =
    (Ok tt, {| monitor := monitor w; animationEngine := animationEngine w;
               outside := outside w;
               trace := trace w ++ [Enforce (performanceLevel (monitor w))];
        frameRequests := frameRequests w |}).
Proof.
  intros Hl. unfold enforceConstraints, bind, get, emit, modify.
  cbn [monitor]. by rewrite decide_False.
Qed.

(** [enforceConstraints] at the low level, no engine registered. *)
Lemma enforceConstraints_low_no_engine w :
  performanceLevel (monitor w) = low → animationEngine w = None →
  enforceConstraints w =
    (Ok tt, {| monitor := monitor w; animationEngine := None;
               outside := outside w;
               trace := trace w ++ [Enforce low; StrictMode (fps (monitor w))];
        frameRequests := frameRequests w |}).
Proof.
  intros Hl He. unfold enforceConstraints, bind, get, emit, modify, ret.
  cbn [monitor animationEngine]. rewrite decide_True by done.
  cbn [monitor animationEngine outside trace]. rewrite He, Hl.
  by rewrite <- app_assoc.
Qed.

(** [enforceConstraints] at the low level on an engine that has the three
    groups: the four writes, and the warning. *)
Lemma enforceConstraints_low w p :
  performanceLevel (monitor w) = low → animationEngine w = Some p →
  engine_groups p →
  enforceConstraints w =
    (Ok tt, {| monitor := monitor w; animationEngine := Some (strict_mode p);
               outside := outside w;
               trace := trace w ++ [Enforce low; StrictMode (fps (monitor w));
                                    PerformanceWarning (fps (monitor w))];
        frameRequests := frameRequests w |}).
Proof.
  intros Hl He Hp.
  pose proof (set_in_groups "timing" "maxSegments" (FNum (num 2)) p Hp) as H1.
  pose proof (set_in_groups "secondaryAction" "jiggleIntensity" (FNum (num 0)) _ H1) as H2.
  pose proof (set_in_groups "timing" "organicVariation" (FNum (Fin (1 # 10))) _ H2) as H3.
  destruct Hp as (t0 & s0 & q0 & Ht0 & Hs0 & Hq0).
  destruct H1 as (t1 & s1 & q1 & Ht1 & Hs1 & Hq1).
  destruct H2 as (t2 & s2 & q2 & Ht2 & Hs2 & Hq2).
  destruct H3 as (t3 & s3 & q3 & Ht3 & Hs3 & Hq3).
  unfold enforceConstraints.
  unfold bind at 1. unfold get at 1.
  unfold bind at 1. unfold emit at 1, modify at 1.
  rewrite decide_True by done.
  unfold bind at 1. unfold emit at 1, modify at 1.
  cbn [monitor animationEngine outside trace]. rewrite He.
  erewrite bind_ok by (by eapply on_engine_write).
  erewrite bind_ok by (by eapply on_engine_write).
  erewrite bind_ok by (by eapply on_engine_write).
  erewrite bind_ok by (by eapply on_engine_write).
  unfold showPerformanceWarning, bind, get, emit, modify.
  cbn [monitor animationEngine outside trace].
  unfold strict_mode. rewrite Hl. by rewrite <- !app_assoc.
Qed.

Lemma on_engine_write_throws g f v w p :
  animationEngine w = Some p → ¬ (∃ o, p !! g = Some (Group o)) →
  ∃ msg, on_engine (write_field g f v) w = (Throw (TypeError msg), w).
Proof.
  intros Hp Hg. unfold on_engine, write_field. rewrite Hp.
  destruct w as [m e o' tr n]. cbn [animationEngine] in Hp. subst e.
  cbn [monitor animationEngine outside trace frameRequests].
  destruct (p !! g) as [[o|x]|] eqn:E.
  - destruct Hg. by exists o.
  - by eexists.
  - by eexists.
Qed.

(** [enforceConstraints] at the low level on an engine that lacks one of
    the three groups: the write into that group throws. *)
Lemma enforceConstraints_low_throws w p :
  performanceLevel (monitor w) = low → animationEngine w = Some p →
  ¬ engine_groups p →
  ∃ msg w', enforceConstraints w = (Throw (TypeError msg), w') ∧
            calls (new_events w w') = [].
Proof.
  intros Hl He Hp.
  unfold enforceConstraints.
  unfold bind at 1. unfold get at 1.
  unfold bind at 1. unfold emit at 1, modify at 1.
  rewrite decide_True by done.
  unfold bind at 1. unfold emit at 1, modify at 1.
  cbn [monitor animationEngine outside trace frameRequests]. rewrite He.
  set (w1 := {| monitor := monitor w; animationEngine := Some p; outside := outside w;
                trace := (trace w ++ [Enforce (performanceLevel (monitor w))])
                         ++ [StrictMode (fps (monitor w))];
                frameRequests := frameRequests w |}).
  assert (Hcalls : ∀ q, calls (new_events w
            {| monitor := monitor w; animationEngine := q; outside := outside w;
               trace := trace w1; frameRequests := frameRequests w |}) = []).
  { intros q. unfold new_events. cbn [trace w1]. rewrite <- app_assoc.
    by rewrite drop_app_length. }
  destruct (p !! "timing") as [[t|x]|] eqn:Et.
  2,3: destruct (on_engine_write_throws "timing" "maxSegments" (FNum (num 2)) w1 p)
         as (msg & Hthrow); [done|by intros [o Ho]; rewrite Et in Ho|];
       unfold bind at 1; rewrite Hthrow; exists msg, w1; split; [done|apply Hcalls].
  erewrite bind_ok by (by eapply on_engine_write).
  set (p1 := set_in "timing" "maxSegments" (FNum (num 2)) p).
  assert (H1 : ∀ k, k ≠ "timing" → p1 !! k = p !! k).
  { intros k Hk. unfold p1. rewrite set_in_lookup, Et. by rewrite decide_False. }
  destruct (p !! "secondaryAction") as [[s0|x]|] eqn:Es.
  2,3: match goal with |- context [bind (on_engine ?c) _ ?v] =>
         destruct (on_engine_write_throws "secondaryAction" "jiggleIntensity"
                     (FNum (num 0)) v p1) as (msg & Hthrow);
           [done|intros [o Ho]; rewrite H1, Es in Ho by done; done|];
         unfold bind at 1; rewrite Hthrow; exists msg; eexists; split; [done|apply Hcalls]
       end.
  erewrite bind_ok by (eapply on_engine_write; [done|by rewrite H1]).
  set (p2 := set_in "secondaryAction" "jiggleIntensity" (FNum (num 0)) p1).
  assert (H2 : ∀ k, k ≠ "timing" → k ≠ "secondaryAction" → p2 !! k = p !! k).
  { intros k Hk Hk'. unfold p2. rewrite set_in_lookup, H1, Es by done.
    rewrite decide_False by done. by apply H1. }
  assert (Ht2 : ∃ o, p2 !! "timing" = Some (Group o)).
  { unfold p2. rewrite set_in_lookup, H1, Es by done. rewrite decide_False by done.
    unfold p1. rewrite set_in_lookup, Et. rewrite decide_True by done. by eexists. }
  destruct Ht2 as [t2 Ht2].
  erewrite bind_ok by (by eapply on_engine_write).
  set (p3 := set_in "timing" "organicVariation" (FNum (Fin (1 # 10))) p2).
  assert (H3 : p3 !! "squashAndStretch" = p !! "squashAndStretch").
  { unfold p3. rewrite set_in_lookup, Ht2. rewrite decide_False by done. by apply H2. }
  destruct (p !! "squashAndStretch") as [[q0|x]|] eqn:Eq.
  { destruct Hp. by exists t, s0, q0. }
  all: match goal with |- context [bind (on_engine ?c) _ ?v] =>
         destruct (on_engine_write_throws "squashAndStretch" "enabled"
                     (FBool false) v p3) as (msg & Hthrow);
           [done|intros [o Ho]; rewrite H3 in Ho; done|];
         unfold bind at 1; rewrite Hthrow; exists msg; eexists; split; [done|apply Hcalls]
       end.
Qed.

Lemma engine_ready_enforceable w : engine_ready w → enforceable w.
Proof. by intros H _ _. Qed.

(** [adjustPerformanceLevel] returns unless it takes the level to low on
    an engine that lacks a group. *)
Lemma adjustPerformanceLevel_enforceable w :
  enforceable w →
  let previous := performanceLevel (monitor w) in
  let level := classify (fps (monitor w)) in
  adjustPerformanceLevel w =
    (Ok tt,
     {| monitor := set_performanceLevel level (monitor w);
        animationEngine := transition_engine previous level (animationEngine w);
        outside := outside w;
        trace := trace w ++
                 transition_events previous level (fps (monitor w)) (animationEngine w);
        frameRequests := frameRequests w |}).
Proof.
  intros Hready previous level.
  unfold adjustPerformanceLevel, transition_engine, transition_events.
  unfold bind at 1. unfold get at 1.
  unfold bind at 1. unfold set_monitor at 1, modify at 1.
  unfold bind at 1. unfold get at 1.
  cbn [monitor animationEngine outside trace performanceLevel set_performanceLevel].
  fold previous level.
  destruct (decide (previous ≠ level)) as [Hch|Hsame].
  - unfold bind at 1. unfold emit at 1, modify at 1.
    cbn [monitor animationEngine outside trace performanceLevel set_performanceLevel fps].
    destruct (decide (level = low)) as [Hlow|Hnl].
    + assert (Hr : engine_ready w).
      { apply Hready; [|exact Hlow]. intros Hp. apply Hch. unfold previous.
        by rewrite Hp, Hlow. }
      unfold engine_ready in Hr.
      destruct (animationEngine w) as [p|] eqn:He.
      * rewrite (enforceConstraints_low _ p) by done.
        cbn [monitor animationEngine outside trace fps set_performanceLevel fmap option_fmap option_map].
        rewrite Hlow. by rewrite <- app_assoc.
      * rewrite enforceConstraints_low_no_engine by done.
        cbn [monitor animationEngine outside trace fps set_performanceLevel fmap option_fmap option_map].
        rewrite Hlow. by rewrite <- app_assoc.
    + rewrite enforceConstraints_not_low by done.
      cbn [monitor animationEngine outside trace fps performanceLevel set_performanceLevel].
      by rewrite <- app_assoc.
  - unfold ret. by rewrite app_nil_r.
Qed.

Lemma adjustPerformanceLevel_run w :
  engine_ready w →
  let previous := performanceLevel (monitor w) in
  let level := classify (fps (monitor w)) in
  adjustPerformanceLevel w =
    (Ok tt,
     {| monitor := set_performanceLevel level (monitor w);
        animationEngine := transition_engine previous level (animationEngine w);
        outside := outside w;
        trace := trace w ++
                 transition_events previous level (fps (monitor w)) (animationEngine w);
        frameRequests := frameRequests w |}).
Proof.
  intros Hready. by apply adjustPerformanceLevel_enforceable, engine_ready_enforceable.
Qed.

Lemma notify_one_run (ic : nat * Callback W) w :
  let f := fps (monitor w) in
  let l := performanceLevel (monitor w) in
  let b := getConstraints (monitor w) in
  notify_one ic w =
    (Ok tt,
     {| monitor := monitor w; animationEngine := animationEngine w;
        outside := (notifications [ic] f l b (outside w)).2;
        trace := trace w ++ (notifications [ic] f l b (outside w)).1;
        frameRequests := frameRequests w |}).
Proof.
  intros f l b. unfold notify_one, try_catch, bind, get, emit, modify, on_outside.
  cbn [monitor animationEngine outside trace notifications]. fold f l b.
  destruct (ic.2 f l b (outside w)) as [[[]|e] o'];
    cbn [monitor animationEngine outside trace fst snd app]; [done|].
  by rewrite <- app_assoc.
Qed.

Lemma notifications_cons (ic : nat * Callback W) ics f l b o :
  notifications (ic :: ics) f l b o =
    ((notifications [ic] f l b o).1 ++
     (notifications ics f l b (notifications [ic] f l b o).2).1,
     (notifications ics f l b (notifications [ic] f l b o).2).2).
Proof.
  cbn [notifications]. destruct (ic.2 f l b o) as [r o']. cbn [fst snd].
  destruct (notifications ics f l b o') as [evs o'']. cbn [fst snd].
  by rewrite app_nil_r.
Qed.

Lemma forEach_notify_one (ics : list (nat * Callback W)) : ∀ w,
  let f := fps (monitor w) in
  let l := performanceLevel (monitor w) in
  let b := getConstraints (monitor w) in
  forEach notify_one ics w =
    (Ok tt,
     {| monitor := monitor w; animationEngine := animationEngine w;
        outside := (notifications ics f l b (outside w)).2;
        trace := trace w ++ (notifications ics f l b (outside w)).1;
        frameRequests := frameRequests w |}).
Proof.
  induction ics as [|ic ics IH]; intros w f l b.
  - cbn [forEach notifications fst snd]. unfold ret. rewrite app_nil_r.
    by destruct w.
  - cbn [forEach]. erewrite bind_ok by apply notify_one_run.
    rewrite IH. cbn [monitor animationEngine outside trace]. fold f l b.
    rewrite (notifications_cons ic ics). cbn [fst snd].
    by rewrite <- app_assoc.
Qed.

Lemma notifyCallbacks_run w :
  let f := fps (monitor w) in
  let l := performanceLevel (monitor w) in
  let b := getConstraints (monitor w) in
  let ics := imap pair (callbacks (monitor w)) in
  notifyCallbacks w =
    (Ok tt,
     {| monitor := monitor w; animationEngine := animationEngine w;
        outside := (notifications ics f l b (outside w)).2;
        trace := trace w ++ (notifications ics f l b (outside w)).1;
        frameRequests := frameRequests w |}).
Proof.
  intros f l b ics. unfold notifyCallbacks, bind, get.
  apply forEach_notify_one.
Qed.

(** Every subscriber of the list is called once, in the order of the
    list, with the same arguments, whatever the subscribers before it
    did. *)
Lemma calls_notifications (ics : list (nat * Callback W)) f l b : ∀ o,
  calls (notifications ics f l b o).1 = (λ ic, (ic.1, f, l, b)) <$> ics.
Proof.
  induction ics as [|ic ics IH]; intros o; [done|].
  cbn [notifications]. destruct (ic.2 f l b o) as [r o'].
  specialize (IH o'). destruct (notifications ics f l b o') as [evs o''].
  cbn [fst] in *. unfold calls in *. cbn [omap list_omap]. cbn [fmap list_fmap].
  f_equal. rewrite omap_app, IH. by destruct r.
Qed.

Lemma enforcements_notifications (ics : list (nat * Callback W)) f l b : ∀ o,
  List.filter is_Enforce (notifications ics f l b o).1 = [] ∧
  List.filter is_StrictMode (notifications ics f l b o).1 = [].
Proof.
  induction ics as [|ic ics IH]; intros o; [done|].
  cbn [notifications]. destruct (ic.2 f l b o) as [r o'].
  specialize (IH o'). destruct (notifications ics f l b o') as [evs o''].
  cbn [fst] in *. cbn [List.filter is_Enforce is_StrictMode].
  rewrite !List.filter_app. destruct IH as [-> ->]. by destruct r.
Qed.


Lemma window_close_enforceable now w :
  enforceable w → window_close now w = (Ok tt, window_effect now w).
Proof.
  intros Hready. unfold window_close.
  erewrite bind_ok by apply updateHistory_run.
  erewrite bind_ok by (by apply adjustPerformanceLevel_enforceable).
  erewrite bind_ok by apply notifyCallbacks_run.
  unfold updateUI, bind, get, emit, modify, window_effect, window_events.
  cbn [monitor animationEngine outside trace fps performanceLevel callbacks
       set_performanceLevel set_history].
  by rewrite <- !app_assoc.
Qed.

Lemma window_close_run now w :
  engine_ready w → window_close now w = (Ok tt, window_effect now w).
Proof. intros Hready. by apply window_close_enforceable, engine_ready_enforceable. Qed.

Lemma feed_run sample now w :
  engine_ready w →
  feed sample now w = (Ok tt, window_effect now (with_monitor (set_fps sample) w)).
Proof.
  intros Hready. unfold feed.
  erewrite bind_ok by reflexivity. by apply window_close_run.
Qed.

(** The host's call of a queued callback. *)
Lemma frame_callback_run currentTime now w :
  frame_callback currentTime now w = tick currentTime now (dequeued w).
Proof. reflexivity. Qed.

(** The three ways a frame can go. *)
Lemma tick_idle currentTime now w :
  monitoring (monitor w) = false → tick currentTime now w = (Ok tt, w).
Proof. intros H. unfold tick, bind, get. by rewrite H. Qed.

Lemma tick_counting currentTime now w :
  monitoring (monitor w) = true →
  Qle_bool 1000 (currentTime - lastTime (monitor w)) = false →
  tick currentTime now w
  = (Ok tt, requested (with_monitor (λ m, set_frameCount (frameCount m + 1) m) w)).
Proof.
  intros Hm He. unfold tick, bind, get, set_monitor, modify.
  rewrite Hm. cbn [negb monitor lastTime set_frameCount]. by rewrite He.
Qed.

Lemma tick_closing_enforceable currentTime now w :
  monitoring (monitor w) = true →
  Qle_bool 1000 (currentTime - lastTime (monitor w)) = true →
  frame_enforceable currentTime w →
  tick currentTime now w
  = (Ok tt, requested (window_effect now (measure currentTime w))).
Proof.
  intros Hm He Hready. unfold tick.
  unfold bind at 1. unfold get at 1. rewrite Hm. cbn [negb].
  unfold bind at 1. unfold set_monitor at 1, modify at 1.
  unfold bind at 1. unfold get at 1.
  cbn [monitor lastTime set_frameCount]. rewrite He.
  unfold bind at 1.
  unfold bind at 1. unfold set_monitor at 1, modify at 1.
  unfold bind at 1. unfold set_monitor at 1, modify at 1.
  unfold bind at 1. unfold set_monitor at 1, modify at 1.
  cbn [monitor animationEngine outside trace frameRequests frameCount set_frameCount].
  rewrite window_close_enforceable; [done|].
  intros Hnl Hlow. by apply Hready.
Qed.

Lemma tick_closing currentTime now w :
  monitoring (monitor w) = true →
  Qle_bool 1000 (currentTime - lastTime (monitor w)) = true →
  engine_ready w →
  tick currentTime now w
  = (Ok tt, requested (window_effect now (measure currentTime w))).
Proof.
  intros Hm He Hready. apply tick_closing_enforceable; [done..|]. by intros _ _ _ _.
Qed.

Lemma window_effect_ready now w : engine_ready w → engine_ready (window_effect now w).
Proof.
  unfold engine_ready, window_effect, transition_engine.
  cbn [animationEngine]. destruct (animationEngine w) as [p|]; [|by repeat case_decide].
  intros Hp. repeat case_decide; cbn; try done. by apply strict_mode_groups.
Qed.

Lemma new_events_app w w' evs : trace w' = trace w ++ evs → new_events w w' = evs.
Proof. intros H. unfold new_events. by rewrite H, drop_app_length. Qed.

Lemma enforcements_window w :
  enforcements (window_events w)
  = if decide (performanceLevel (monitor w) = classify (fps (monitor w)))
    then 0%nat else 1%nat.
Proof.
  unfold enforcements, window_events, transition_events.
  rewrite !List.filter_app.
  rewrite (proj1 (enforcements_notifications _ _ _ _ _)).
  repeat case_decide; try done; cbn; by destruct (animationEngine w).
Qed.

Lemma strict_modes_window w :
  strict_modes (window_events w)
  = if decide (performanceLevel (monitor w) ≠ classify (fps (monitor w))
               ∧ classify (fps (monitor w)) = low)
    then 1%nat else 0%nat.
Proof.
  unfold strict_modes, window_events, transition_events.
  rewrite !List.filter_app.
  rewrite (proj2 (enforcements_notifications _ _ _ _ _)).
  destruct (decide (performanceLevel (monitor w) ≠ classify (fps (monitor w))))
    as [Hch|Hsame].
  - destruct (decide (classify (fps (monitor w)) = low)) as [Hlow|Hnl].
    + rewrite decide_True by done. by destruct (animationEngine w).
    + rewrite decide_False by (by intros [_ ?]). done.
  - rewrite decide_False by (by intros [? _]). done.
Qed.

Lemma calls_window w :
  calls (window_events w)
  = imap (λ i _, (i, fps (monitor w), classify (fps (monitor w)),
                  getConstraints (set_performanceLevel (classify (fps (monitor w)))
                                                       (monitor w))))
         (callbacks (monitor w)).
Proof.
  unfold window_events. unfold calls at 1. rewrite !omap_app. fold calls.
  rewrite calls_notifications.
  assert (omap (λ e, match e with
                     | Notify i f l b => Some (i, f, l, b)
                     | _ => None
                     end)
            (transition_events (performanceLevel (monitor w))
               (classify (fps (monitor w))) (fps (monitor w))
               (animationEngine w)) = []) as ->.
  { unfold transition_events. repeat case_decide; try done;
      by destruct (animationEngine w). }
  cbn [omap list_omap app]. rewrite app_nil_r.
  generalize (callbacks (monitor w)). intros cbs.
  by rewrite fmap_imap.
Qed.

End MonitorFacts.

(** ** The scenario of the specification *)

Lemma scenario_step {W} sample rest now (w : World W) :
  engine_ready w →
  ∃ w' : World W, scenario (sample :: rest) now w =
          {| obs_level := classify sample;
             obs_events := window_events (with_monitor (set_fps sample) w);
             obs_engine := animationEngine w' |} :: scenario rest (now + 1000) w' ∧
        engine_ready w' ∧
        performanceLevel (monitor w') = classify sample ∧
        animationEngine w' =
          transition_engine (performanceLevel (monitor w)) (classify sample)
                            (animationEngine w).
Proof.
  intros Hready. exists (window_effect now (with_monitor (set_fps sample) w)).
  split; [|split; [by apply window_effect_ready|by split]].
  cbn [scenario]. rewrite feed_run by done.
  by rewrite (new_events_app _ _ (window_events (with_monitor (set_fps sample) w))).
Qed.

(** C1: with the classifier of [adjustPerformanceLevel] (low under 45,
    medium from 45 and under 55, high from 55), the samples
    [58, 58, 58, 44, 44, 30, 52, 58], one per window, from the level [high],
    give the levels high, high, high, low, low, low,
    medium, high; [enforceConstraints] is entered once in each of the windows
    3, 6 and 7 and in no other window; its low branch runs in window 3 only,
    where the engine's parameters take their strict values, and they are not
    written again. *)
Theorem scenario_tiers {W} (w : World W) :
  performanceLevel (monitor w) = high → engine_ready w →
  let obs := scenario [58; 58; 58; 44; 44; 30; 52; 58] 0 w in
  (∀ fps, classify fps = if decide (fps < 45) then low
                         else if decide (fps < 55) then medium else high) ∧
  obs_level <$> obs = [high; high; high; low; low; low; medium; high] ∧
  (λ o, enforcements (obs_events o)) <$> obs = [0; 0; 0; 1; 0; 0; 1; 1]%nat ∧
  (λ o, strict_modes (obs_events o)) <$> obs = [0; 0; 0; 1; 0; 0; 0; 0]%nat ∧
  obs_engine <$> obs = replicate 3 (animationEngine w) ++
                       replicate 5 (strict_mode <$> animationEngine w).
Proof.
  intros H0 R0 obs. subst obs.
  split.
  { intros fps. unfold classify.
    destruct (Z.ltb_spec fps 45); [by rewrite decide_True|].
    rewrite decide_False by lia.
    destruct (Z.ltb_spec fps 55); [by rewrite decide_True|by rewrite decide_False by lia]. }
  destruct (scenario_step 58 [58; 58; 44; 44; 30; 52; 58] 0 w R0) as (w1 & -> & R1 & H1 & E1).
  destruct (scenario_step 58 [58; 44; 44; 30; 52; 58] (0 + 1000) w1 R1) as (w2 & -> & R2 & H2 & E2).
  destruct (scenario_step 58 [44; 44; 30; 52; 58] (0 + 1000 + 1000) w2 R2) as (w3 & -> & R3 & H3 & E3).
  destruct (scenario_step 44 [44; 30; 52; 58] (0 + 1000 + 1000 + 1000) w3 R3)
    as (w4 & -> & R4 & H4 & E4).
  destruct (scenario_step 44 [30; 52; 58] (0 + 1000 + 1000 + 1000 + 1000) w4 R4)
    as (w5 & -> & R5 & H5 & E5).
  destruct (scenario_step 30 [52; 58] (0 + 1000 + 1000 + 1000 + 1000 + 1000) w5 R5)
    as (w6 & -> & R6 & H6 & E6).
  destruct (scenario_step 52 [58] (0 + 1000 + 1000 + 1000 + 1000 + 1000 + 1000) w6 R6)
    as (w7 & -> & R7 & H7 & E7).
  destruct (scenario_step 58 [] (0 + 1000 + 1000 + 1000 + 1000 + 1000 + 1000 + 1000) w7 R7)
    as (w8 & -> & R8 & H8 & E8).
  cbn [scenario fmap list_fmap obs_level obs_events obs_engine].
  rewrite !enforcements_window, !strict_modes_window.
  cbn [with_monitor monitor fps set_fps performanceLevel].
  rewrite H0, H1, H2, H3, H4, H5, H6, H7.
  rewrite E8, E7, E6, E5, E4, E3, E2, E1, H0, H1, H2, H3, H4, H5, H6, H7.
  by repeat split.
Qed.

Lemma scenario_tiers_witness :
  performanceLevel (monitor demo_world) = high ∧ engine_ready demo_world ∧
  let obs := scenario [58; 58; 58; 44; 44; 30; 52; 58] 0 demo_world in
  (∀ fps, classify fps = if decide (fps < 45) then low
                         else if decide (fps < 55) then medium else high) ∧
  obs_level <$> obs = [high; high; high; low; low; low; medium; high] ∧
  (λ o, enforcements (obs_events o)) <$> obs = [0; 0; 0; 1; 0; 0; 1; 1]%nat ∧
  (λ o, strict_modes (obs_events o)) <$> obs = [0; 0; 0; 1; 0; 0; 0; 0]%nat ∧
  obs_engine <$> obs = replicate 3 (animationEngine demo_world) ++
                       replicate 5 (strict_mode <$> animationEngine demo_world).
Proof.
  assert (R : engine_ready demo_world)
    by (unfold engine_ready, engine_groups; cbn; do 3 eexists; by repeat split).
  split; [reflexivity|]. split; [exact R|].
  exact (scenario_tiers demo_world eq_refl R).
Defined.

(** ** Frames, windows and the strict mode *)

Section MonitorClaims.
Context {W : Type}.
Implicit Types (w : World W).

(** A frame returns (on an engine with the three groups, or with no
    engine); it enters [enforceConstraints] exactly when it changes the
    level, and then once; and it leaves the engine's parameters alone
    unless it takes the level to low. *)
Lemma tick_run currentTime now w :
  engine_ready w →
  ∃ w', tick currentTime now w = (Ok tt, w') ∧
    engine_ready w' ∧
    callbacks (monitor w') = callbacks (monitor w) ∧
    enforcements (new_events w w')
    = (if decide (performanceLevel (monitor w') = performanceLevel (monitor w))
       then 0 else 1)%nat ∧
    animationEngine w'
    = transition_engine (performanceLevel (monitor w))
                        (performanceLevel (monitor w')) (animationEngine w).
Proof.
  intros Hready.
  assert (∀ l e, transition_engine l l e = e) as Hsame
    by (intros l e; unfold transition_engine; by rewrite decide_False by auto).
  destruct (monitoring (monitor w)) eqn:Hm.
  - destruct (Qle_bool 1000 (currentTime - lastTime (monitor w))) eqn:He.
    + exists (requested (window_effect now (measure currentTime w))).
      split; [by apply tick_closing|].
      split; [by apply window_effect_ready|]. split; [done|]. split; [|done].
      rewrite (new_events_app _ _ (window_events (measure currentTime w))) by done.
      rewrite enforcements_window.
      cbn [window_effect measure with_monitor monitor performanceLevel fps
           set_performanceLevel set_lastTime set_frameCount set_fps set_history].
      by repeat case_decide.
    + exists (requested (with_monitor (λ m, set_frameCount (frameCount m + 1) m) w)).
      split; [by apply tick_counting|]. split; [done|]. split; [done|].
      cbn [with_monitor monitor animationEngine performanceLevel set_frameCount].
      rewrite decide_True, Hsame by done. split; [|done].
      unfold new_events. cbn [trace]. by rewrite drop_all.
  - exists w. split; [by apply tick_idle|]. split; [done|]. split; [done|].
    rewrite decide_True, Hsame by done. split; [|done].
    unfold new_events. by rewrite drop_all.
Qed.

(** A frame returns unless it takes the level to low on an engine that
    lacks a group; it enters [enforceConstraints] exactly when it changes
    the level, and then once; and it leaves the engine's parameters alone
    unless it takes the level to low. *)
Lemma tick_run_enforceable currentTime now w :
  frame_enforceable currentTime w →
  ∃ w', tick currentTime now w = (Ok tt, w') ∧
    callbacks (monitor w') = callbacks (monitor w) ∧
    enforcements (new_events w w')
    = (if decide (performanceLevel (monitor w') = performanceLevel (monitor w))
       then 0 else 1)%nat ∧
    animationEngine w'
    = transition_engine (performanceLevel (monitor w))
                        (performanceLevel (monitor w')) (animationEngine w).
Proof.
  intros Hready.
  assert (∀ l e, transition_engine l l e = e) as Hsame
    by (intros l e; unfold transition_engine; by rewrite decide_False by auto).
  destruct (monitoring (monitor w)) eqn:Hm.
  - destruct (Qle_bool 1000 (currentTime - lastTime (monitor w))) eqn:He.
    + exists (requested (window_effect now (measure currentTime w))).
      split; [by apply tick_closing_enforceable|]. split; [done|]. split; [|done].
      rewrite (new_events_app _ _ (window_events (measure currentTime w))) by done.
      rewrite enforcements_window.
      cbn [window_effect measure with_monitor monitor performanceLevel fps
           set_performanceLevel set_lastTime set_frameCount set_fps set_history].
      by repeat case_decide.
    + exists (requested (with_monitor (λ m, set_frameCount (frameCount m + 1) m) w)).
      split; [by apply tick_counting|]. split; [done|].
      cbn [requested with_monitor monitor animationEngine performanceLevel set_frameCount].
      rewrite decide_True, Hsame by done. split; [|done].
      unfold new_events. cbn [trace]. by rewrite drop_all.
  - exists w. split; [by apply tick_idle|]. split; [done|].
    rewrite decide_True, Hsame by done. split; [|done].
    unfold new_events. by rewrite drop_all.
Qed.

Lemma transition_engine_clamped previous level p :
  clamped p → transition_engine previous level (Some p) = Some p.
Proof.
  intros Hp. unfold transition_engine. repeat case_decide; try done.
  cbn. by rewrite strict_mode_id.
Qed.

(** Once the four fields hold their strict values, no step of the
    monitor changes the engine's parameters. *)
Lemma step_clamped w w' p :
  animationEngine w = Some p → clamped p → step w w' → animationEngine w' = Some p.
Proof.
  intros He Hp Hstep. destruct Hstep as [currentTime now w | cb w | w | w].
  - assert (Hready : engine_ready (dequeued w))
      by (unfold engine_ready; cbn [dequeued animationEngine]; rewrite He;
          by apply clamped_groups).
    rewrite frame_callback_run.
    destruct (tick_run currentTime now (dequeued w) Hready) as (w' & Hrun & _ & _ & _ & Heng).
    rewrite Hrun. cbn [snd]. rewrite Heng. cbn [dequeued animationEngine].
    rewrite He. by apply transition_engine_clamped.
  - done.
  - done.
  - unfold start, bind, get. by destruct (monitoring (monitor w)).
Qed.

Lemma steps_clamped w w' p :
  animationEngine w = Some p → clamped p → rtc step w w' → animationEngine w' = Some p.
Proof.
  intros He Hp Hsteps. induction Hsteps as [w | w w1 w2 Hstep _ IH]; [done|].
  apply IH. by eapply step_clamped.
Qed.

End MonitorClaims.

(** C4, as stated, fails: the parameters of the progressive-drawing engine
    have no group [timing]; at the low level the first write throws, and the
    four fields are not written. *)
Lemma enforceConstraints_not_on_every_engine :
  ¬ enforces_as_stated (with_monitor (set_performanceLevel low) progressive_world).
Proof.
  intros H. destruct H as (w' & p' & Hrun & _); [done|by eexists|].
  apply (f_equal fst) in Hrun. by vm_compute in Hrun.
Qed.

(** C4: [enforceConstraints] is entered only by a frame that changes the
    level (and then once).  Called at the low level on a registered engine
    whose parameters have the groups [timing], [secondaryAction] and
    [squashAndStretch], it sets [timing.maxSegments = 2],
    [secondaryAction.jiggleIntensity = 0], [timing.organicVariation = 0.1] and
    [squashAndStretch.enabled = false], and every other field, group and
    plain entry of the parameters is as before; on an engine that lacks one
    of these groups the write into it throws a [TypeError].  Called at the
    medium or high level it leaves the parameters as they are, as does every
    frame that does not take the level to low. *)
Theorem enforceConstraints_frame {W} (w : World W) (p : params) :
  animationEngine w = Some p →
  (∀ currentTime now,
     frame_enforceable currentTime w →
     ∃ w', tick currentTime now w = (Ok tt, w') ∧
       enforcements (new_events w w')
       = (if decide (performanceLevel (monitor w') = performanceLevel (monitor w))
          then 0 else 1)%nat ∧
       (performanceLevel (monitor w') = performanceLevel (monitor w) ∨
        performanceLevel (monitor w') ≠ low → animationEngine w' = Some p)) ∧
  (performanceLevel (monitor w) = low → engine_groups p →
     ∃ w' p', enforceConstraints w = (Ok tt, w') ∧
       animationEngine w' = Some p' ∧ monitor w' = monitor w ∧
       read_field "timing" "maxSegments" p' = Some (FNum (num 2)) ∧
       read_field "secondaryAction" "jiggleIntensity" p' = Some (FNum (num 0)) ∧
       read_field "timing" "organicVariation" p' = Some (FNum (Fin (1 # 10))) ∧
       read_field "squashAndStretch" "enabled" p' = Some (FBool false) ∧
       (∀ g f, (g, f) ∉ strict_fields → read_field g f p' = read_field g f p) ∧
       (∀ k, match p !! k, p' !! k with
             | Some (Group _), Some (Group _) => True
             | Some (Leaf a), Some (Leaf b) => a = b
             | None, None => True
             | _, _ => False
             end)) ∧
  (performanceLevel (monitor w) = low → ¬ engine_groups p →
     ∃ msg w', enforceConstraints w = (Throw (TypeError msg), w')) ∧
  (performanceLevel (monitor w) ≠ low →
     ∃ w', enforceConstraints w = (Ok tt, w') ∧ animationEngine w' = Some p).
Proof.
  intros He. split; [|split; [|split]].
  - intros currentTime now Hready.
    destruct (tick_run_enforceable currentTime now w Hready) as (w' & Hrun & _ & Hen & Heng).
    exists w'. split; [done|]. split; [done|].
    rewrite Heng, He. unfold transition_engine.
    intros [Hsame | Hnl].
    + rewrite decide_False; [done|]. by intros ?.
    + rewrite (decide_False (P := performanceLevel (monitor w') = low)) by done.
      by destruct (decide (performanceLevel (monitor w) ≠ performanceLevel (monitor w'))).
  - intros Hlow Hp. eexists _, (strict_mode p).
    split; [by apply enforceConstraints_low|]. split; [done|]. split; [done|].
    destruct (strict_mode_clamped p Hp) as (H1 & H2 & H3 & H4).
    do 4 (split; [done|]). split; [|apply strict_mode_shape].
    intros g f Hgf. rewrite read_field_strict_mode by done.
    unfold strict_fields in Hgf. rewrite !not_elem_of_cons in Hgf.
    destruct Hgf as (? & ? & ? & ? & _).
    by rewrite !decide_False.
  - intros Hlow Hp.
    destruct (enforceConstraints_low_throws w p Hlow He Hp) as (msg & w' & Hrun & _).
    by exists msg, w'.
  - intros Hnl. eexists. split; [by apply enforceConstraints_not_low|done].
Qed.

Lemma enforceConstraints_frame_witness :
  let w := demo_world in
  let p := ButteryAnimationEngine.animationParams in
  animationEngine w = Some p ∧
  (∀ currentTime now,
     frame_enforceable currentTime w →
     ∃ w', tick currentTime now w = (Ok tt, w') ∧
       enforcements (new_events w w')
       = (if decide (performanceLevel (monitor w') = performanceLevel (monitor w))
          then 0 else 1)%nat ∧
       (performanceLevel (monitor w') = performanceLevel (monitor w) ∨
        performanceLevel (monitor w') ≠ low → animationEngine w' = Some p)) ∧
  (performanceLevel (monitor w) = low → engine_groups p →
     ∃ w' p', enforceConstraints w = (Ok tt, w') ∧
       animationEngine w' = Some p' ∧ monitor w' = monitor w ∧
       read_field "timing" "maxSegments" p' = Some (FNum (num 2)) ∧
       read_field "secondaryAction" "jiggleIntensity" p' = Some (FNum (num 0)) ∧
       read_field "timing" "organicVariation" p' = Some (FNum (Fin (1 # 10))) ∧
       read_field "squashAndStretch" "enabled" p' = Some (FBool false) ∧
       (∀ g f, (g, f) ∉ strict_fields → read_field g f p' = read_field g f p) ∧
       (∀ k, match p !! k, p' !! k with
             | Some (Group _), Some (Group _) => True
             | Some (Leaf a), Some (Leaf b) => a = b
             | None, None => True
             | _, _ => False
             end)) ∧
  (performanceLevel (monitor w) = low → ¬ engine_groups p →
     ∃ msg w', enforceConstraints w = (Throw (TypeError msg), w')) ∧
  (performanceLevel (monitor w) ≠ low →
     ∃ w', enforceConstraints w = (Ok tt, w') ∧ animationEngine w' = Some p).
Proof.
  intros w p. split; [reflexivity|].
  exact (enforceConstraints_frame w p eq_refl).
Defined.

(** The frame that takes [demo_world] to the low level: one frame in a
    second is a rate of 1. *)
Example enforceConstraints_demo :
  let w' := (tick 1000 0 demo_world).2 in
  performanceLevel (monitor w') = low ∧
  enforcements (new_events demo_world w') = 1%nat ∧
  read_field "timing" "maxSegments" (default ∅ (animationEngine w')) = Some (FNum (num 2)) ∧
  read_field "timing" "baseDuration" (default ∅ (animationEngine w'))
  = Some (FNum (num 1500)).
Proof. by vm_compute. Qed.

(** C5: the clamp is a one-way ratchet.  When a frame closes a window with
    a rate under 45 on a monitor that was not at the low level, the clamp
    fires: the level is low and the four fields hold their strict values.
    From then on, through every run of frames, subscriptions, stops and
    starts, and so through every return of the level to medium or high, the
    engine's parameters are the clamped ones: the monitor never writes them
    back, and only a write from outside it can. *)
Theorem clamp_is_one_way {W} (w : World W) (p : params) (currentTime : Q) (now : Z) :
  animationEngine w = Some p → engine_groups p →
  monitoring (monitor w) = true →
  Qle_bool 1000 (currentTime - lastTime (monitor w)) = true →
  performanceLevel (monitor w) ≠ low →
  measured_fps (frameCount (monitor w) + 1) (currentTime - lastTime (monitor w)) < 45 →
  ∃ w1 p1, tick currentTime now w = (Ok tt, w1) ∧
    performanceLevel (monitor w1) = low ∧
    animationEngine w1 = Some p1 ∧ clamped p1 ∧
    ∀ w2, rtc step w1 w2 → animationEngine w2 = Some p1.
Proof.
  intros He Hp Hm Hclose Hnl Hfps.
  assert (Hready : engine_ready w) by (unfold engine_ready; by rewrite He).
  exists (requested (window_effect now (measure currentTime w))), (strict_mode p).
  split; [by apply tick_closing|].
  assert (Hlow : classify (measured_fps (frameCount (monitor w) + 1)
                             (currentTime - lastTime (monitor w))) = low).
  { unfold classify. by rewrite (proj2 (Z.ltb_lt _ _) Hfps). }
  assert (Heng : animationEngine (requested (window_effect now (measure currentTime w)))
                 = Some (strict_mode p)).
  { cbn [requested window_effect measure with_monitor monitor animationEngine
         performanceLevel fps set_lastTime set_frameCount set_fps].
    rewrite Hlow, He. unfold transition_engine.
    by rewrite decide_True, decide_True. }
  split; [exact Hlow|]. split; [exact Heng|].
  split; [by apply strict_mode_clamped|].
  intros w2 Hsteps. eapply steps_clamped; [exact Heng| |exact Hsteps].
  by apply strict_mode_clamped.
Qed.

Lemma clamp_is_one_way_witness :
  let w := demo_world in
  let p := ButteryAnimationEngine.animationParams in
  animationEngine w = Some p ∧ engine_groups p ∧
  monitoring (monitor w) = true ∧
  Qle_bool 1000 (1000 - lastTime (monitor w)) = true ∧
  performanceLevel (monitor w) ≠ low ∧
  measured_fps (frameCount (monitor w) + 1) (1000 - lastTime (monitor w)) < 45 ∧
  ∃ w1 p1, tick 1000 0 w = (Ok tt, w1) ∧
    performanceLevel (monitor w1) = low ∧
    animationEngine w1 = Some p1 ∧ clamped p1 ∧
    ∀ w2, rtc step w1 w2 → animationEngine w2 = Some p1.
Proof.
  intros w p.
  assert (G : engine_groups p)
    by (unfold engine_groups; cbn; do 3 eexists; by repeat split).
  assert (L : performanceLevel (monitor w) ≠ low) by (by vm_compute).
  assert (F : measured_fps (frameCount (monitor w) + 1) (1000 - lastTime (monitor w)) < 45)
    by (by vm_compute).
  split; [reflexivity|]. split; [exact G|]. split; [reflexivity|].
  split; [reflexivity|]. split; [exact L|]. split; [exact F|].
  exact (clamp_is_one_way w p 1000%Q 0 eq_refl G eq_refl eq_refl L F).
Defined.

(** After the clamp, sixty frames in the next second take [demo_world] back
    to the high level, and the four fields still hold their strict values. *)
Example clamp_survives_recovery :
  let w1 := (tick 1000 0 demo_world).2 in
  let w2 := (tick 2000 1000
               (with_monitor (set_frameCount 59) w1)).2 in
  performanceLevel (monitor w1) = low ∧
  performanceLevel (monitor w2) = high ∧
  animationEngine w2 = animationEngine w1 ∧
  read_field "secondaryAction" "jiggleIntensity" (default ∅ (animationEngine w2))
  = Some (FNum (num 0)).
Proof. by vm_compute. Qed.

(** C6, as stated, fails: with the parameters of the progressive-drawing
    engine registered, the frame that closes the first window measures a rate
    of 1; the level goes to low, the first write of the strict mode throws
    out of [enforceConstraints] and out of the frame, and neither of the two
    subscribers is called. *)
Lemma notifyCallbacks_not_on_every_close : ¬ notifies_as_stated 1000 0 progressive_world.
Proof. intros H. by vm_compute in H. Qed.

(** C6: a frame that closes a window calls every registered subscriber,
    once, in the order of registration, with the rate of the window, the
    level after classification and the bundle of that level, whether or not
    the level has changed; the list of subscribers is as before.  The one
    exception is a window that takes the level to low while the registered
    engine lacks a group the strict mode writes into: the enforcement then
    throws before the subscribers are reached.  And [notifyCallbacks], in any
    world, never throws: a subscriber that throws has its error printed, stays
    registered, and the subscribers after it are called with the same
    arguments. *)
Theorem notifyCallbacks_isolated {W} (w : World W) (currentTime : Q) (now : Z) :
  monitoring (monitor w) = true →
  Qle_bool 1000 (currentTime - lastTime (monitor w)) = true →
  frame_enforceable currentTime w →
  (∃ w', tick currentTime now w = (Ok tt, w') ∧
     callbacks (monitor w') = callbacks (monitor w) ∧
     fps (monitor w')
     = measured_fps (frameCount (monitor w) + 1) (currentTime - lastTime (monitor w)) ∧
     performanceLevel (monitor w') = classify (fps (monitor w')) ∧
     calls (new_events w w')
     = imap (λ i _, (i, fps (monitor w'), performanceLevel (monitor w'),
                     getConstraints (monitor w')))
            (callbacks (monitor w))) ∧
  (∀ v : World W,
     ∃ v', notifyCallbacks v = (Ok tt, v') ∧
       monitor v' = monitor v ∧ animationEngine v' = animationEngine v ∧
       calls (new_events v v')
       = imap (λ i _, (i, fps (monitor v), performanceLevel (monitor v),
                       getConstraints (monitor v)))
              (callbacks (monitor v)) ∧
       (new_events v v', outside v')
       = notifications (imap pair (callbacks (monitor v))) (fps (monitor v))
           (performanceLevel (monitor v)) (getConstraints (monitor v)) (outside v)).
Proof.
  intros Hm Hclose Hready. split.
  - exists (requested (window_effect now (measure currentTime w))).
    split; [by apply tick_closing_enforceable|].
    split; [done|]. split; [done|]. split; [done|].
    rewrite (new_events_app _ _ (window_events (measure currentTime w))) by done.
    by rewrite calls_window.
  - intros v. eexists. split; [apply notifyCallbacks_run|].
    cbn [monitor animationEngine outside trace]. split; [done|]. split; [done|].
    erewrite new_events_app by reflexivity.
    split.
    + rewrite calls_notifications. by rewrite fmap_imap.
    + by destruct (notifications _ _ _ _ _).
Qed.

Lemma notifyCallbacks_isolated_witness :
  let w := demo_world in
  monitoring (monitor w) = true ∧
  Qle_bool 1000 (1000 - lastTime (monitor w)) = true ∧
  frame_enforceable 1000 w ∧
  (∃ w', tick 1000 0 w = (Ok tt, w') ∧
     callbacks (monitor w') = callbacks (monitor w) ∧
     fps (monitor w')
     = measured_fps (frameCount (monitor w) + 1) (1000 - lastTime (monitor w)) ∧
     performanceLevel (monitor w') = classify (fps (monitor w')) ∧
     calls (new_events w w')
     = imap (λ i _, (i, fps (monitor w'), performanceLevel (monitor w'),
                     getConstraints (monitor w')))
            (callbacks (monitor w))) ∧
  (∀ v : World (list Z),
     ∃ v', notifyCallbacks v = (Ok tt, v') ∧
       monitor v' = monitor v ∧ animationEngine v' = animationEngine v ∧
       calls (new_events v v')
       = imap (λ i _, (i, fps (monitor v), performanceLevel (monitor v),
                       getConstraints (monitor v)))
              (callbacks (monitor v)) ∧
       (new_events v v', outside v')
       = notifications (imap pair (callbacks (monitor v))) (fps (monitor v))
           (performanceLevel (monitor v)) (getConstraints (monitor v)) (outside v)).
Proof.
  intros w.
  assert (R : frame_enforceable 1000 w).
  { intros _ _ _ _. unfold engine_ready, engine_groups. cbn.
    do 3 eexists. by repeat split. }
  split; [reflexivity|]. split; [reflexivity|]. split; [exact R|].
  exact (notifyCallbacks_isolated w 1000%Q 0 eq_refl eq_refl R).
Defined.

(** On [demo_world] the first subscriber throws and the second is still
    called: it has recorded the rate. *)
Example notifyCallbacks_demo :
  let w' := (notifyCallbacks demo_world).2 in
  (notifyCallbacks demo_world).1 = Ok tt ∧
  callback_errors (trace w') = [Thrown "subscriber failed"] ∧
  (λ c, c.1.1.1) <$> calls (trace w') = [0; 1]%nat ∧
  outside w' = [60] ∧
  length (callbacks (monitor w')) = 2%nat.
Proof. by vm_compute. Qed.

(** With the parameters of the progressive-drawing variant registered,
    the first write of the strict mode throws, out of [enforceConstraints]
    and out of the frame, before any subscriber is called; the frame does not
    ask for the next one, and [start] does not either, the monitor being
    still marked as monitoring: no frame is measured any more. *)
Example tick_progressive_engine :
  let w := requested progressive_world in
  let w' := animation_frame (λ _, (1000%Q, 0)) w in
  (tick 1000 0 progressive_world).1
  = Throw (TypeError "Cannot set properties of undefined (setting maxSegments)") ∧
  calls (trace w') = [] ∧
  animationEngine w' = animationEngine w ∧
  frameRequests w' = 0%nat ∧ monitoring (monitor w') = true ∧
  frameRequests (start w').2 = 0%nat.
Proof. by vm_compute. Qed.

(** ** getMetrics *)

Lemma round_div s p :
  Math_round (js_div (num s) (num (Z.pos p))) = num ((2 * s + Z.pos p) / (2 * Z.pos p)).
Proof.
  unfold js_div, num.
  assert (Qeq_bool (inject_Z (Z.pos p)) 0 = false) as -> by done.
  unfold Math_round, num. do 2 f_equal.
  unfold Qdiv, Qmult, Qinv, Qplus, Qfloor, inject_Z. cbn [Qnum Qden].
  f_equal; lia.
Qed.

Lemma round_bounds s n :
  0 < n → let a := (2 * s + n) / (2 * n) in 2 * a * n - n ≤ 2 * s < 2 * a * n + n.
Proof.
  intros Hn a.
  pose proof (Z.div_mod (2 * s + n) (2 * n) ltac:(lia)) as E.
  pose proof (Z.mod_pos_bound (2 * s + n) (2 * n) ltac:(lia)) as B.
  fold a in E. nia.
Qed.

Lemma Math_min_num a b : Math_min (num a) (num b) = num (Z.min a b).
Proof.
  unfold Math_min, num, num_leb, Qle_bool, inject_Z. cbn [Qnum Qden].
  rewrite !Z.mul_1_r.
  destruct (Z.leb_spec a b); [rewrite Z.min_l | rewrite Z.min_r]; auto; lia.
Qed.

Lemma Math_max_num a b : Math_max (num a) (num b) = num (Z.max a b).
Proof.
  unfold Math_max, num, num_leb, Qle_bool, inject_Z. cbn [Qnum Qden].
  rewrite !Z.mul_1_r.
  destruct (Z.leb_spec a b); [rewrite Z.max_r | rewrite Z.max_l]; auto; lia.
Qed.

Lemma fold_min_num zs : ∀ z,
  ∃ lo, fold_left Math_min (map num zs) (num z) = num lo ∧
        lo ∈ z :: zs ∧ ∀ x, x ∈ z :: zs → lo ≤ x.
Proof.
  induction zs as [|y zs IH]; intros z.
  - exists z. split; [done|]. split; [by left|].
    intros x ->%list_elem_of_singleton. lia.
  - cbn [map fold_left]. rewrite Math_min_num.
    destruct (IH (Z.min z y)) as (lo & -> & Hin & Hle). exists lo. split; [done|].
    split.
    + apply elem_of_cons in Hin as [-> | Hin]; [|by do 2 right].
      destruct (Z.min_spec z y) as [[_ ->] | [_ ->]]; [by left | by right; left].
    + intros x Hx.
      assert (lo ≤ Z.min z y) by (apply Hle; by left).
      apply elem_of_cons in Hx as [-> | [-> | Hx]%elem_of_cons]; [lia | lia |].
      apply Hle. by right.
Qed.

Lemma fold_max_num zs : ∀ z,
  ∃ hi, fold_left Math_max (map num zs) (num z) = num hi ∧
        hi ∈ z :: zs ∧ ∀ x, x ∈ z :: zs → x ≤ hi.
Proof.
  induction zs as [|y zs IH]; intros z.
  - exists z. split; [done|]. split; [by left|].
    intros x ->%list_elem_of_singleton. lia.
  - cbn [map fold_left]. rewrite Math_max_num.
    destruct (IH (Z.max z y)) as (hi & -> & Hin & Hle). exists hi. split; [done|].
    split.
    + apply elem_of_cons in Hin as [-> | Hin]; [|by do 2 right].
      destruct (Z.max_spec z y) as [[_ ->] | [_ ->]]; [by right; left | by left].
    + intros x Hx.
      assert (Z.max z y ≤ hi) by (apply Hle; by left).
      apply elem_of_cons in Hx as [-> | [-> | Hx]%elem_of_cons]; [lia | lia |].
      apply Hle. by right.
Qed.

Lemma fold_sum (h : list Sample) : ∀ acc,
  fold_left (λ sum entry, sum + sample_fps entry) h acc
  = acc + foldr Z.add 0 (sample_fps <$> h).
Proof.
  induction h as [|e h IH]; intros acc; cbn [fold_left fmap list_fmap foldr]; [lia|].
  rewrite IH. cbn [fmap list_fmap] in *. lia.
Qed.

(** C10: [getMetrics] is total.  On an empty history the average, the
    minimum and the maximum are the current rate and there are no data points:
    nothing is divided by zero and no extremum of an empty collection is
    taken.  On a history that is not empty the average is the mean of the
    recorded rates rounded to the nearest integer (halves upwards), and the
    minimum and the maximum are the least and the greatest recorded rate. *)
Theorem getMetrics_total {W} (m : Monitor W) :
  let metrics := getMetrics m in
  let rates := sample_fps <$> history m in
  dataPoints metrics = length (history m) ∧
  currentFPS metrics = num (fps m) ∧
  match history m with
  | [] =>
      averageFPS metrics = num (fps m) ∧ minFPS metrics = num (fps m) ∧
      maxFPS metrics = num (fps m) ∧ dataPoints metrics = 0%nat
  | _ :: _ =>
      ∃ a lo hi : Z,
        averageFPS metrics = num a ∧ minFPS metrics = num lo ∧ maxFPS metrics = num hi ∧
        (let n := Z.of_nat (length rates) in
         let s := foldr Z.add 0 rates in
         2 * a * n - n ≤ 2 * s < 2 * a * n + n) ∧
        lo ∈ rates ∧ (∀ x, x ∈ rates → lo ≤ x) ∧
        hi ∈ rates ∧ (∀ x, x ∈ rates → x ≤ hi)
  end.
Proof.
  intros metrics rates. subst metrics rates. unfold getMetrics.
  cbn [dataPoints currentFPS averageFPS minFPS maxFPS].
  split; [done|]. split; [done|].
  destruct (history m) as [|e h] eqn:Eh; [done|].
  cbn [length Nat.ltb Nat.leb].
  change (Z.of_nat (S (length h))) with (Z.pos (Pos.of_succ_nat (length h))).
  rewrite round_div, fold_sum, Z.add_0_l.
  unfold Math_min_spread, Math_max_spread. cbn [map fold_left].
  change (Math_min (Inf false) (num (sample_fps e))) with (num (sample_fps e)).
  change (Math_max (Inf true) (num (sample_fps e))) with (num (sample_fps e)).
  rewrite <- (map_map sample_fps num).
  destruct (fold_min_num (map sample_fps h) (sample_fps e)) as (lo & -> & Hlo1 & Hlo2).
  destruct (fold_max_num (map sample_fps h) (sample_fps e)) as (hi & -> & Hhi1 & Hhi2).
  eexists _, lo, hi. split; [reflexivity|]. split; [done|]. split; [done|].
  split; [|done].
  cbv zeta. rewrite length_fmap. cbn [length].
  change (Z.of_nat (S (length h))) with (Z.pos (Pos.of_succ_nat (length h))).
  apply round_bounds. lia.
Qed.

(** Three windows at 60, 59 and 58: the mean 59, the extrema 58 and 60. *)
Example getMetrics_demo :
  let m := monitor (feed 58 2000 (feed 59 1000 (feed 60 0 demo_world).2).2).2 in
  averageFPS (getMetrics m) = num 59 ∧ minFPS (getMetrics m) = num 58 ∧
  maxFPS (getMetrics m) = num 60 ∧ dataPoints (getMetrics m) = 3%nat.
Proof. by vm_compute. Qed.

(** Nine requests in a row: eight are scheduled and the ninth is dropped
    with a warning.  A call of an [onComplete] frees one slot, and a second
    call of the same one frees another: two more requests are scheduled, and
    of the ten tweens then on the timeline nine have not completed. *)
Example nine_requests :
  let request := Animate "path" sample_request (num 1) (VStr "power2.out") (num 0) in
  let b9 := run (replicate 9 request) GPUOnlyAnimationBuilder.new in
  let b10 := run [Complete 2] b9 in
  let b11 := run [Complete 2] b10 in
  let b13 := run [request; request] b11 in
  animationCount b9 = 8 ∧ length (timeline b9) = 8%nat ∧
  List.filter (λ e, match e with LimitReached => true | _ => false end) (console b9)
  = [LimitReached] ∧
  animationCount b10 = 7 ∧ animationCount b11 = 6 ∧
  animationCount b13 = 8 ∧ length (timeline b13) = 10%nat ∧ in_flight b13 = 9.
Proof. by vm_compute. Qed.

(** * Further properties *)

(** ** The filter, run again on its own output *)

(** Whenever the filter returns, its output keeps exactly the entries the
    three tests accept. *)
Lemma filterGPUProperties_ok properties c out c' :
  filterGPUProperties properties c = (Ok out, c') →
  ∀ k, out !! k = if keeps properties k then properties !! k else None.
Proof.
  unfold filterGPUProperties.
  pose proof (forEach_filter_key properties (map_to_list properties).*1
                {| safe := ∅; printed := c |}) as H.
  destruct (forEach _ _ _) as [[[]|e] fr']; [|done].
  intros [= <- <-] k.
  destruct H as [H1 _]; [by intros k' ?%elem_of_keys|].
  rewrite H1. cbn [safe]. rewrite lookup_empty.
  destruct (keeps properties k) eqn:Ek.
  - rewrite decide_True; [done|]. split; [|done].
    apply elem_of_keys. unfold keeps in Ek. by destruct (properties !! k).
  - rewrite decide_False; [done|]. by intros [_ ?].
Qed.

(** On keys that all pass, the loop prints nothing. *)
Lemma forEach_filter_key_kept properties l : ∀ fr,
  (∀ k, k ∈ l → keeps properties k = true) →
  ∃ fr', forEach (filter_key properties) l fr = (Ok tt, fr') ∧
         printed fr' = printed fr ∧
         ∀ k, safe fr' !! k = if decide (k ∈ l) then properties !! k else safe fr !! k.
Proof.
  induction l as [|key l IH]; intros fr Hl.
  - exists fr. split; [done|]. split; [done|]. intros k.
    rewrite decide_False; [done|]. apply not_elem_of_nil.
  - cbn [forEach]. unfold bind at 1.
    assert (Hk : keeps properties key = true) by (apply Hl; by left).
    unfold keeps in Hk. destruct (properties !! key) as [v|] eqn:Hv; [|done].
    rewrite (filter_key_run _ _ _ _ Hv).
    destruct (verdict key v) as [[]|]; try done.
    destruct (IH {| safe := <[key := v]> (safe fr); printed := printed fr |})
      as (fr' & -> & Hp & Hs); [intros k Hin; apply Hl; by right|].
    exists fr'. split; [done|]. split; [done|]. intros k. rewrite Hs. cbn [safe].
    destruct (decide (k = key)) as [->|Hne].
    + rewrite lookup_insert_eq, Hv, (decide_True (P := key ∈ key :: l)) by (by left).
      by case_decide.
    + rewrite lookup_insert_ne by done.
      destruct (decide (k ∈ l)) as [Hin|Hnin].
      * by rewrite decide_True by (by right).
      * rewrite decide_False; [done|]. by intros [?|?]%elem_of_cons.
Qed.

(** Once through the filter, a map goes through it again unchanged and
    without a warning. *)
Lemma filterGPUProperties_fixed properties c out c' :
  filterGPUProperties properties c = (Ok out, c') →
  ∀ c2, filterGPUProperties out c2 = (Ok out, c2).
Proof.
  intros Hrun c2. pose proof (filterGPUProperties_ok _ _ _ _ Hrun) as Hout.
  assert (Hkeep : ∀ k, k ∈ (map_to_list out).*1 → keeps out k = true).
  { intros k [v Hv]%elem_of_keys. unfold keeps. rewrite Hv.
    rewrite Hout in Hv. unfold keeps in Hv.
    destruct (properties !! k) as [v'|]; [|done].
    destruct (verdict k v') as [[]|] eqn:Ev; try done.
    injection Hv as <-. by rewrite Ev. }
  unfold filterGPUProperties.
  destruct (forEach_filter_key_kept out (map_to_list out).*1
              {| safe := ∅; printed := c2 |} Hkeep) as (fr' & -> & Hp & Hs).
  cbn [printed] in Hp. rewrite Hp. f_equal. f_equal.
  apply map_eq. intros k. rewrite Hs. cbn [safe]. rewrite lookup_empty.
  case_decide as Hin; [done|].
  destruct (out !! k) eqn:E; [|done].
  exfalso. apply Hin, elem_of_keys. by rewrite E.
Qed.

(** X1: [filterGPUProperties] is idempotent.  The output of the filter,
    given to the filter again, comes back unchanged and no warning is
    printed. *)
Theorem filterGPUProperties_idempotent (properties : gmap string value)
    (c : list event) :
  attr_is_bag properties →
  ∃ out c', filterGPUProperties properties c = (Ok out, c') ∧
            ∀ c2, filterGPUProperties out c2 = (Ok out, c2).
Proof.
  intros Hbag.
  destruct (filterGPUProperties_run properties c Hbag) as (out & extra & Hrun & _).
  exists out, (c ++ extra). split; [done|].
  by eapply filterGPUProperties_fixed.
Qed.

Lemma filterGPUProperties_idempotent_witness :
  attr_is_bag sample_request ∧
  ∃ out c', filterGPUProperties sample_request [] = (Ok out, c') ∧
            ∀ c2, filterGPUProperties out c2 = (Ok out, c2).
Proof.
  assert (H : attr_is_bag sample_request) by (by split; vm_compute).
  split; [exact H | exact (filterGPUProperties_idempotent sample_request [] H)].
Defined.

(** ** What GPUOnlyAnimationBuilder puts on the timeline *)

(** The two outcomes of a request whose filter returns. *)
Lemma safeAnimate_run t p d e dl b out c' :
  filterGPUProperties p (console b) = (Ok out, c') →
  safeAnimate t p d e dl b =
    (Ok tt,
     if MAX_CONCURRENT_ANIMATIONS <=? animationCount b then
       {| animationCount := animationCount b; timeline := timeline b;
          console := c' ++ [LimitReached] |}
     else
       {| animationCount := animationCount b + 1;
          timeline := timeline b ++
            [{| target := t;
                vars := scheduled_vars out (Math_max d MIN_ANIMATION_DURATION) e;
                position := dl; completions := 0 |}];
          console := c' |}).
Proof.
  intros Hrun. unfold safeAnimate, bind, GPUOnlyAnimationBuilder.on_console, get.
  rewrite Hrun. cbn [animationCount timeline console].
  by destruct (MAX_CONCURRENT_ANIMATIONS <=? animationCount b).
Qed.

Lemma safeAnimate_throws t p d e dl b err c' :
  filterGPUProperties p (console b) = (Throw err, c') →
  safeAnimate t p d e dl b =
    (Throw err, {| animationCount := animationCount b; timeline := timeline b;
                   console := c' |}).
Proof.
  intros Hrun. unfold safeAnimate, bind, GPUOnlyAnimationBuilder.on_console, get.
  by rewrite Hrun.
Qed.

Lemma Math_max_floor d c :
  c ≠ NaN → Math_max d c = NaN ∨ num_leb c (Math_max d c) = true.
Proof.
  intros Hc. destruct d as [| s | q]; [by left| |]; right; by apply Math_max_ge.
Qed.

(** The variables of a scheduled tween, key by key. *)
Lemma scheduled_vars_lookup out d e key :
  scheduled_vars out d e !! key =
    if decide (key = "onComplete") then Some OnComplete
    else if decide (key = "ease") then Some (Value e)
    else if decide (key = "duration") then Some (Value (VNum d))
    else Value <$> out !! key.
Proof.
  unfold scheduled_vars. repeat case_decide; subst;
    repeat (rewrite lookup_insert_eq || rewrite lookup_insert_ne by done); try done.
  by rewrite lookup_fmap.
Qed.

Lemma scheduled_vars_allowed p c out c' d e key x :
  filterGPUProperties p c = (Ok out, c') →
  scheduled_vars out d e !! key = Some x →
  key = "onComplete" ∨ ∃ v, x = Value v ∧ allowed key v.
Proof.
  intros Hrun. pose proof (filterGPUProperties_ok _ _ _ _ Hrun) as Hout.
  rewrite scheduled_vars_lookup.
  destruct (decide (key = "onComplete")) as [->|Hc]; [by left|].
  destruct (decide (key = "ease")) as [->|He].
  { intros [= <-]. right. eexists. split; [done|]. right; left. unfold metadata. set_solver. }
  destruct (decide (key = "duration")) as [->|Hd].
  { intros [= <-]. right. eexists. split; [done|]. right; left. unfold metadata. set_solver. }
  rewrite Hout. destruct (keeps p key) eqn:Ek; [|done].
  destruct (p !! key) as [v|] eqn:Hv; [|done]. intros [= <-]. right.
  exists v. split; [done|]. by apply (keeps_allowed p).
Qed.

(** X2: what an accepted request schedules.  Under the cap, a request
    whose [attr], if any, is not [undefined] or [null] puts one tween on the
    timeline, at position [delay].  Its duration is [max(duration, 0.05)] and
    its ease is the [ease] argument, whatever [duration] and [ease] the
    property map itself carries; under [onComplete] it has the arrow function
    that takes one from the count; every other variable is an entry of the
    property map, with its value, under a key on the allow-list. *)
Theorem safeAnimate_schedules (b : Builder) (t : string)
    (p : gmap string value) (d : number) (e : value) (dl : number) :
  attr_is_bag p → animationCount b < MAX_CONCURRENT_ANIMATIONS →
  ∃ b' tw, safeAnimate t p d e dl b = (Ok tt, b') ∧
    timeline b' = timeline b ++ [tw] ∧
    target tw = t ∧ position tw = dl ∧ completions tw = 0%nat ∧
    vars tw !! "duration" = Some (Value (VNum (Math_max d MIN_ANIMATION_DURATION))) ∧
    (d ≠ NaN → num_leb MIN_ANIMATION_DURATION (Math_max d MIN_ANIMATION_DURATION) = true) ∧
    vars tw !! "ease" = Some (Value e) ∧
    vars tw !! "onComplete" = Some OnComplete ∧
    (∀ key x, key ≠ "duration" → key ≠ "ease" → key ≠ "onComplete" →
       vars tw !! key = Some x → ∃ v, x = Value v ∧ p !! key = Some v ∧ allowed key v) ∧
    (∀ key v, key ≠ "duration" → key ≠ "ease" →
       p !! key = Some v → allowed key v → vars tw !! key = Some (Value v)).
Proof.
  intros Hbag Hcap.
  destruct (filterGPUProperties_run p (console b) Hbag) as (out & extra & Hrun & Hout & _).
  rewrite (safeAnimate_run _ _ _ _ _ _ _ _ Hrun).
  rewrite (proj2 (Z.leb_gt _ _)) by done.
  eexists _, _. split; [reflexivity|]. cbn [timeline].
  split; [reflexivity|]. cbn [target position completions vars].
  split; [done|]. split; [done|]. split; [done|].
  split; [by rewrite scheduled_vars_lookup|].
  split; [intros Hd; by apply Math_max_ge|].
  split; [by rewrite scheduled_vars_lookup|].
  split; [by rewrite scheduled_vars_lookup|]. split.
  - intros key x Hd He Hc. rewrite scheduled_vars_lookup, !decide_False by done.
    rewrite Hout. destruct (keeps p key) eqn:Ek; [|done].
    destruct (p !! key) as [v|] eqn:Hv; [|done]. intros [= <-].
    exists v. split; [done|]. split; [done|]. by apply (keeps_allowed p).
  - intros key v Hd He Hv Ha.
    assert (key ≠ "onComplete") as Hc.
    { intros ->. destruct Ha as [Ha|[Ha|[Ha _]]]; [| |done].
      - unfold GPU_ONLY_PROPERTIES in Ha. rewrite !elem_of_cons, elem_of_nil in Ha.
        intuition discriminate.
      - unfold metadata in Ha. rewrite !elem_of_cons, elem_of_nil in Ha.
        intuition discriminate. }
    rewrite scheduled_vars_lookup, !decide_False by done.
    rewrite Hout. apply (keeps_allowed p key v Hv) in Ha. by rewrite Ha, Hv.
Qed.

Lemma safeAnimate_schedules_witness :
  let p := <["duration" := VNum (num 5)]> sample_request in
  attr_is_bag p ∧
  animationCount GPUOnlyAnimationBuilder.new < MAX_CONCURRENT_ANIMATIONS ∧
  ∃ b' tw,
    safeAnimate "path" p (Fin (1 # 100)) (VStr "none") (num 2)
      GPUOnlyAnimationBuilder.new = (Ok tt, b') ∧
    timeline b' = timeline GPUOnlyAnimationBuilder.new ++ [tw] ∧
    target tw = "path" ∧ position tw = num 2 ∧ completions tw = 0%nat ∧
    vars tw !! "duration"
    = Some (Value (VNum (Math_max (Fin (1 # 100)) MIN_ANIMATION_DURATION))) ∧
    (Fin (1 # 100) ≠ NaN →
     num_leb MIN_ANIMATION_DURATION (Math_max (Fin (1 # 100)) MIN_ANIMATION_DURATION)
     = true) ∧
    vars tw !! "ease" = Some (Value (VStr "none")) ∧
    vars tw !! "onComplete" = Some OnComplete ∧
    (∀ key x, key ≠ "duration" → key ≠ "ease" → key ≠ "onComplete" →
       vars tw !! key = Some x → ∃ v, x = Value v ∧ p !! key = Some v ∧ allowed key v) ∧
    (∀ key v, key ≠ "duration" → key ≠ "ease" →
       p !! key = Some v → allowed key v → vars tw !! key = Some (Value v)).
Proof.
  intros p.
  assert (H : attr_is_bag p) by (by split; vm_compute).
  assert (C : animationCount GPUOnlyAnimationBuilder.new < MAX_CONCURRENT_ANIMATIONS)
    by (by vm_compute).
  split; [exact H|]. split; [exact C|].
  exact (safeAnimate_schedules GPUOnlyAnimationBuilder.new "path" p (Fin (1 # 100))
           (VStr "none") (num 2) H C).
Defined.

Lemma perform_well_scheduled a b :
  Forall well_scheduled (timeline b) → Forall well_scheduled (timeline (perform a b).2).
Proof.
  intros Hb. destruct a as [t p d e dl|i]; cbn [perform].
  - destruct (filterGPUProperties p (console b)) as [[out|err] c'] eqn:Hrun.
    + rewrite (safeAnimate_run _ _ _ _ _ _ _ _ Hrun). cbn [snd].
      destruct (MAX_CONCURRENT_ANIMATIONS <=? animationCount b); [done|].
      cbn [timeline]. apply Forall_app. split; [done|].
      apply Forall_singleton. unfold well_scheduled. cbn [vars].
      split; [by rewrite scheduled_vars_lookup|]. split; [|split].
      * intros key x. by eapply scheduled_vars_allowed.
      * by rewrite scheduled_vars_lookup.
      * eexists. split; [by rewrite scheduled_vars_lookup|].
        by apply Math_max_floor.
    + by rewrite (safeAnimate_throws _ _ _ _ _ _ _ _ Hrun).
  - destruct (timeline b !! i) as [tw|] eqn:Hi; [|by rewrite complete_none].
    pose proof (Forall_lookup_1 _ _ _ _ Hb Hi) as Htw.
    rewrite (complete_run i b tw Hi (proj1 Htw)). cbn [snd timeline].
    by apply Forall_insert.
Qed.

(** X3: nothing but GPU-safe variables reaches the timeline.  After every
    sequence of requests and of [onComplete] calls, every tween on the
    builder's timeline carries, besides the arrow function under
    [onComplete], only values under allow-listed keys, among them an ease and
    a duration that is at least the minimum of 0.05 (or [NaN], when [NaN] was
    requested). *)
Theorem timeline_gpu_only (actions : list action) :
  Forall well_scheduled (timeline (run actions GPUOnlyAnimationBuilder.new)).
Proof.
  assert (∀ b, Forall well_scheduled (timeline b) →
               Forall well_scheduled (timeline (run actions b))) as H.
  { induction actions as [|a actions IH]; intros b Hb; [done|].
    cbn [run fold_left]. apply IH. by apply perform_well_scheduled. }
  apply H. by apply Forall_nil.
Qed.

(** ** batchAnimate *)

Lemma forEach_app {S A} (f : A → M S unit) l1 l2 s :
  forEach f (l1 ++ l2) s = bind (forEach f l1) (λ _, forEach f l2) s.
Proof.
  revert s. induction l1 as [|x l1 IH]; intros s; [done|].
  cbn [app forEach]. unfold bind.
  destruct (f x s) as [[[]|e] s']; [|done]. rewrite IH. by unfold bind.
Qed.

Lemma batch_loop_run fuel : ∀ i animations b,
  (length animations - i ≤ fuel)%nat →
  batch_loop fuel i animations b = forEach safeAnimate_anim (drop i animations) b.
Proof.
  induction fuel as [|fuel IH]; intros i animations b Hfuel.
  - rewrite drop_ge by lia. done.
  - cbn [batch_loop]. destruct (Nat.ltb_spec i (length animations)) as [Hlt|Hge].
    + rewrite <- (take_drop 4 (drop i animations)).
      rewrite forEach_app. unfold slice, bind.
      replace (i + 4 - i)%nat with 4%nat by lia.
      destruct (forEach safeAnimate_anim (take 4 (drop i animations)) b)
        as [[[]|e] b']; [|done].
      rewrite IH by lia. by rewrite drop_drop.
    + rewrite drop_ge by lia. done.
Qed.

(** X4: the chunks of [batchAnimate] change nothing.  On every list of
    requests and every builder, [batchAnimate] does what [safeAnimate] called
    on each request in turn does: the same result, the same count, the same
    timeline, the same warnings, and the same exception at the same request if
    one of them throws. *)
Theorem batchAnimate_sequential (animations : list Animation) (b : Builder) :
  batchAnimate animations b = forEach safeAnimate_anim animations b.
Proof.
  unfold batchAnimate. rewrite batch_loop_run by lia. by rewrite drop_0.
Qed.

Lemma forEach_safeAnimate_count animations : ∀ b,
  animationCount b ≤ MAX_CONCURRENT_ANIMATIONS →
  Forall (λ anim, attr_is_bag (anim_properties anim)) animations →
  ∃ b', forEach safeAnimate_anim animations b = (Ok tt, b') ∧
    animationCount b'
    = Z.min (animationCount b + Z.of_nat (length animations)) MAX_CONCURRENT_ANIMATIONS ∧
    Z.of_nat (length (timeline b'))
    = Z.of_nat (length (timeline b)) + (animationCount b' - animationCount b).
Proof.
  induction animations as [|anim animations IH]; intros b Hcap Hbags.
  - exists b. split; [done|]. cbn [length]. lia.
  - apply Forall_cons in Hbags as [Hbag Hbags].
    destruct (filterGPUProperties_run _ (console b) Hbag) as (out & extra & Hrun & _).
    cbn [forEach]. unfold bind at 1. unfold safeAnimate_anim at 1.
    rewrite (safeAnimate_run _ _ _ _ _ _ _ _ Hrun).
    destruct (Z.leb_spec MAX_CONCURRENT_ANIMATIONS (animationCount b)) as [Hge|Hlt];
      cbv iota.
    + destruct (IH {| animationCount := animationCount b; timeline := timeline b;
                      console := (console b ++ extra) ++ [LimitReached] |})
        as (b' & -> & Hc & Hl); [done..|].
      exists b'. split; [done|]. cbn [animationCount timeline length] in *. lia.
    + destruct (IH {| animationCount := animationCount b + 1;
                      timeline := timeline b ++ [ {| target := anim_target anim;
                        vars := scheduled_vars out
                                  (Math_max (default (num 1) (anim_duration anim))
                                     MIN_ANIMATION_DURATION)
                                  (match anim_ease anim with
                                   | None | Some VUndefined => VStr "power2.out"
                                   | Some ease => ease
                                   end);
                        position := default (num 0) (anim_delay anim);
                        completions := 0 |} ];
                      console := console b ++ extra |})
        as (b' & -> & Hc & Hl); [cbn [animationCount]; lia | done |].
      exists b'. split; [done|]. cbn [animationCount timeline length] in *.
      rewrite length_app in Hl. cbn [length] in Hl. lia.
Qed.

(** X5: a batch fills the free slots and no more.  On a builder within
    the cap, a batch of [n] requests (whose [attr], if any, is an attribute
    bag) returns; afterwards the count is [min(count + n, 8)], and the
    timeline has grown by exactly the number of requests that found a free
    slot: the others were dropped. *)
Theorem batchAnimate_count (animations : list Animation) (b : Builder) :
  animationCount b ≤ MAX_CONCURRENT_ANIMATIONS →
  Forall (λ anim, attr_is_bag (anim_properties anim)) animations →
  ∃ b', batchAnimate animations b = (Ok tt, b') ∧
    animationCount b'
    = Z.min (animationCount b + Z.of_nat (length animations)) MAX_CONCURRENT_ANIMATIONS ∧
    Z.of_nat (length (timeline b'))
    = Z.of_nat (length (timeline b)) + (animationCount b' - animationCount b).
Proof.
  intros Hcap Hbags. unfold batchAnimate. rewrite batch_loop_run by lia.
  rewrite drop_0.
  by apply forEach_safeAnimate_count.
Qed.

Lemma batchAnimate_count_witness :
  animationCount GPUOnlyAnimationBuilder.new ≤ MAX_CONCURRENT_ANIMATIONS ∧
  Forall (λ anim, attr_is_bag (anim_properties anim)) sample_batch ∧
  ∃ b', batchAnimate sample_batch GPUOnlyAnimationBuilder.new = (Ok tt, b') ∧
    animationCount b'
    = Z.min (animationCount GPUOnlyAnimationBuilder.new
             + Z.of_nat (length sample_batch)) MAX_CONCURRENT_ANIMATIONS ∧
    Z.of_nat (length (timeline b'))
    = Z.of_nat (length (timeline GPUOnlyAnimationBuilder.new))
      + (animationCount b' - animationCount GPUOnlyAnimationBuilder.new).
Proof.
  assert (C : animationCount GPUOnlyAnimationBuilder.new ≤ MAX_CONCURRENT_ANIMATIONS)
    by (by vm_compute).
  assert (B : Forall (λ anim, attr_is_bag (anim_properties anim)) sample_batch).
  { unfold sample_batch. apply Forall_replicate. by split; vm_compute. }
  split; [exact C|]. split; [exact B|].
  exact (batchAnimate_count sample_batch GPUOnlyAnimationBuilder.new C B).
Defined.

(** Twelve requests in one batch: eight tweens, four warnings. *)
Example batchAnimate_twelve :
  let b := (batchAnimate sample_batch GPUOnlyAnimationBuilder.new).2 in
  animationCount b = 8 ∧ length (timeline b) = 8%nat ∧
  length (List.filter (λ e, match e with LimitReached => true | _ => false end)
            (console b)) = 4%nat.
Proof. by vm_compute. Qed.

(** ** The bundles *)

(** X6: what [shouldAnimate] refuses.  [shouldAnimate] answers [false] in
    one situation only: the builder has a monitor, the monitor is at the low
    level, and the type asked about is [squash], [secondaryAction] or
    [jiggle].  Without a monitor, at the medium or high level, and for every
    other type, the answer is [true]. *)
Theorem shouldAnimate_refuses {W} (performanceMonitor : option (Monitor W))
    (animationType : string) :
  GPUOnlyAnimationBuilder.shouldAnimate performanceMonitor animationType = false ↔
  ∃ m, performanceMonitor = Some m ∧ performanceLevel m = low ∧
       animationType ∈ ["squash"; "secondaryAction"; "jiggle"].
Proof.
  unfold GPUOnlyAnimationBuilder.shouldAnimate, GPUOnlyAnimationBuilder.getConstraints,
    getConstraints.
  split.
  - destruct (String.eqb_spec animationType "squash") as [->|H1];
      [|destruct (String.eqb_spec animationType "secondaryAction") as [->|H2];
        [|destruct (String.eqb_spec animationType "jiggle") as [->|H3]; [|done]]].
    all: destruct performanceMonitor as [m|]; [|done].
    all: destruct (performanceLevel m) eqn:El; try done.
    all: intros _; exists m; split; [done|]; split; [done|]; set_solver.
  - intros (m & -> & -> & Hin). rewrite !elem_of_cons, elem_of_nil in Hin.
    by destruct Hin as [->|[->|[->|[]]]].
Qed.

(** X7: the bundles tighten with the level and stay within the hard
    constraints.  A lower level never allows more than a higher one: fewer
    or as many segments, jiggles and variation, and no effect that the higher
    level forbids.  And at every level the bundle is within the ceilings of
    [validateParameters]: at most [MAX_SEGMENTS_PER_YEAR] segments, at most
    [MAX_TIMING_VARIATION] variation, a jiggle of at most 3. *)
Theorem getConstraints_tighten {W} (m1 m2 : Monitor W) :
  rank (performanceLevel m1) ≤ rank (performanceLevel m2) →
  let b1 := getConstraints m1 in
  let b2 := getConstraints m2 in
  num_leb (maxSegments b1) (maxSegments b2) = true ∧
  num_leb (maxJiggle b1) (maxJiggle b2) = true ∧
  num_leb (maxVariation b1) (maxVariation b2) = true ∧
  (allowSquash b1 = true → allowSquash b2 = true) ∧
  (allowSecondaryAction b1 = true → allowSecondaryAction b2 = true) ∧
  num_leb (maxSegments b2) MAX_SEGMENTS_PER_YEAR = true ∧
  num_leb (maxVariation b2) MAX_TIMING_VARIATION = true ∧
  num_leb (maxJiggle b2) (num 3) = true.
Proof.
  unfold getConstraints.
  destruct (performanceLevel m1), (performanceLevel m2); cbn [rank];
    intros H; try lia; by vm_compute.
Qed.

Lemma getConstraints_tighten_witness :
  let m1 := set_performanceLevel low (monitor demo_world) in
  let m2 := monitor demo_world in
  rank (performanceLevel m1) ≤ rank (performanceLevel m2) ∧
  let b1 := getConstraints m1 in
  let b2 := getConstraints m2 in
  num_leb (maxSegments b1) (maxSegments b2) = true ∧
  num_leb (maxJiggle b1) (maxJiggle b2) = true ∧
  num_leb (maxVariation b1) (maxVariation b2) = true ∧
  (allowSquash b1 = true → allowSquash b2 = true) ∧
  (allowSecondaryAction b1 = true → allowSecondaryAction b2 = true) ∧
  num_leb (maxSegments b2) MAX_SEGMENTS_PER_YEAR = true ∧
  num_leb (maxVariation b2) MAX_TIMING_VARIATION = true ∧
  num_leb (maxJiggle b2) (num 3) = true.
Proof.
  intros m1 m2.
  assert (H : rank (performanceLevel m1) ≤ rank (performanceLevel m2)) by (by vm_compute).
  split; [exact H | exact (getConstraints_tighten m1 m2 H)].
Defined.

(** X8: the strict mode writes the low bundle.  After [enforceConstraints]
    at the low level, the four fields it has written hold the values of the
    bundle that [getConstraints] returns at that level: [maxSegments],
    [maxJiggle], [maxVariation] and [allowSquash]. *)
Theorem enforceConstraints_writes_bundle {W} (w : World W) (p : params) :
  animationEngine w = Some p → engine_groups p →
  performanceLevel (monitor w) = low →
  ∃ w' p', enforceConstraints w = (Ok tt, w') ∧ animationEngine w' = Some p' ∧
    let bundle := getConstraints (monitor w') in
    read_field "timing" "maxSegments" p' = Some (FNum (maxSegments bundle)) ∧
    read_field "secondaryAction" "jiggleIntensity" p' = Some (FNum (maxJiggle bundle)) ∧
    read_field "timing" "organicVariation" p' = Some (FNum (maxVariation bundle)) ∧
    read_field "squashAndStretch" "enabled" p' = Some (FBool (allowSquash bundle)).
Proof.
  intros He Hp Hlow. eexists _, (strict_mode p).
  split; [by apply enforceConstraints_low|]. split; [done|].
  cbn [monitor]. unfold getConstraints. rewrite Hlow.
  cbn [maxSegments maxJiggle maxVariation allowSquash].
  by apply strict_mode_clamped.
Qed.

Lemma enforceConstraints_writes_bundle_witness :
  let w := with_monitor (set_performanceLevel low) demo_world in
  let p := ButteryAnimationEngine.animationParams in
  animationEngine w = Some p ∧ engine_groups p ∧
  performanceLevel (monitor w) = low ∧
  ∃ w' p', enforceConstraints w = (Ok tt, w') ∧ animationEngine w' = Some p' ∧
    let bundle := getConstraints (monitor w') in
    read_field "timing" "maxSegments" p' = Some (FNum (maxSegments bundle)) ∧
    read_field "secondaryAction" "jiggleIntensity" p' = Some (FNum (maxJiggle bundle)) ∧
    read_field "timing" "organicVariation" p' = Some (FNum (maxVariation bundle)) ∧
    read_field "squashAndStretch" "enabled" p' = Some (FBool (allowSquash bundle)).
Proof.
  intros w p.
  assert (G : engine_groups p)
    by (unfold engine_groups; cbn; do 3 eexists; by repeat split).
  split; [reflexivity|]. split; [exact G|]. split; [reflexivity|].
  exact (enforceConstraints_writes_bundle w p eq_refl G eq_refl).
Defined.

(** ** The strict mode, then validateParameters *)

Lemma read_field_group g f p v :
  read_field g f p = Some v → ∃ o, p !! g = Some (Group o) ∧ o !! f = Some v.
Proof.
  unfold read_field. destruct (p !! g) as [[o|]|]; try done. intros H. by exists o.
Qed.

(** X9: [validateParameters] turns the jiggle back on.  Run on parameters
    that the strict mode has clamped, [validateParameters] returns and keeps
    [maxSegments = 2], [organicVariation = 0.1] and [enabled = false], but the
    clamped [jiggleIntensity] of [0] is falsy: the default takes its place,
    and the field holds [2] afterwards. *)
Theorem validateParameters_after_strict_mode (p : params) :
  engine_groups p →
  ∃ p', validateParameters (strict_mode p) = (Ok tt, p') ∧
    read_field "timing" "maxSegments" p' = Some (FNum (num 2)) ∧
    read_field "timing" "organicVariation" p' = Some (FNum (Fin (1 # 10))) ∧
    read_field "squashAndStretch" "enabled" p' = Some (FBool false) ∧
    read_field "secondaryAction" "jiggleIntensity" (strict_mode p) = Some (FNum (num 0)) ∧
    read_field "secondaryAction" "jiggleIntensity" p' = Some (FNum (num 2)).
Proof.
  intros Hp. destruct (strict_mode_clamped p Hp) as (H1 & H2 & H3 & H4).
  destruct (strict_mode_groups p Hp) as (t & s & q & Ht & Hs & Hq).
  assert (Htyped : groups_typed (strict_mode p)).
  { unfold groups_typed, object_or_absent. by rewrite Ht, Hs, Hq. }
  exists (validated (strict_mode p)).
  split; [by apply validateParameters_run|].
  split; [|split; [|split; [|split; [done|]]]].
  - apply read_field_group in H1 as (o & E & F). rewrite Ht in E. injection E as <-.
    rewrite (read_field_validated
               {| grp := "timing"; fld := "maxSegments"; dflt := num 4;
                  bnd := Ceiling (num 4) |} _ t); [|unfold rules; by left|done].
    cbn [fld]. rewrite F. by vm_compute.
  - apply read_field_group in H3 as (o & E & F). rewrite Ht in E. injection E as <-.
    rewrite (read_field_validated
               {| grp := "timing"; fld := "organicVariation"; dflt := Fin (3 # 10);
                  bnd := Ceiling (Fin (5 # 10)) |} _ t);
      [|unfold rules; by right; left|done].
    cbn [fld]. rewrite F. by vm_compute.
  - apply read_field_group in H4 as (o & E & F). rewrite Hq in E. injection E as <-.
    unfold read_field. rewrite validated_lookup, Hq.
    cbn [fmap option_fmap option_map clamp_entry].
    unfold clamp_group, clamp_rule.
    cbn [rules_of rules List.filter grp fld String.eqb Ascii.eqb Bool.eqb fold_left].
    by rewrite !lookup_insert_ne.
  - apply read_field_group in H2 as (o & E & F). rewrite Hs in E. injection E as <-.
    rewrite (read_field_validated
               {| grp := "secondaryAction"; fld := "jiggleIntensity"; dflt := num 2;
                  bnd := Ceiling (num 3) |} _ s);
      [|unfold rules; by do 2 right; left|done].
    cbn [fld]. rewrite F. by vm_compute.
Qed.

Lemma validateParameters_after_strict_mode_witness :
  let p := ButteryAnimationEngine.animationParams in
  engine_groups p ∧
  ∃ p', validateParameters (strict_mode p) = (Ok tt, p') ∧
    read_field "timing" "maxSegments" p' = Some (FNum (num 2)) ∧
    read_field "timing" "organicVariation" p' = Some (FNum (Fin (1 # 10))) ∧
    read_field "squashAndStretch" "enabled" p' = Some (FBool false) ∧
    read_field "secondaryAction" "jiggleIntensity" (strict_mode p) = Some (FNum (num 0)) ∧
    read_field "secondaryAction" "jiggleIntensity" p' = Some (FNum (num 2)).
Proof.
  intros p.
  assert (G : engine_groups p)
    by (unfold engine_groups; cbn; do 3 eexists; by repeat split).
  split; [exact G | exact (validateParameters_after_strict_mode p G)].
Defined.

(** ** The fields of the monitor along a run *)

Section MonitorRuns.
Context {W : Type}.
Implicit Types (w : World W) (m : Monitor W).

Lemma keeps_monitor_ret {A} (a : A) : keeps_monitor (W := W) (ret a).
Proof. by intros w. Qed.

Lemma keeps_monitor_emit e : keeps_monitor (W := W) (emit e).
Proof. by intros w. Qed.

Lemma keeps_monitor_bind {A B} (c : M (World W) A) (k : A → M (World W) B) :
  keeps_monitor c → (∀ a, keeps_monitor (k a)) → keeps_monitor (bind c k).
Proof.
  intros Hc Hk w. unfold bind. specialize (Hc w).
  destruct (c w) as [[a|e] w1]; cbn [snd] in *; [|done].
  by rewrite Hk.
Qed.

Lemma keeps_monitor_on_engine {A} (c : M params A) : keeps_monitor (W := W) (on_engine c).
Proof.
  intros w. unfold on_engine. destruct (animationEngine w) as [p|]; [|done].
  by destruct (c p).
Qed.

Lemma keeps_monitor_enforceConstraints : keeps_monitor (W := W) enforceConstraints.
Proof.
  intros w. unfold enforceConstraints, bind at 1, get at 1.
  apply (keeps_monitor_bind (emit _)); [apply keeps_monitor_emit|]. intros _.
  case_decide; [|apply keeps_monitor_ret].
  apply keeps_monitor_bind; [apply keeps_monitor_emit|]. intros _.
  destruct (animationEngine w); [|apply keeps_monitor_ret].
  repeat (apply keeps_monitor_bind; [apply keeps_monitor_on_engine|]; intros _).
  unfold showPerformanceWarning. intros w'. by unfold bind, get.
Qed.

Lemma adjustPerformanceLevel_monitor w :
  monitor (adjustPerformanceLevel w).2
  = set_performanceLevel (classify (fps (monitor w))) (monitor w).
Proof.
  unfold adjustPerformanceLevel.
  unfold bind at 1. unfold get at 1.
  unfold bind at 1. unfold set_monitor at 1, modify at 1.
  unfold bind at 1. unfold get at 1.
  cbn [monitor performanceLevel set_performanceLevel].
  case_decide; [|done].
  unfold bind at 1. unfold emit at 1, modify at 1.
  by rewrite keeps_monitor_enforceConstraints.
Qed.

Lemma window_close_monitor now w :
  monitor (window_close now w).2
  = set_performanceLevel (classify (fps (monitor w)))
      (set_history
         (List.filter (λ entry, now - 60000 <? timestamp entry)
            (history (monitor w) ++
             [{| sample_fps := fps (monitor w); timestamp := now;
                 sample_level := performanceLevel (monitor w) |}]))
         (monitor w)).
Proof.
  unfold window_close.
  unfold bind at 1. rewrite updateHistory_run.
  unfold bind at 1.
  match goal with |- context [adjustPerformanceLevel ?w1] =>
    pose proof (adjustPerformanceLevel_monitor w1) as Hadj;
    destruct (adjustPerformanceLevel w1) as [[[]|e] w2] end;
    cbn [snd monitor fps performanceLevel set_history] in Hadj; [|done].
  unfold bind at 1. rewrite notifyCallbacks_run. cbn [snd].
  unfold updateUI, bind, get, emit, modify. by cbn [snd monitor].
Qed.

Lemma request_monitor {A} (c : M (World W) A) w :
  monitor (bind c (λ _, requestAnimationFrame) w).2 = monitor (c w).2.
Proof. unfold bind. by destruct (c w) as [[a|e] w1]. Qed.

(** The fields of the monitor after a frame, whatever the engine and the
    subscribers are, and whether or not the frame throws. *)
Lemma tick_monitor currentTime now w :
  monitor (tick currentTime now w).2 = frame_effect currentTime now (monitor w).
Proof.
  unfold tick, frame_effect.
  unfold bind at 1. unfold get at 1.
  destruct (monitoring (monitor w)); cbn [negb]; [|done].
  unfold bind at 1. unfold set_monitor at 1, modify at 1.
  unfold bind at 1. unfold get at 1.
  cbn [monitor lastTime set_frameCount].
  rewrite request_monitor.
  destruct (Qle_bool 1000 (currentTime - lastTime (monitor w))); [|done].
  unfold bind at 1. unfold set_monitor at 1, modify at 1.
  unfold bind at 1. unfold set_monitor at 1, modify at 1.
  unfold bind at 1. unfold set_monitor at 1, modify at 1.
  rewrite window_close_monitor.
  by cbn [monitor frameCount fps performanceLevel history set_frameCount set_fps
          set_lastTime].
Qed.

Lemma step_monitor w w' :
  step w w' →
  (∃ currentTime now, monitor w' = frame_effect currentTime now (monitor w)) ∨
  (∃ callback, monitor w' = set_callbacks (callbacks (monitor w) ++ [callback]) (monitor w)) ∨
  monitor w' = set_monitoring false (monitor w) ∨
  monitor w' = set_monitoring true (monitor w) ∨
  monitor w' = monitor w.
Proof.
  intros [currentTime now v | cb v | v | v].
  - left. exists currentTime, now. rewrite frame_callback_run.
    apply (tick_monitor currentTime now (dequeued v)).
  - right; left. by exists cb.
  - do 2 right; left. done.
  - unfold start, startMonitoring, requestAnimationFrame, bind, get, ret,
      set_monitor, modify.
    destruct (monitoring (monitor v)); cbn [negb snd monitor].
    + by do 4 right.
    + by do 3 right; left.
Qed.

End MonitorRuns.

Section MonitorInvariants.
Context {W : Type}.
Implicit Types (w : World W) (m : Monitor W).

Lemma frame_effect_callbacks currentTime now m :
  callbacks (frame_effect currentTime now m) = callbacks m.
Proof.
  unfold frame_effect. destruct (monitoring m); cbn [negb]; [|done].
  by destruct (Qle_bool 1000 (currentTime - lastTime m)).
Qed.

Lemma frame_effect_classified currentTime now m :
  performanceLevel m = classify (fps m) →
  performanceLevel (frame_effect currentTime now m)
  = classify (fps (frame_effect currentTime now m)).
Proof.
  intros Hm. unfold frame_effect. destruct (monitoring m); cbn [negb]; [|done].
  by destruct (Qle_bool 1000 (currentTime - lastTime m)).
Qed.

Lemma step_classified w w' :
  performanceLevel (monitor w) = classify (fps (monitor w)) → step w w' →
  performanceLevel (monitor w') = classify (fps (monitor w')).
Proof.
  intros Hm Hstep.
  destruct (step_monitor w w' Hstep) as [(t & now & ->) | [(cb & ->) | [-> | [-> | ->]]]];
    try done.
  by apply frame_effect_classified.
Qed.

Lemma step_callbacks w w' :
  step w w' → callbacks (monitor w) `prefix_of` callbacks (monitor w').
Proof.
  intros Hstep.
  destruct (step_monitor w w' Hstep) as [(t & now & ->) | [(cb & ->) | [-> | [-> | ->]]]];
    try done.
  - by rewrite frame_effect_callbacks.
  - by apply prefix_app_r.
Qed.

Lemma frame_effect_closing currentTime now m :
  monitoring m = true → Qle_bool 1000 (currentTime - lastTime m) = true →
  let rate := measured_fps (frameCount m + 1) (currentTime - lastTime m) in
  fps (frame_effect currentTime now m) = rate ∧
  performanceLevel (frame_effect currentTime now m) = classify rate ∧
  frameCount (frame_effect currentTime now m) = 0 ∧
  lastTime (frame_effect currentTime now m) = currentTime ∧
  history (frame_effect currentTime now m)
  = List.filter (λ entry, now - 60000 <? timestamp entry) (history m) ++
    [{| sample_fps := rate; timestamp := now; sample_level := performanceLevel m |}].
Proof.
  intros Hm Hc rate. unfold frame_effect. rewrite Hm, Hc. cbn [negb].
  cbn [fps performanceLevel frameCount lastTime history set_performanceLevel set_history
       set_lastTime set_frameCount set_fps].
  do 4 (split; [done|]).
  rewrite List.filter_app. cbn [List.filter timestamp].
  by rewrite (proj2 (Z.ltb_lt (now - 60000) now)) by lia.
Qed.

End MonitorInvariants.

(** X10: the level is a function of the last measured rate.  In every
    state that a monitor reaches from its constructor, by frames,
    subscriptions, stops and starts, with any engine and any subscribers,
    [performanceLevel] is the class of [fps]: low under 45, medium under
    55, high from 55.  No earlier sample has any influence. *)
Theorem level_follows_rate {W} (w w' : World W) (created : Q) :
  monitor w = PerformanceMonitor.new created → rtc step w w' →
  performanceLevel (monitor w') = classify (fps (monitor w')).
Proof.
  intros Hnew Hsteps.
  assert (H0 : performanceLevel (monitor w) = classify (fps (monitor w)))
    by (by rewrite Hnew).
  clear Hnew. induction Hsteps as [w | w w1 w2 Hstep _ IH]; [done|].
  apply IH. by eapply step_classified.
Qed.

Lemma level_follows_rate_witness :
  let w := with_monitor (λ _, PerformanceMonitor.new 0) demo_world in
  let w' := (frame_callback 1000 0 (onPerformanceChange (λ _ _ _, ret tt) w).2).2 in
  monitor w = PerformanceMonitor.new 0 ∧ rtc step w w' ∧
  performanceLevel (monitor w') = classify (fps (monitor w')).
Proof.
  intros w w'.
  assert (S : rtc step w w').
  { eapply rtc_l; [apply (step_onPerformanceChange (λ _ _ _, ret tt))|].
    apply rtc_once. apply step_tick. }
  split; [reflexivity|]. split; [exact S|].
  exact (level_follows_rate w w' 0%Q eq_refl S).
Defined.

(** X11: a subscriber is never removed.  Along every run of the monitor
    the list of subscribers only grows at its end: the subscribers of an
    earlier state are, in the same order and at the same indices, the first
    subscribers of every later state. *)
Theorem subscribers_stay {W} (w w' : World W) :
  rtc step w w' → callbacks (monitor w) `prefix_of` callbacks (monitor w').
Proof.
  intros Hsteps. induction Hsteps as [w | w w1 w2 Hstep _ IH]; [done|].
  etrans; [by apply step_callbacks|done].
Qed.

Lemma subscribers_stay_witness :
  let w' := (frame_callback 1000 0
               (onPerformanceChange (λ _ _ _, ret tt) demo_world).2).2 in
  rtc step demo_world w' ∧
  callbacks (monitor demo_world) `prefix_of` callbacks (monitor w').
Proof.
  intros w'.
  assert (S : rtc step demo_world w').
  { eapply rtc_l; [apply (step_onPerformanceChange (λ _ _ _, ret tt))|].
    apply rtc_once. apply step_tick. }
  split; [exact S | exact (subscribers_stay demo_world w' S)].
Defined.

(** X12: the history after a window.  The frame that closes a window
    (with any engine, and even if the enforcement throws) leaves a history
    whose last sample is the new one: the measured rate, the time [now], and
    the level the monitor had before this window was classified.  Before it
    come exactly the earlier samples that are younger than 60 seconds; every
    sample of the history is younger than 60 seconds. *)
Theorem history_window {W} (w : World W) (currentTime : Q) (now : Z) :
  monitoring (monitor w) = true →
  Qle_bool 1000 (currentTime - lastTime (monitor w)) = true →
  let w' := (tick currentTime now w).2 in
  ∃ older,
    history (monitor w')
    = older ++ [{| sample_fps := fps (monitor w'); timestamp := now;
                   sample_level := performanceLevel (monitor w) |}] ∧
    fps (monitor w')
    = measured_fps (frameCount (monitor w) + 1) (currentTime - lastTime (monitor w)) ∧
    (∀ e, e ∈ older ↔ e ∈ history (monitor w) ∧ now - 60000 < timestamp e) ∧
    Forall (λ e, now - 60000 < timestamp e) (history (monitor w')).
Proof.
  intros Hm Hc w'. subst w'. rewrite tick_monitor.
  destruct (frame_effect_closing currentTime now (monitor w) Hm Hc)
    as (Hf & _ & _ & _ & Hh).
  exists (List.filter (λ entry, now - 60000 <? timestamp entry) (history (monitor w))).
  rewrite Hh, Hf. split; [done|]. split; [done|].
  assert (∀ e, e ∈ List.filter (λ entry, now - 60000 <? timestamp entry)
                     (history (monitor w))
               ↔ e ∈ history (monitor w) ∧ now - 60000 < timestamp e) as Hin.
  { intros e. rewrite !list_elem_of_In, filter_In. by rewrite Z.ltb_lt. }
  split; [done|].
  apply Forall_app. split.
  - apply Forall_forall. intros e He. by apply Hin in He as [_ ?].
  - apply Forall_singleton. cbn [timestamp]. lia.
Qed.

Lemma history_window_witness :
  let w := demo_world in
  monitoring (monitor w) = true ∧
  Qle_bool 1000 (1000 - lastTime (monitor w)) = true ∧
  let w' := (tick 1000 5000 w).2 in
  ∃ older,
    history (monitor w')
    = older ++ [{| sample_fps := fps (monitor w'); timestamp := 5000;
                   sample_level := performanceLevel (monitor w) |}] ∧
    fps (monitor w')
    = measured_fps (frameCount (monitor w) + 1) (1000 - lastTime (monitor w)) ∧
    (∀ e, e ∈ older ↔ e ∈ history (monitor w) ∧ 5000 - 60000 < timestamp e) ∧
    Forall (λ e, 5000 - 60000 < timestamp e) (history (monitor w')).
Proof.
  intros w. split; [reflexivity|]. split; [reflexivity|].
  exact (history_window w 1000%Q 5000 eq_refl eq_refl).
Defined.

(** ** stop and start *)

Section FrameQueue.
Context {W : Type}.
Implicit Types (w v : World W).

(** A callback that finds the monitor stopped leaves the queue for
    good. *)
Lemma run_callbacks_stopped clock n : ∀ k w,
  monitoring (monitor w) = false →
  run_callbacks n k clock w = with_frameRequests (frameRequests w - n) w.
Proof.
  induction n as [|n IH]; intros k w Hm.
  - cbn [run_callbacks]. rewrite Nat.sub_0_r. by destruct w.
  - cbn [run_callbacks]. rewrite frame_callback_run, tick_idle by done.
    cbn [snd]. rewrite IH by done. unfold with_frameRequests, dequeued.
    cbn [monitor animationEngine outside trace frameRequests]. f_equal. lia.
Qed.

(** Callbacks that find the monitor running, inside a window: each one
    counts a frame and queues itself again. *)
Lemma run_callbacks_counting clock n : ∀ k w,
  monitoring (monitor w) = true → (n ≤ frameRequests w)%nat →
  (∀ i, (i < n)%nat → Qle_bool 1000 ((clock (k + i)%nat).1 - lastTime (monitor w)) = false) →
  run_callbacks n k clock w
  = with_monitor (λ m, set_frameCount (frameCount m + Z.of_nat n) m) w.
Proof.
  induction n as [|n IH]; intros k w Hm Hn Hclock.
  - cbn [run_callbacks]. unfold with_monitor, set_frameCount.
    rewrite Z.add_0_r. by destruct w as [[] ? ? ? ?].
  - cbn [run_callbacks]. rewrite frame_callback_run.
    rewrite tick_counting;
      [|done|cbn [dequeued monitor]; rewrite <- (Nat.add_0_r k); apply Hclock; lia].
    cbn [snd]. rewrite IH.
    + unfold with_monitor, requested, dequeued, set_frameCount.
      cbn [monitor animationEngine outside trace frameRequests fps frameCount lastTime
           performanceLevel monitoring history callbacks].
      f_equal; [f_equal; lia|]. lia.
    + done.
    + cbn [requested with_monitor dequeued frameRequests]. lia.
    + intros i Hi. cbn [requested with_monitor dequeued monitor set_frameCount lastTime].
      replace (S k + i)%nat with (k + S i)%nat by lia. apply Hclock. lia.
Qed.

End FrameQueue.

(** X13: [start] after [stop] queues a second chain of frames.  [stop]
    only clears the flag, and the callback that is queued at that moment
    stays queued; [start] sets the flag and queues [tick] once more.  So
    [stop] and [start] with no frame in between leave the monitor as it was
    with one callback more in the queue, and from then on every frame inside
    a window counts one frame more than it did: the callbacks all find the
    monitor running and queue themselves again.  With a frame in between, the
    queued callbacks find the monitor stopped and are gone, and [start]
    leaves exactly one. *)
Theorem stop_start_second_chain {W} (w : World W) (clock : nat → Q * Z) :
  monitoring (monitor w) = true →
  let restarted := (start (stop w).2).2 in
  restarted = requested w ∧
  ((∀ i, Qle_bool 1000 ((clock i).1 - lastTime (monitor w)) = false) →
   animation_frame clock w
   = with_monitor (λ m, set_frameCount (frameCount m + Z.of_nat (frameRequests w)) m) w ∧
   animation_frame clock restarted
   = with_monitor (λ m, set_frameCount (frameCount m + Z.of_nat (frameRequests w) + 1) m)
       restarted) ∧
  (start (animation_frame clock (stop w).2)).2 = with_frameRequests 1 w.
Proof.
  intros Hm restarted.
  assert (Hre : restarted = requested w).
  { subst restarted. destruct w as [[f fc lt pl mo h cbs] e o tr n].
    cbn in Hm. subst mo. done. }
  split; [done|]. split.
  - intros Hclock. split.
    + unfold animation_frame. by rewrite run_callbacks_counting.
    + rewrite Hre. unfold animation_frame.
      rewrite run_callbacks_counting; [|done|done|intros i _; apply Hclock].
      cbn [requested frameRequests]. unfold with_monitor, set_frameCount.
      cbn [monitor animationEngine outside trace frameRequests fps frameCount lastTime
           performanceLevel monitoring history callbacks].
      f_equal. f_equal. lia.
  - unfold animation_frame. rewrite run_callbacks_stopped by done.
    rewrite Nat.sub_diag.
    destruct w as [[f fc lt pl mo h cbs] e o tr n]. cbn in Hm. subst mo. done.
Qed.

Lemma stop_start_second_chain_witness :
  let w := requested demo_world in
  let clock := λ _ : nat, (500%Q, 500) in
  monitoring (monitor w) = true ∧
  let restarted := (start (stop w).2).2 in
  restarted = requested w ∧
  ((∀ i, Qle_bool 1000 ((clock i).1 - lastTime (monitor w)) = false) →
   animation_frame clock w
   = with_monitor (λ m, set_frameCount (frameCount m + Z.of_nat (frameRequests w)) m) w ∧
   animation_frame clock restarted
   = with_monitor (λ m, set_frameCount (frameCount m + Z.of_nat (frameRequests w) + 1) m)
       restarted) ∧
  (start (animation_frame clock (stop w).2)).2 = with_frameRequests 1 w.
Proof.
  intros w clock. split; [reflexivity|].
  exact (stop_start_second_chain w clock eq_refl).
Defined.

(** Sixty frames in a second.  On one chain the rate measured at the end
    of the second is 60; after [stop] and [start] two callbacks run in every
    frame, and the first callback of the sixtieth frame closes the window on
    a count of 119. *)
Example restart_doubles_rate :
  let w := (construct 0 demo_world).2 in
  fps (monitor (run_frames second_of_frames w)) = 60 ∧
  fps (monitor (run_frames second_of_frames (start (stop w).2).2)) = 119 ∧
  frameRequests (run_frames second_of_frames (start (stop w).2).2) = 2%nat.
Proof. by vm_compute. Qed.

(** ** The order of the metrics *)

Lemma num_leb_num a b : a ≤ b → num_leb (num a) (num b) = true.
Proof.
  intros H. unfold num_leb, num, Qle_bool, inject_Z. cbn [Qnum Qden].
  apply Z.leb_le. lia.
Qed.

Lemma sum_bounds (zs : list Z) lo hi :
  (∀ x, x ∈ zs → lo ≤ x ≤ hi) →
  Z.of_nat (length zs) * lo ≤ foldr Z.add 0 zs ≤ Z.of_nat (length zs) * hi.
Proof.
  induction zs as [|z zs IH]; intros H; [cbn; lia|].
  assert (lo ≤ z ≤ hi) by (apply H; by left).
  assert (Z.of_nat (length zs) * lo ≤ foldr Z.add 0 zs ≤ Z.of_nat (length zs) * hi)
    by (apply IH; intros x Hx; apply H; by right).
  cbn [length foldr]. lia.
Qed.

Lemma round_within s n lo hi :
  0 < n → n * lo ≤ s ≤ n * hi → lo ≤ (2 * s + n) / (2 * n) ≤ hi.
Proof.
  intros Hn Hs. split.
  - apply Z.div_le_lower_bound; lia.
  - apply Z.lt_succ_r, Z.div_lt_upper_bound; lia.
Qed.

(** The metrics of a history that is not empty. *)
Lemma getMetrics_some {W} (m : Monitor W) e h :
  history m = e :: h →
  ∃ lo hi : Z,
    averageFPS (getMetrics m)
    = num ((2 * foldr Z.add 0 (sample_fps <$> e :: h) + Z.of_nat (length (e :: h)))
           / (2 * Z.of_nat (length (e :: h)))) ∧
    minFPS (getMetrics m) = num lo ∧ maxFPS (getMetrics m) = num hi ∧
    lo ∈ sample_fps <$> e :: h ∧ (∀ x, x ∈ sample_fps <$> e :: h → lo ≤ x) ∧
    hi ∈ sample_fps <$> e :: h ∧ (∀ x, x ∈ sample_fps <$> e :: h → x ≤ hi).
Proof.
  intros Eh. unfold getMetrics. cbn [averageFPS minFPS maxFPS]. rewrite Eh.
  cbn [length Nat.ltb Nat.leb].
  change (Z.of_nat (S (length h))) with (Z.pos (Pos.of_succ_nat (length h))).
  rewrite round_div, fold_sum, Z.add_0_l.
  unfold Math_min_spread, Math_max_spread. cbn [map fold_left].
  change (Math_min (Inf false) (num (sample_fps e))) with (num (sample_fps e)).
  change (Math_max (Inf true) (num (sample_fps e))) with (num (sample_fps e)).
  rewrite <- (map_map sample_fps num).
  destruct (fold_min_num (map sample_fps h) (sample_fps e)) as (lo & -> & Hlo1 & Hlo2).
  destruct (fold_max_num (map sample_fps h) (sample_fps e)) as (hi & -> & Hhi1 & Hhi2).
  by exists lo, hi.
Qed.

(** X14: the metrics are in order.  For every monitor, [getMetrics]
    returns [minFPS <= averageFPS <= maxFPS]: rounding the mean never takes
    it outside the recorded extremes. *)
Theorem getMetrics_ordered {W} (m : Monitor W) :
  num_leb (minFPS (getMetrics m)) (averageFPS (getMetrics m)) = true ∧
  num_leb (averageFPS (getMetrics m)) (maxFPS (getMetrics m)) = true.
Proof.
  destruct (history m) as [|e h] eqn:Eh.
  - unfold getMetrics. rewrite Eh. cbn [length Nat.ltb Nat.leb averageFPS minFPS maxFPS].
    split; by apply num_leb_num.
  - destruct (getMetrics_some m e h Eh) as (lo & hi & -> & -> & -> & _ & Hlo & _ & Hhi).
    assert (lo ≤ (2 * foldr Z.add 0 (sample_fps <$> e :: h) + Z.of_nat (length (e :: h)))
                 / (2 * Z.of_nat (length (e :: h))) ≤ hi) as [? ?].
    { apply round_within; [cbn [length]; lia|].
      rewrite <- (length_fmap sample_fps (e :: h)).
      apply sum_bounds. intros x Hx. split; [by apply Hlo | by apply Hhi]. }
    split; by apply num_leb_num.
Qed.

(** X15: after a window, the current rate is among the data.  Following
    the frame that closes a window, [getMetrics] has at least one data point
    and [minFPS <= currentFPS <= maxFPS]. *)
Theorem getMetrics_after_window {W} (w : World W) (currentTime : Q) (now : Z) :
  monitoring (monitor w) = true →
  Qle_bool 1000 (currentTime - lastTime (monitor w)) = true →
  let metrics := getMetrics (monitor (tick currentTime now w).2) in
  (1 ≤ dataPoints metrics)%nat ∧
  num_leb (minFPS metrics) (currentFPS metrics) = true ∧
  num_leb (currentFPS metrics) (maxFPS metrics) = true.
Proof.
  intros Hm Hc metrics. subst metrics. rewrite tick_monitor.
  destruct (frame_effect_closing currentTime now (monitor w) Hm Hc)
    as (Hf & _ & _ & _ & Hh).
  set (m' := frame_effect currentTime now (monitor w)) in *.
  assert (Hin : fps m' ∈ sample_fps <$> history m').
  { rewrite Hh, fmap_app. apply elem_of_app. right. cbn. rewrite Hf. by left. }
  destruct (history m') as [|e h] eqn:Eh; [by apply elem_of_nil in Hin|].
  destruct (getMetrics_some m' e h Eh) as (lo & hi & _ & Hmin & Hmax & _ & Hlo & _ & Hhi).
  rewrite Hmin, Hmax.
  assert (Hd : dataPoints (getMetrics m') = length (e :: h))
    by (unfold getMetrics; by rewrite Eh).
  rewrite Hd. split; [cbn [length]; lia|].
  change (currentFPS (getMetrics m')) with (num (fps m')).
  split; apply num_leb_num; [by apply Hlo | by apply Hhi].
Qed.

Lemma getMetrics_after_window_witness :
  let w := demo_world in
  monitoring (monitor w) = true ∧
  Qle_bool 1000 (1000 - lastTime (monitor w)) = true ∧
  let metrics := getMetrics (monitor (tick 1000 0 w).2) in
  (1 ≤ dataPoints metrics)%nat ∧
  num_leb (minFPS metrics) (currentFPS metrics) = true ∧
  num_leb (currentFPS metrics) (maxFPS metrics) = true.
Proof.
  intros w. split; [reflexivity|]. split; [reflexivity|].
  exact (getMetrics_after_window w 1000%Q 0 eq_refl eq_refl).
Defined.

(** ** When the filter throws *)

(** X16: when the filter throws.  [filterGPUProperties] throws exactly on
    the maps whose [attr] is [undefined] or [null]; the exception is then the
    [TypeError] of [Object.keys], and no filtered map is returned. *)
Theorem filterGPUProperties_throws_iff (properties : gmap string value)
    (c : list event) :
  ((∃ e c', filterGPUProperties properties c = (Throw e, c')) ↔
   properties !! "attr" = Some VUndefined ∨ properties !! "attr" = Some VNull) ∧
  (∀ e c', filterGPUProperties properties c = (Throw e, c') →
           e = TypeError "Cannot convert undefined or null to object").
Proof.
  assert (Hdec : attr_is_bag properties ∨
                 (properties !! "attr" = Some VUndefined ∨ properties !! "attr" = Some VNull)).
  { unfold attr_is_bag. destruct (properties !! "attr") as [[]|]; auto; by left. }
  split; [split|].
  - intros (e & c' & Hrun). destruct Hdec as [Hbag|?]; [|done].
    destruct (filterGPUProperties_run properties c Hbag) as (out & extra & Hok & _).
    congruence.
  - intros Hnull.
    destruct (filterGPUProperties_throw properties c) as (c' & Hrun); [|by eauto].
    intros [H1 H2]. by destruct Hnull.
  - intros e c' Hrun. destruct Hdec as [Hbag|Hnull].
    + destruct (filterGPUProperties_run properties c Hbag) as (out & extra & Hok & _).
      congruence.
    + destruct (filterGPUProperties_throw properties c) as (c2 & Hthrow);
        [intros [H1 H2]; by destruct Hnull|]. congruence.
Qed.

(** ** The override of the animation library *)

Section OverrideProperties.
Import PerformanceGSAPOverride.
Context {L : Type}.
Implicit Types (gsap : GSAP L) (pg : Page L).

Lemma guarded_ok original target properties pg out c' :
  filterGPUProperties properties (console pg) = (Ok out, c') →
  guarded original target properties pg
  = original target out {| console := c'; library := library pg |}.
Proof. intros H. unfold guarded, bind, on_console. by rewrite H. Qed.

Lemma guarded_throw original target properties pg e c' :
  filterGPUProperties properties (console pg) = (Throw e, c') →
  guarded original target properties pg
  = (Throw e, {| console := c'; library := library pg |}).
Proof. intros H. unfold guarded, bind, on_console. by rewrite H. Qed.

Lemma guarded_guarded original target properties pg :
  guarded (guarded original) target properties pg
  = guarded original target properties pg.
Proof.
  destruct (filterGPUProperties properties (console pg)) as [[out|e] c'] eqn:E.
  - rewrite !(guarded_ok _ _ _ _ _ _ E).
    set (pg' := {| console := c'; library := library pg |}).
    rewrite (guarded_ok original target out pg' out c'); [done|].
    by apply (filterGPUProperties_fixed properties (console pg) out c').
  - by rewrite !(guarded_throw _ _ _ _ _ _ E).
Qed.

(** X17: installing the override twice.  After a second [initialize]
    every method filters twice, and behaves on every call as after the first
    one: same call to the library, same warnings, same exception. *)
Theorem initialize_twice gsap target properties pg :
  to (initialize (initialize gsap)) target properties pg
  = to (initialize gsap) target properties pg ∧
  from (initialize (initialize gsap)) target properties pg
  = from (initialize gsap) target properties pg ∧
  set (initialize (initialize gsap)) target properties pg
  = set (initialize gsap) target properties pg.
Proof. cbn [initialize to from set]. by rewrite !guarded_guarded. Qed.

(** X18: what reaches the library.  On a request whose [attr], if any,
    is not [undefined] or [null], each overridden method calls the original
    with the same target and with exactly the allowed entries of the request,
    the library's own state untouched and only warnings added to the
    console. *)
Theorem override_passes_allowed gsap target properties pg :
  attr_is_bag properties →
  ∃ safeProperties extra,
    let pg' := {| console := console pg ++ extra; library := library pg |} in
    to (initialize gsap) target properties pg = to gsap target safeProperties pg' ∧
    from (initialize gsap) target properties pg = from gsap target safeProperties pg' ∧
    set (initialize gsap) target properties pg = set gsap target safeProperties pg' ∧
    safeProperties ⊆ properties ∧
    (∀ key v, safeProperties !! key = Some v ↔ properties !! key = Some v ∧ allowed key v).
Proof.
  intros Hbag.
  destruct (filterGPUProperties_run properties (console pg) Hbag)
    as (out & extra & Hrun & Hout & _).
  exists out, extra. cbn zeta. cbn [initialize to from set].
  rewrite !(guarded_ok _ _ _ _ _ _ Hrun). do 3 (split; [done|]). split.
  - apply map_subseteq_spec. intros k v. rewrite Hout. by destruct (keeps properties k).
  - intros key v. rewrite Hout. split.
    + destruct (keeps properties key) eqn:Ek; [|done]. intros Hv. split; [done|].
      by apply (keeps_allowed properties).
    + intros [Hv Ha]. apply (keeps_allowed properties key v Hv) in Ha. by rewrite Ha.
Qed.

(** X19: a request the filter rejects.  When [attr] is [undefined] or
    [null] no overridden method reaches the library: each one throws the
    [TypeError] and leaves the library's state as it was. *)
Theorem override_rejects gsap target properties pg :
  properties !! "attr" = Some VUndefined ∨ properties !! "attr" = Some VNull →
  ∃ c',
    let thrown := (Throw (TypeError "Cannot convert undefined or null to object"),
                   {| console := c'; library := library pg |}) in
    to (initialize gsap) target properties pg = thrown ∧
    from (initialize gsap) target properties pg = thrown ∧
    set (initialize gsap) target properties pg = thrown.
Proof.
  intros Hnull.
  destruct (filterGPUProperties_throw properties (console pg)) as (c' & Hrun).
  { intros [H1 H2]. by destruct Hnull. }
  exists c'. cbn zeta. cbn [initialize to from set].
  by rewrite !(guarded_throw _ _ _ _ _ _ Hrun).
Qed.

End OverrideProperties.

Lemma override_passes_allowed_witness :
  let pg := fresh_page in
  attr_is_bag sample_request ∧
  ∃ safeProperties extra,
    let pg' := PerformanceGSAPOverride.Build_Page
                 (PerformanceGSAPOverride.console pg ++ extra)
                 (PerformanceGSAPOverride.library pg) in
    PerformanceGSAPOverride.to (PerformanceGSAPOverride.initialize recording_gsap)
      "path" sample_request pg
    = PerformanceGSAPOverride.to recording_gsap "path" safeProperties pg' ∧
    PerformanceGSAPOverride.from (PerformanceGSAPOverride.initialize recording_gsap)
      "path" sample_request pg
    = PerformanceGSAPOverride.from recording_gsap "path" safeProperties pg' ∧
    PerformanceGSAPOverride.set (PerformanceGSAPOverride.initialize recording_gsap)
      "path" sample_request pg
    = PerformanceGSAPOverride.set recording_gsap "path" safeProperties pg' ∧
    safeProperties ⊆ sample_request ∧
    (∀ key v, safeProperties !! key = Some v ↔ sample_request !! key = Some v ∧ allowed key v).
Proof.
  intros pg.
  assert (H : attr_is_bag sample_request) by (split; by vm_compute).
  split; [exact H|].
  exact (override_passes_allowed recording_gsap "path" sample_request pg H).
Defined.

Lemma override_rejects_witness :
  let pg := fresh_page in
  (null_attr_request !! "attr" = Some VUndefined ∨ null_attr_request !! "attr" = Some VNull) ∧
  ∃ c',
    let thrown := (Throw (TypeError "Cannot convert undefined or null to object"),
                   PerformanceGSAPOverride.Build_Page c' (PerformanceGSAPOverride.library pg)) in
    PerformanceGSAPOverride.to (PerformanceGSAPOverride.initialize recording_gsap)
      "path" null_attr_request pg = thrown ∧
    PerformanceGSAPOverride.from (PerformanceGSAPOverride.initialize recording_gsap)
      "path" null_attr_request pg = thrown ∧
    PerformanceGSAPOverride.set (PerformanceGSAPOverride.initialize recording_gsap)
      "path" null_attr_request pg = thrown.
Proof.
  intros pg.
  assert (H : null_attr_request !! "attr" = Some VUndefined
              ∨ null_attr_request !! "attr" = Some VNull) by (right; by vm_compute).
  split; [exact H|].
  exact (override_rejects recording_gsap "path" null_attr_request pg H).
Defined.

(** The width of the sample request does not reach the library. *)
Example override_records :
  (PerformanceGSAPOverride.to (PerformanceGSAPOverride.initialize recording_gsap)
     "path" sample_request fresh_page).2
  = PerformanceGSAPOverride.Build_Page
      [BlockedProperty "width"] [("to", "path", delete "width" sample_request)].
Proof. by vm_compute. Qed.

(** ** The lightweight monitor *)

Lemma Math_min_le_l a c : a ≠ NaN → c ≠ NaN → num_leb (Math_min a c) a = true.
Proof.
  intros Ha Hc.
  assert (Math_min a c = if num_leb a c then a else c) as -> by (by destruct a, c).
  destruct (num_leb a c) eqn:E; [by apply num_leb_refl | by apply num_leb_total].
Qed.

Lemma Math_min_settled a c : c ≠ NaN → Math_min (Math_min a c) c = Math_min a c.
Proof.
  intros Hc. destruct a as [|s|q]; [done|by apply Math_min_idem..].
Qed.

(** X20: the two monitors grade differently.  At every rate the
    lightweight monitor (thresholds 30 and 50) grades at least as high as
    [PerformanceMonitor] (thresholds 45 and 55); the two agree exactly below
    30, from 45 to 49 and from 55 on. *)
Theorem classifiers_compare (fps : Z) :
  rank (PerformanceMonitor.classify fps) ≤ rank (ButteryPerformanceMonitor.classify fps) ∧
  (PerformanceMonitor.classify fps = ButteryPerformanceMonitor.classify fps
   ↔ fps < 30 ∨ 45 ≤ fps < 50 ∨ 55 ≤ fps).
Proof.
  unfold PerformanceMonitor.classify, ButteryPerformanceMonitor.classify.
  destruct (Z.ltb_spec fps 45), (Z.ltb_spec fps 55), (Z.ltb_spec fps 30),
    (Z.ltb_spec fps 50); cbn [rank]; (split; [lia|]); split; (done || lia).
Qed.

Section LightweightMonitor.
Import ButteryPerformanceMonitor.
Implicit Types (pg : Page) (p : params).

Lemma adapted_lookup p key :
  adapted p !! key =
    if decide (key = "leadingEdgeBulge") then
      Some (Leaf (FNum (Math_min (entry_number (p !! "leadingEdgeBulge")) (Fin (1 # 10)))))
    else if decide (key = "drawingDuration") then
      Some (Leaf (FNum (Math_min (entry_number (p !! "drawingDuration")) (Fin (15 # 10)))))
    else p !! key.
Proof.
  unfold adapted, cap. case_decide as H1; [subst|].
  - by rewrite lookup_insert_eq, lookup_insert_ne.
  - rewrite lookup_insert_ne by done. case_decide as H2; [subst|].
    + by rewrite lookup_insert_eq.
    + by rewrite lookup_insert_ne.
Qed.

Lemma adapted_settled p : adapted (adapted p) = adapted p.
Proof.
  apply map_eq. intros key. rewrite (adapted_lookup (adapted p)), !adapted_lookup.
  repeat case_decide; try done; cbn [entry_number to_number];
    by rewrite Math_min_settled.
Qed.

Lemma adaptForPerformance_run pg :
  adaptForPerformance pg =
    match performanceLevel pg, animationEngine pg with
    | low, Some engine =>
        (Ok tt, {| fps := fps pg; performanceLevel := low;
                   animationEngine := Some (adapted <$> engine);
                   trace := trace pg ++ [Reducing; Warning low (fps pg)] |})
    | _, _ => (Ok tt, pg)
    end.
Proof.
  unfold adaptForPerformance, bind, get. cbn zeta.
  destruct pg as [f l e t]. cbn [performanceLevel animationEngine fps trace].
  destruct l; try done. destruct e as [[p|]|]; try done.
  - unfold emit, showPerformanceWarning, modify, bind, get, emit, modify.
    cbn [performanceLevel animationEngine fps trace fmap option_fmap option_map].
    by rewrite <- app_assoc.
  - unfold emit, showPerformanceWarning, modify, bind, get, ret, emit, modify.
    cbn [performanceLevel animationEngine fps trace fmap option_fmap option_map].
    by rewrite <- app_assoc.
Qed.

(** X21: what the adaptation does to the parameters.  At level low, with
    an engine that has parameters, [adaptForPerformance] leaves rate and level
    alone and rewrites two entries only: a numeric [drawingDuration] or
    [leadingEdgeBulge] is never raised and ends at most at its ceiling (1.5,
    0.1); one that is absent or an object becomes [NaN]. *)
Theorem adaptForPerformance_caps pg p :
  performanceLevel pg = low → animationEngine pg = Some (Some p) →
  let pg' := (adaptForPerformance pg).2 in
  ∃ p', animationEngine pg' = Some (Some p') ∧
    fps pg' = fps pg ∧ performanceLevel pg' = low ∧
    (∀ key c, (key, c) ∈ caps →
       match p !! key with
       | Some (Leaf f) =>
           to_number f ≠ NaN →
           ∃ n, p' !! key = Some (Leaf (FNum n)) ∧
                num_leb n (to_number f) = true ∧ num_leb n c = true
       | _ => p' !! key = Some (Leaf (FNum NaN))
       end) ∧
    (∀ key, key ≠ "drawingDuration" → key ≠ "leadingEdgeBulge" → p' !! key = p !! key).
Proof.
  intros Hl He pg'. subst pg'. rewrite adaptForPerformance_run, Hl, He.
  exists (adapted p). cbn [snd animationEngine fps performanceLevel fmap option_fmap option_map].
  do 3 (split; [done|]). split.
  - intros key c Hin. unfold caps in Hin.
    apply elem_of_cons in Hin as [[= -> ->]|Hin];
      [|apply elem_of_cons in Hin as [[= -> ->]|Hin]; [|by apply elem_of_nil in Hin]];
      rewrite adapted_lookup; cbn [decide_rel]; repeat case_decide; try done.
    + destruct (p !! "drawingDuration") as [[g|f]|]; try done.
      intros Hn. eexists. split; [done|]. cbn [entry_number].
      split; [by apply Math_min_le_l | by apply Math_min_le].
    + destruct (p !! "leadingEdgeBulge") as [[g|f]|]; try done.
      intros Hn. eexists. split; [done|]. cbn [entry_number].
      split; [by apply Math_min_le_l | by apply Math_min_le].
  - intros key H1 H2. rewrite adapted_lookup. by rewrite !decide_False.
Qed.

Lemma adaptForPerformance_caps_witness :
  let pg := progressive_page 20 low in
  let p := ButteryAnimationEngine.progressive_animationParams in
  performanceLevel pg = low ∧ animationEngine pg = Some (Some p) ∧
  let pg' := (adaptForPerformance pg).2 in
  ∃ p', animationEngine pg' = Some (Some p') ∧
    fps pg' = fps pg ∧ performanceLevel pg' = low ∧
    (∀ key c, (key, c) ∈ caps →
       match p !! key with
       | Some (Leaf f) =>
           to_number f ≠ NaN →
           ∃ n, p' !! key = Some (Leaf (FNum n)) ∧
                num_leb n (to_number f) = true ∧ num_leb n c = true
       | _ => p' !! key = Some (Leaf (FNum NaN))
       end) ∧
    (∀ key, key ≠ "drawingDuration" → key ≠ "leadingEdgeBulge" → p' !! key = p !! key).
Proof.
  intros pg p. split; [reflexivity|]. split; [reflexivity|].
  exact (adaptForPerformance_caps pg p eq_refl eq_refl).
Defined.

(** The progressive engine has no [leadingEdgeBulge]: its duration is cut
    from 2 to 1.5 and a [leadingEdgeBulge] of [NaN] is created. *)
Example adaptForPerformance_progressive :
  animationEngine (adaptForPerformance (progressive_page 20 low)).2
  = Some (Some (<["leadingEdgeBulge" := Leaf (FNum NaN)]>
                (<["drawingDuration" := Leaf (FNum (Fin (15 # 10)))]>
                   ButteryAnimationEngine.progressive_animationParams))).
Proof. by vm_compute. Qed.

(** X22: adapting once is enough.  On every page a second
    [adaptForPerformance] leaves the engine's parameters, the rate and the
    level as the first one left them. *)
Theorem adaptForPerformance_settles pg :
  let pg1 := (adaptForPerformance pg).2 in
  let pg2 := (adaptForPerformance pg1).2 in
  animationEngine pg2 = animationEngine pg1 ∧ fps pg2 = fps pg1 ∧
  performanceLevel pg2 = performanceLevel pg1.
Proof.
  cbn zeta. rewrite (adaptForPerformance_run pg).
  destruct (performanceLevel pg) eqn:El;
    try (cbn [snd]; rewrite adaptForPerformance_run, El; done).
  destruct (animationEngine pg) as [engine|] eqn:Ee;
    [|cbn [snd]; by rewrite adaptForPerformance_run, El, Ee].
  cbn [snd]. rewrite adaptForPerformance_run.
  cbn [performanceLevel animationEngine fps snd]. split; [|done].
  destruct engine as [p|]; [|done].
  cbn [fmap option_fmap option_map]. by rewrite adapted_settled.
Qed.

Lemma updatePerformanceLevel_run pg :
  updatePerformanceLevel pg =
    if decide (performanceLevel pg ≠ classify (fps pg)) then
      adaptForPerformance
        {| fps := fps pg; performanceLevel := classify (fps pg);
           animationEngine := animationEngine pg;
           trace := trace pg ++ [Changed (performanceLevel pg) (classify (fps pg)) (fps pg)] |}
    else (Ok tt, {| fps := fps pg; performanceLevel := classify (fps pg);
                    animationEngine := animationEngine pg; trace := trace pg |}).
Proof.
  destruct pg as [f l e t].
  unfold updatePerformanceLevel, bind, get, modify. cbn zeta.
  cbn [performanceLevel fps animationEngine trace].
  case_decide; [|done]. by unfold emit, modify.
Qed.

(** X23: the adaptation runs on the way into low only.
    [updatePerformanceLevel] sets the level the classifier gives the rate; a
    page whose level is already that one is left exactly as it is, and the
    engine's parameters are written only when the level changes to low, to the
    capped parameters. *)
Theorem updatePerformanceLevel_adapts_on_entry pg :
  let pg' := (updatePerformanceLevel pg).2 in
  performanceLevel pg' = classify (fps pg) ∧ fps pg' = fps pg ∧
  (performanceLevel pg = classify (fps pg) → pg' = pg) ∧
  (performanceLevel pg ≠ low → fps pg < 30 →
   animationEngine pg' = (λ engine : option params, adapted <$> engine) <$> animationEngine pg) ∧
  (animationEngine pg' ≠ animationEngine pg → performanceLevel pg ≠ low ∧ fps pg < 30).
Proof.
  cbn zeta. rewrite updatePerformanceLevel_run.
  destruct pg as [f l e t]. cbn [performanceLevel fps animationEngine trace].
  case_decide as Hd.
  - rewrite adaptForPerformance_run. cbn [performanceLevel fps animationEngine trace].
    unfold classify in *.
    destruct (Z.ltb_spec f 30) as [H30|H30].
    + destruct e as [engine|]; cbn [snd performanceLevel fps animationEngine];
        (split; [done|]); (split; [done|]); (split; [done|]); (split; [done|]);
        intros _; (split; [|done]); by intros ->.
    + destruct (Z.ltb_spec f 50); cbn [snd performanceLevel fps animationEngine];
        (split; [done|]); (split; [done|]); (split; [done|]); (split; [lia|]); done.
  - cbn [snd performanceLevel fps animationEngine].
    split; [done|]. split; [done|]. split; [by rewrite <- Hd|]. split; [|done].
    intros Hlow H30. unfold classify in Hd. destruct (Z.ltb_spec f 30); [|lia].
    by subst l.
Qed.

End LightweightMonitor.

(** A rate of 20 on a page graded high: the level becomes low and the
    progressive engine is slowed down; the same rate a second later changes
    nothing more. *)
Example updatePerformanceLevel_twice :
  let pg1 := (ButteryPerformanceMonitor.updatePerformanceLevel (progressive_page 20 high)).2 in
  let pg2 := (ButteryPerformanceMonitor.updatePerformanceLevel pg1).2 in
  ButteryPerformanceMonitor.performanceLevel pg1 = low ∧
  ButteryPerformanceMonitor.trace pg1
  = [ButteryPerformanceMonitor.Changed high low 20; ButteryPerformanceMonitor.Reducing;
     ButteryPerformanceMonitor.Warning low 20] ∧
  pg2 = pg1.
Proof. by vm_compute. Qed.

(** ** The year animation of the engine *)

Section YearAnimation.
Import ButteryAnimationEngine.
Implicit Types (this : Engine) (p : params).

Lemma get_field_group g f this :
  is_group g (this_animationParams this) →
  get_field g f this = (Ok (read_field g f (this_animationParams this)), this).
Proof.
  intros [o Ho]. unfold get_field, bind, get, read_field. by rewrite Ho.
Qed.

Lemma animation_groups_elim p :
  animation_groups p →
  is_group "timing" p ∧ is_group "anticipation" p ∧ is_group "squashAndStretch" p ∧
  is_group "secondaryAction" p ∧ is_group "followThrough" p.
Proof.
  unfold animation_groups. rewrite !Forall_cons. by intros (? & ? & ? & ? & ? & _).
Qed.

Lemma timeline_to_pure target vars position this v :
  is_Some (timeline this) → vars this = (Ok v, this) →
  timeline_to target vars position this
  = (Ok tt, push {| target := target; vars := v; position := position |} this).
Proof.
  intros [tl Htl] Hv. unfold timeline_to, bind, get. rewrite Htl, Hv. done.
Qed.


Lemma pushes_params tweens this :
  this_animationParams (pushes tweens this) = this_animationParams this.
Proof.
  unfold pushes. revert this. induction tweens as [|tw tws IH]; intros this; [done|].
  cbn [foldl]. by rewrite IH.
Qed.

Lemma pushes_timeline tweens this :
  timeline (pushes tweens this) = (λ tl, tl ++ tweens) <$> timeline this.
Proof.
  unfold pushes. revert this. induction tweens as [|tw tws IH]; intros this.
  - cbn. destruct (timeline this); cbn; by rewrite ?app_nil_r.
  - cbn [foldl]. rewrite IH. cbn [push timeline].
    destruct (timeline this); cbn; [|done]. by rewrite <- app_assoc.
Qed.

Lemma pushes_app tws1 tws2 this :
  pushes tws2 (pushes tws1 this) = pushes (tws1 ++ tws2) this.
Proof. unfold pushes. by rewrite foldl_app. Qed.

Lemma anticipation_run element delay this :
  animation_groups (this_animationParams this) → is_Some (timeline this) →
  anticipation element delay this
  = (Ok tt, pushes (anticipation_tweens element delay (this_animationParams this)) this).
Proof.
  intros (Ht & Ha & Hq & Hs & Hf)%animation_groups_elim Htl.
  unfold anticipation, anticipation_tweens, enabled. unfold bind at 1.
  rewrite get_field_group by done.
  destruct (truthy_field _); [|done].
  unfold bind at 1.
  erewrite timeline_to_pure; [|done|unfold bind; by rewrite get_field_group].
  erewrite timeline_to_pure; [done| |unfold bind; by rewrite get_field_group].
  cbn [push timeline]. by apply fmap_is_Some.
Qed.

Lemma pushes_is_Some tweens this :
  is_Some (timeline this) → is_Some (timeline (pushes tweens this)).
Proof. intros H. rewrite pushes_timeline. by apply fmap_is_Some. Qed.

Lemma squash_run element delay this :
  animation_groups (this_animationParams this) → is_Some (timeline this) →
  squash element delay this
  = (Ok tt, pushes (squash_tweens element delay (this_animationParams this)) this).
Proof.
  intros (Ht & Ha & Hq & Hs & Hf)%animation_groups_elim Htl.
  unfold squash, squash_tweens, enabled. unfold bind at 1.
  rewrite get_field_group by done.
  destruct (truthy_field _); [|done].
  erewrite timeline_to_pure; [done|done|unfold bind; by rewrite !get_field_group].
Qed.

Lemma reveal_run year element delay this :
  animation_groups (this_animationParams this) → is_Some (timeline this) →
  reveal year element (base_duration (this_animationParams this)) delay this
  = (Ok tt, pushes (reveal_tweens year element delay (this_animationParams this)) this).
Proof.
  intros (Ht & Ha & Hq & Hs & Hf)%animation_groups_elim Htl.
  unfold reveal, reveal_tweens, enabled. unfold bind at 1.
  destruct (truthy_field (read_field "squashAndStretch" "enabled"
                            (this_animationParams this))) eqn:E.
  - erewrite timeline_to_pure; [|done|].
    2:{ unfold bind. rewrite get_field_group by done. rewrite E.
        by rewrite get_field_group. }
    erewrite timeline_to_pure; [done|by apply fmap_is_Some|done].
  - erewrite timeline_to_pure; [|done|].
    2:{ unfold bind. rewrite get_field_group by done. by rewrite E. }
    erewrite timeline_to_pure; [done|by apply fmap_is_Some|done].
Qed.

Lemma followThrough_run element delay this :
  animation_groups (this_animationParams this) → is_Some (timeline this) →
  followThrough element (base_duration (this_animationParams this)) delay this
  = (Ok tt, pushes (followThrough_tweens element delay (this_animationParams this)) this).
Proof.
  intros (Ht & Ha & Hq & Hs & Hf)%animation_groups_elim Htl.
  unfold followThrough, followThrough_tweens, enabled. unfold bind at 1.
  rewrite get_field_group by done.
  destruct (truthy_field _); [|done].
  unfold bind at 1.
  erewrite timeline_to_pure; [|done|unfold bind; by rewrite get_field_group].
  erewrite timeline_to_pure; [done| |unfold bind; by rewrite get_field_group].
  cbn [push timeline]. by apply fmap_is_Some.
Qed.

Lemma secondaryAction_on_run this :
  animation_groups (this_animationParams this) →
  secondaryAction_on this = (Ok (jiggling (this_animationParams this)), this).
Proof.
  intros (Ht & Ha & Hq & Hs & Hf)%animation_groups_elim.
  unfold secondaryAction_on, jiggling, enabled, bind.
  rewrite get_field_group by done.
  destruct (truthy_field _); [|done]. by rewrite get_field_group.
Qed.

Lemma path_node_run year this :
  year ∈ paths this → path_node year this = (Ok (Path year), this).
Proof. intros H. unfold path_node, bind, get. by rewrite bool_decide_eq_true_2. Qed.

(** The tweens before the loop. *)
Lemma before_jiggles_run year delay this :
  animation_groups (this_animationParams this) → is_Some (timeline this) →
  year ∈ paths this →
  before_jiggles year delay this
  = (Ok (base_duration (this_animationParams this), Path year,
         jiggling (this_animationParams this)),
     pushes (anticipation_tweens (Path year) delay (this_animationParams this)
             ++ squash_tweens (Path year) delay (this_animationParams this)
             ++ reveal_tweens year (Path year) delay (this_animationParams this)) this).
Proof.
  intros Hg Htl Hy. pose proof Hg as (Ht & _)%animation_groups_elim.
  unfold before_jiggles. unfold bind at 1. rewrite get_field_group by done.
  unfold bind at 1. rewrite path_node_run by done.
  unfold bind at 1. rewrite anticipation_run by done.
  set (this1 := pushes _ this).
  assert (H1 : this_animationParams this1 = this_animationParams this)
    by apply pushes_params.
  assert (Htl1 : is_Some (timeline this1)) by (by apply pushes_is_Some).
  unfold bind at 1. rewrite squash_run by (by rewrite ?H1).
  set (this2 := pushes _ this1).
  assert (H2 : this_animationParams this2 = this_animationParams this)
    by (unfold this2; by rewrite pushes_params).
  assert (Htl2 : is_Some (timeline this2)) by (by apply pushes_is_Some).
  unfold bind at 1. fold (base_duration (this_animationParams this)).
  rewrite <- H2 at 1. rewrite reveal_run by (by rewrite ?H2).
  set (this3 := pushes _ this2).
  assert (H3 : this_animationParams this3 = this_animationParams this)
    by (unfold this3; by rewrite pushes_params).
  unfold bind. rewrite secondaryAction_on_run by (by rewrite H3).
  unfold ret. rewrite H3. f_equal. clear H1 H2 H3 Htl1 Htl2.
  subst this3 this2 this1. by rewrite !pushes_params, !pushes_app, app_assoc.
Qed.

Lemma pushes_drawn tweens this : drawn (pushes tweens this) = drawn this.
Proof.
  unfold pushes. revert this. induction tweens as [|tw tws IH]; intros this; [done|].
  cbn [foldl]. by rewrite IH.
Qed.

Lemma pushes_paths tweens this : paths (pushes tweens this) = paths this.
Proof.
  unfold pushes. revert this. induction tweens as [|tw tws IH]; intros this; [done|].
  cbn [foldl]. by rewrite IH.
Qed.

Lemma pushes_random tweens this : random (pushes tweens this) = random this.
Proof.
  unfold pushes. revert this. induction tweens as [|tw tws IH]; intros this; [done|].
  cbn [foldl]. by rewrite IH.
Qed.

Lemma pushes_with_drawn tweens d this :
  pushes tweens (with_drawn d this) = with_drawn d (pushes tweens this).
Proof.
  unfold pushes. revert this. induction tweens as [|tw tws IH]; intros this; [done|].
  cbn [foldl]. by rewrite <- IH.
Qed.

Lemma with_drawn_id this : with_drawn (drawn this) this = this.
Proof. by destruct this. Qed.

Lemma with_drawn_pushes tweens this :
  with_drawn (drawn this) (pushes tweens this) = pushes tweens this.
Proof. rewrite <- (pushes_drawn tweens this) at 1. apply with_drawn_id. Qed.

Lemma more_jiggles_run i this :
  animation_groups (this_animationParams this) →
  more_jiggles i this
  = (Ok (num_ltb (num i)
           (field_number (read_field "secondaryAction" "maxJiggles"
                            (this_animationParams this)))), this).
Proof.
  intros (Ht & Ha & Hq & Hs & Hf)%animation_groups_elim.
  unfold more_jiggles, bind. by rewrite get_field_group.
Qed.

Lemma jiggle_run i element delay this :
  animation_groups (this_animationParams this) → is_Some (timeline this) →
  jiggle i element delay this
  = (Ok tt, with_drawn (S (S (drawn this)))
              (pushes (jiggle_tweens i element delay (this_animationParams this)
                         (random this (drawn this)) (random this (S (drawn this))))
                 this)).
Proof.
  intros (Ht & Ha & Hq & Hs & Hf)%animation_groups_elim [tl Htl].
  unfold jiggle. cbn zeta. unfold bind at 1. rewrite get_field_group by done.
  unfold timeline_to, Math_random, bind, get, modify, ret.
  cbn [timeline drawn random this_animationParams paths]. rewrite Htl.
  cbn [timeline drawn random this_animationParams paths fmap option_fmap option_map].
  unfold with_drawn, jiggle_tweens, pushes, push. cbn [foldl].
  cbn [timeline drawn random this_animationParams paths]. rewrite Htl. done.
Qed.

(** The loop, from turn [i] on, when [n] more turns pass the test. *)
Lemma jiggles_run element delay n : ∀ fuel i this,
  animation_groups (this_animationParams this) → is_Some (timeline this) →
  (n < fuel)%nat →
  (∀ j, i ≤ j < i + Z.of_nat n →
        num_ltb (num j) (field_number (read_field "secondaryAction" "maxJiggles"
                                         (this_animationParams this))) = true) →
  num_ltb (num (i + Z.of_nat n))
    (field_number (read_field "secondaryAction" "maxJiggles"
                     (this_animationParams this))) = false →
  jiggles fuel i element delay this
  = Some (Ok tt, with_drawn (drawn this + 2 * n)
                   (pushes (loop_tweens n i element delay (this_animationParams this)
                              (random this) (drawn this)) this)).
Proof.
  induction n as [|n IH]; intros fuel i this Hg Htl Hfuel Hlt Hge.
  - destruct fuel as [|fuel]; [lia|]. cbn [jiggles].
    rewrite more_jiggles_run by done. rewrite Z.add_0_r in Hge. rewrite Hge.
    cbn [loop_tweens pushes foldl]. by rewrite Nat.add_0_r, with_drawn_id.
  - destruct fuel as [|fuel]; [lia|]. cbn [jiggles].
    rewrite more_jiggles_run by done. rewrite Hlt by lia.
    rewrite jiggle_run by done.
    set (this1 := with_drawn _ _).
    assert (Hp : this_animationParams this1 = this_animationParams this)
      by (unfold this1; cbn [with_drawn this_animationParams]; apply pushes_params).
    assert (Hr : random this1 = random this)
      by (unfold this1; cbn [with_drawn random]; apply pushes_random).
    assert (Hd : drawn this1 = S (S (drawn this))) by done.
    rewrite (IH fuel (i + 1) this1).
    + rewrite Hp, Hr, Hd. f_equal. f_equal. unfold this1.
      rewrite pushes_with_drawn, pushes_app. cbn [loop_tweens].
      unfold with_drawn. cbn [this_animationParams paths timeline random].
      f_equal. lia.
    + by rewrite Hp.
    + unfold this1. cbn [with_drawn timeline]. by apply pushes_is_Some.
    + lia.
    + rewrite Hp. intros j Hj. apply Hlt. lia.
    + rewrite Hp. replace (i + 1 + Z.of_nat n) with (i + Z.of_nat (S n)) by lia. done.
Qed.

(** With [maxJiggles] plus infinity the loop is still running when the
    fuel is used up, whatever the fuel. *)
Lemma jiggles_endless element delay fuel : ∀ i this,
  animation_groups (this_animationParams this) → is_Some (timeline this) →
  field_number (read_field "secondaryAction" "maxJiggles" (this_animationParams this))
  = Inf false →
  jiggles fuel i element delay this = None.
Proof.
  induction fuel as [|fuel IH]; intros i this Hg Htl Hinf; [done|].
  cbn [jiggles]. rewrite more_jiggles_run by done. rewrite Hinf.
  change (num_ltb (num i) (Inf false)) with true. cbv iota.
  rewrite jiggle_run by done. apply IH.
  - cbn [with_drawn this_animationParams]. by rewrite pushes_params.
  - cbn [with_drawn timeline]. by apply pushes_is_Some.
  - cbn [with_drawn this_animationParams]. by rewrite pushes_params.
Qed.

Lemma turns_spec p k :
  turns p = Some k →
  (∀ j, 0 ≤ j < 0 + Z.of_nat k →
        num_ltb (num j) (field_number (read_field "secondaryAction" "maxJiggles" p)) = true) ∧
  num_ltb (num (0 + Z.of_nat k))
    (field_number (read_field "secondaryAction" "maxJiggles" p)) = false.
Proof.
  unfold turns.
  destruct (field_number (read_field "secondaryAction" "maxJiggles" p)) as [|[]|q];
    try done.
  - intros [= <-]. split; [intros j; lia|done].
  - intros [= <-]. split; [intros j; lia|done].
  - intros [= <-]. rewrite !Z.add_0_l.
    pose proof (Qle_ceiling q) as Hle. pose proof (Qceiling_lt q) as Hlt.
    unfold num_ltb, num, num_leb. split.
    + intros j Hj. apply negb_true_iff, not_true_iff_false.
      rewrite Qle_bool_iff. intros Hq.
      assert (inject_Z j <= inject_Z (Qceiling q - 1))%Q by (rewrite <- Zle_Qle; lia).
      apply (Qlt_irrefl q).
      eapply Qle_lt_trans; [apply Hq|]. eapply Qle_lt_trans; [eassumption|done].
    + apply negb_false_iff, Qle_bool_iff.
      destruct (Z.le_gt_cases 0 (Qceiling q)) as [H0|H0].
      * by rewrite Z2Nat.id.
      * replace (Z.to_nat (Qceiling q)) with 0%nat by lia. cbn [Z.of_nat].
        eapply Qle_trans; [apply Hle|]. rewrite <- Zle_Qle. lia.
Qed.

Lemma loop_tweens_length n : ∀ i element delay p random d,
  length (loop_tweens n i element delay p random d) = (2 * n)%nat.
Proof.
  induction n as [|n IH]; intros i element delay p random d; [done|].
  cbn [loop_tweens]. rewrite length_app, IH. cbn [jiggle_tweens length]. lia.
Qed.

(** A call of [animateYearButtery] whose loop takes [k] turns. *)
Lemma animateYearButtery_run fuel year delay this k :
  animation_groups (this_animationParams this) → is_Some (timeline this) →
  year ∈ paths this →
  jiggle_turns (this_animationParams this) = Some k →
  (jiggling (this_animationParams this) = true → (k < fuel)%nat) →
  animateYearButtery fuel year delay this
  = Some (Ok tt, with_drawn (drawn this + 2 * k)
                   (pushes (scheduled year delay (this_animationParams this)
                              (random this) (drawn this) k) this)).
Proof.
  intros Hg Htl Hy Hk Hfuel. unfold animateYearButtery.
  rewrite before_jiggles_run by done.
  set (p := this_animationParams this) in *.
  set (this1 := pushes _ this).
  assert (Hp1 : this_animationParams this1 = p) by apply pushes_params.
  assert (Htl1 : is_Some (timeline this1)) by (by apply pushes_is_Some).
  unfold jiggle_turns in Hk. destruct (jiggling p).
  - destruct (turns_spec p k Hk) as [Hlt Hge]. specialize (Hfuel eq_refl).
    rewrite (jiggles_run _ _ k) by (by rewrite ?Hp1).
    set (this2 := with_drawn _ _).
    assert (Hp2 : this_animationParams this2 = p)
      by (unfold this2; cbn [with_drawn this_animationParams]; by rewrite pushes_params).
    rewrite <- Hp2 at 1. rewrite followThrough_run.
    + rewrite Hp2. f_equal. f_equal. clear Hp2. subst this2.
      rewrite pushes_with_drawn, pushes_app. clear Hp1 Htl1. subst this1.
      rewrite pushes_app, pushes_params, pushes_drawn, pushes_random.
      unfold scheduled. by rewrite <- !app_assoc.
    + by rewrite Hp2.
    + unfold this2. cbn [with_drawn timeline]. by apply pushes_is_Some.
  - injection Hk as <-. rewrite <- Hp1 at 1. rewrite followThrough_run by (by rewrite ?Hp1).
    rewrite Hp1. f_equal. f_equal. clear Hp1 Htl1. subst this1.
    rewrite pushes_app, Nat.add_0_r. unfold scheduled. cbn [loop_tweens app].
    by rewrite <- !app_assoc, with_drawn_pushes.
Qed.

Lemma animation_groups_strict_mode p :
  animation_groups p → animation_groups (strict_mode p).
Proof.
  unfold animation_groups. rewrite !Forall_forall. intros H g Hg.
  destruct (H g Hg) as [o Ho]. pose proof (strict_mode_shape p g) as Hs.
  rewrite Ho in Hs. unfold is_group.
  destruct (strict_mode p !! g) as [[o'|]|]; try done. by exists o'.
Qed.

Lemma animation_groups_engine_groups p : animation_groups p → engine_groups p.
Proof.
  intros ([t ?] & _ & [q ?] & [s ?] & _)%animation_groups_elim. by exists t, s, q.
Qed.

(** What the strict mode leaves of a year's animation. *)
Lemma scheduled_strict_mode year delay p random d :
  animation_groups p →
  jiggle_turns (strict_mode p) = Some 0%nat ∧
  scheduled year delay (strict_mode p) random d 0
  = anticipation_tweens (Path year) delay (strict_mode p)
    ++ reveal_tweens year (Path year) delay (strict_mode p)
    ++ followThrough_tweens (Path year) delay (strict_mode p) ∧
  enabled "squashAndStretch" (strict_mode p) = false ∧
  enabled "anticipation" (strict_mode p) = enabled "anticipation" p ∧
  enabled "followThrough" (strict_mode p) = enabled "followThrough" p.
Proof.
  intros Hg%animation_groups_engine_groups.
  assert (Hq : enabled "squashAndStretch" (strict_mode p) = false)
    by (unfold enabled; by rewrite read_field_strict_mode).
  assert (Hj : jiggling (strict_mode p) = false).
  { unfold jiggling. rewrite (read_field_strict_mode p "secondaryAction" "jiggleIntensity") by done.
    cbn. apply andb_false_r. }
  split; [unfold jiggle_turns; by rewrite Hj|]. split.
  - unfold scheduled, squash_tweens. rewrite Hq. done.
  - split; [done|]. unfold enabled. by rewrite !read_field_strict_mode.
Qed.


(** X24: a year's animation returns, and how much it schedules.  On an
    engine that has the five parameter groups, a timeline and a path for the
    year, when [maxJiggles] allows [k] turns of the loop and the fuel is more
    than [k], [animateYearButtery] returns; it has added to the timeline two
    tweens for the reveal, two each for anticipation and follow-through and
    one for the squash where these are enabled, and two per turn; it has
    called [Math.random] twice per turn and has not changed the
    parameters. *)
Theorem animateYearButtery_schedules (fuel : nat) (year : string) (delay : number)
    (this : Engine) (tweens : list Tween) (k : nat) :
  animation_groups (this_animationParams this) → timeline this = Some tweens →
  year ∈ paths this →
  jiggle_turns (this_animationParams this) = Some k → (k < fuel)%nat →
  ∃ new this',
    animateYearButtery fuel year delay this = Some (Ok tt, this') ∧
    timeline this' = Some (tweens ++ new) ∧
    length new
    = (2 * Nat.b2n (enabled "anticipation" (this_animationParams this))
       + Nat.b2n (enabled "squashAndStretch" (this_animationParams this))
       + 2 + 2 * k
       + 2 * Nat.b2n (enabled "followThrough" (this_animationParams this)))%nat ∧
    drawn this' = (drawn this + 2 * k)%nat ∧
    this_animationParams this' = this_animationParams this ∧
    paths this' = paths this.
Proof.
  intros Hg Htl Hy Hk Hfuel.
  eexists _, _. split; [by apply animateYearButtery_run|].
  cbn [with_drawn timeline drawn this_animationParams paths].
  rewrite pushes_timeline, Htl. split; [done|]. split; [|split; [done|]].
  - unfold scheduled. rewrite !length_app, loop_tweens_length.
    unfold anticipation_tweens, squash_tweens, reveal_tweens, followThrough_tweens.
    destruct (enabled "anticipation" _), (enabled "squashAndStretch" _),
      (enabled "followThrough" _); cbn [length Nat.b2n]; lia.
  - split; [apply pushes_params | apply pushes_paths].
Qed.

(** X25: a loop without end.  With the jiggle on and a [maxJiggles] of
    plus infinity, [animateYearButtery] does not return: whatever the fuel,
    the loop is still scheduling tweens when it is used up. *)
Theorem animateYearButtery_endless (year : string) (delay : number) (this : Engine) :
  animation_groups (this_animationParams this) → is_Some (timeline this) →
  year ∈ paths this →
  jiggling (this_animationParams this) = true →
  field_number (read_field "secondaryAction" "maxJiggles" (this_animationParams this))
  = Inf false →
  ∀ fuel, animateYearButtery fuel year delay this = None.
Proof.
  intros Hg Htl Hy Hj Hinf fuel. unfold animateYearButtery.
  rewrite before_jiggles_run by done. rewrite Hj.
  rewrite jiggles_endless; [done|..]; rewrite ?pushes_params; try done.
  by apply pushes_is_Some.
Qed.

Lemma timeline_to_null target vars position this :
  timeline this = None →
  timeline_to target vars position this
  = (Throw (TypeError "Cannot read properties of null (reading to)"), this).
Proof. intros H. unfold timeline_to, bind, get. by rewrite H. Qed.

(** X26: what the call needs.  On an engine with the five groups, a call
    for a year that has no path, or made while there is no timeline, throws a
    [TypeError] and leaves the engine as it was. *)
Theorem animateYearButtery_throws (fuel : nat) (year : string) (delay : number)
    (this : Engine) :
  animation_groups (this_animationParams this) →
  year ∉ paths this ∨ timeline this = None →
  ∃ msg, animateYearButtery fuel year delay this = Some (Throw (TypeError msg), this).
Proof.
  intros Hg Hbad. pose proof Hg as (Ht & Ha & Hq & Hs & Hf)%animation_groups_elim.
  unfold animateYearButtery, before_jiggles. unfold bind at 1.
  rewrite get_field_group by done. unfold bind at 1.
  destruct (decide (year ∈ paths this)) as [Hy|Hy].
  - destruct Hbad as [?|Htl]; [done|]. rewrite path_node_run by done.
    unfold bind at 1. unfold anticipation at 1. unfold bind at 1.
    rewrite get_field_group by done.
    destruct (truthy_field _).
    { unfold bind at 1. rewrite timeline_to_null by done. by eexists. }
    unfold ret at 1. unfold bind at 1. unfold squash at 1. unfold bind at 1.
    rewrite get_field_group by done.
    destruct (truthy_field _).
    { rewrite timeline_to_null by done. by eexists. }
    unfold ret at 1. unfold bind at 1. unfold reveal at 1. unfold bind at 1.
    rewrite timeline_to_null by done. by eexists.
  - unfold path_node, bind, get. rewrite bool_decide_eq_false_2 by done.
    by eexists.
Qed.

(** X27: the strict mode calms the engine.  Once [enforceConstraints]
    has run at the low level on the engine's parameters, a year's animation
    returns on any fuel, calls [Math.random] not once and schedules no squash
    and no jiggle: what is left is the reveal, at a vertical scale of 1, the
    drawing, and anticipation and follow-through as they were set. *)
Theorem strict_mode_calms_engine {W} (w : World W) (p : params) (this : Engine)
    (tweens : list Tween) (year : string) (delay : number) :
  performanceLevel (monitor w) = low → animationEngine w = Some p →
  animation_groups p → timeline this = Some tweens → year ∈ paths this →
  ∃ p', animationEngine (enforceConstraints w).2 = Some p' ∧
    ∀ fuel, ∃ new,
      animateYearButtery fuel year delay (with_params p' this)
      = Some (Ok tt, pushes new (with_params p' this)) ∧
      Forall (λ tween, ¬ shakes tween ∧ ¬ squashes tween) new ∧
      (∃ tween, tween ∈ new ∧ vars tween !! "opacity" = Some (VNum (num 1)) ∧
                vars tween !! "scaleY" = Some (VNum (num 1))) ∧
      length new = (2 + 2 * Nat.b2n (enabled "anticipation" p)
                    + 2 * Nat.b2n (enabled "followThrough" p))%nat.
Proof.
  intros Hlow He Hg Htl Hy. exists (strict_mode p).
  rewrite (enforceConstraints_low w p) by (by try apply animation_groups_engine_groups).
  split; [done|]. intros fuel.
  destruct (scheduled_strict_mode year delay p (random this) (drawn this) Hg)
    as (Hk & Hs & Hq & Ha & Hf).
  exists (scheduled year delay (strict_mode p) (random this) (drawn this) 0).
  split; [|split; [|split]].
  - rewrite (animateYearButtery_run fuel year delay (with_params (strict_mode p) this) 0).
    + cbn [with_params drawn random this_animationParams].
      rewrite Nat.add_0_r.
      change (drawn this) with (drawn (with_params (strict_mode p) this)) at 1.
      by rewrite with_drawn_pushes.
    + by apply animation_groups_strict_mode.
    + cbn [with_params timeline]. by rewrite Htl.
    + done.
    + done.
    + cbn [with_params this_animationParams]. unfold jiggle_turns in Hk.
      intros Hj. unfold jiggling in Hj.
      rewrite (read_field_strict_mode p "secondaryAction" "jiggleIntensity") in Hj
        by (by apply animation_groups_engine_groups).
      cbn in Hj. by rewrite andb_false_r in Hj.
  - rewrite Hs. unfold anticipation_tweens, reveal_tweens, followThrough_tweens.
    rewrite Hq. unfold shakes, squashes.
    destruct (enabled "anticipation" _), (enabled "followThrough" _);
      cbn [app]; repeat first [apply List.Forall_nil | apply List.Forall_cons];
      cbn [vars]; (split; [intros [[? H]|[? H]]; by vm_compute in H | by vm_compute]).
  - rewrite Hs. unfold reveal_tweens. rewrite Hq.
    eexists. split.
    + apply elem_of_app. right. apply elem_of_app. left. by left.
    + cbn [vars]. split; by vm_compute.
  - rewrite Hs, !length_app.
    unfold anticipation_tweens, reveal_tweens, followThrough_tweens. rewrite Ha, Hf.
    destruct (enabled "anticipation" p), (enabled "followThrough" p);
      cbn [length Nat.b2n]; lia.
Qed.
End YearAnimation.

Lemma animation_groups_animationParams :
  animation_groups ButteryAnimationEngine.animationParams.
Proof. repeat first [apply List.Forall_nil | apply List.Forall_cons]; by eexists. Qed.

Lemma animateYearButtery_schedules_witness :
  let this := demo_engine in
  animation_groups (ButteryAnimationEngine.this_animationParams this) ∧
  ButteryAnimationEngine.timeline this = Some [] ∧
  "year1" ∈ ButteryAnimationEngine.paths this ∧
  jiggle_turns (ButteryAnimationEngine.this_animationParams this) = Some 3%nat ∧
  (3 < 10)%nat ∧
  ∃ new this',
    ButteryAnimationEngine.animateYearButtery 10 "year1" (num 0) this = Some (Ok tt, this') ∧
    ButteryAnimationEngine.timeline this' = Some ([] ++ new) ∧
    length new
    = (2 * Nat.b2n (enabled "anticipation" (ButteryAnimationEngine.this_animationParams this))
       + Nat.b2n (enabled "squashAndStretch" (ButteryAnimationEngine.this_animationParams this))
       + 2 + 2 * 3
       + 2 * Nat.b2n (enabled "followThrough" (ButteryAnimationEngine.this_animationParams this)))%nat ∧
    ButteryAnimationEngine.drawn this' = (ButteryAnimationEngine.drawn this + 2 * 3)%nat ∧
    ButteryAnimationEngine.this_animationParams this'
    = ButteryAnimationEngine.this_animationParams this ∧
    ButteryAnimationEngine.paths this' = ButteryAnimationEngine.paths this.
Proof.
  intros this.
  assert (H1 : animation_groups (ButteryAnimationEngine.this_animationParams this))
    by exact animation_groups_animationParams.
  assert (H2 : "year1" ∈ ButteryAnimationEngine.paths this) by by left.
  assert (H3 : jiggle_turns (ButteryAnimationEngine.this_animationParams this) = Some 3%nat)
    by (by vm_compute).
  assert (H4 : (3 < 10)%nat) by lia.
  split; [exact H1|]. split; [reflexivity|]. split; [exact H2|]. split; [exact H3|].
  split; [exact H4|].
  exact (animateYearButtery_schedules 10 "year1" (num 0) this [] 3 H1 eq_refl H2 H3 H4).
Defined.

Lemma animateYearButtery_endless_witness :
  let this := endless_engine in
  animation_groups (ButteryAnimationEngine.this_animationParams this) ∧
  is_Some (ButteryAnimationEngine.timeline this) ∧
  "year1" ∈ ButteryAnimationEngine.paths this ∧
  jiggling (ButteryAnimationEngine.this_animationParams this) = true ∧
  ButteryAnimationEngine.field_number
    (read_field "secondaryAction" "maxJiggles"
       (ButteryAnimationEngine.this_animationParams this)) = Inf false ∧
  ∀ fuel, ButteryAnimationEngine.animateYearButtery fuel "year1" (num 0) this = None.
Proof.
  intros this.
  assert (H1 : animation_groups (ButteryAnimationEngine.this_animationParams this))
    by (repeat first [apply List.Forall_nil | apply List.Forall_cons]; by eexists).
  assert (H2 : is_Some (ButteryAnimationEngine.timeline this)) by (by eexists).
  assert (H3 : "year1" ∈ ButteryAnimationEngine.paths this) by by left.
  assert (H4 : jiggling (ButteryAnimationEngine.this_animationParams this) = true)
    by (by vm_compute).
  assert (H5 : ButteryAnimationEngine.field_number
                 (read_field "secondaryAction" "maxJiggles"
                    (ButteryAnimationEngine.this_animationParams this)) = Inf false)
    by (by vm_compute).
  split; [exact H1|]. split; [exact H2|]. split; [exact H3|]. split; [exact H4|].
  split; [exact H5|].
  exact (animateYearButtery_endless "year1" (num 0) this H1 H2 H3 H4 H5).
Defined.

Lemma animateYearButtery_throws_witness :
  let this := demo_engine in
  animation_groups (ButteryAnimationEngine.this_animationParams this) ∧
  ("year4" ∉ ButteryAnimationEngine.paths this ∨ ButteryAnimationEngine.timeline this = None) ∧
  ∃ msg, ButteryAnimationEngine.animateYearButtery 10 "year4" (num 0) this
         = Some (Throw (TypeError msg), this).
Proof.
  intros this.
  assert (H1 : animation_groups (ButteryAnimationEngine.this_animationParams this))
    by exact animation_groups_animationParams.
  assert (H2 : "year4" ∉ ButteryAnimationEngine.paths this
               ∨ ButteryAnimationEngine.timeline this = None).
  { left. intros H. cbn in H. rewrite !elem_of_cons in H.
    destruct H as [H|[H|[H|H]]]; [done..|by apply elem_of_nil in H]. }
  split; [exact H1|]. split; [exact H2|].
  exact (animateYearButtery_throws 10 "year4" (num 0) this H1 H2).
Defined.

Lemma strict_mode_calms_engine_witness :
  let w := with_monitor (set_performanceLevel low) demo_world in
  let p := ButteryAnimationEngine.animationParams in
  let this := demo_engine in
  performanceLevel (monitor w) = low ∧ animationEngine w = Some p ∧
  animation_groups p ∧ ButteryAnimationEngine.timeline this = Some [] ∧
  "year1" ∈ ButteryAnimationEngine.paths this ∧
  ∃ p', animationEngine (enforceConstraints w).2 = Some p' ∧
    ∀ fuel, ∃ new,
      ButteryAnimationEngine.animateYearButtery fuel "year1" (num 0) (with_params p' this)
      = Some (Ok tt, pushes new (with_params p' this)) ∧
      Forall (λ tween, ¬ shakes tween ∧ ¬ squashes tween) new ∧
      (∃ tween, tween ∈ new ∧
         ButteryAnimationEngine.vars tween !! "opacity" = Some (VNum (num 1)) ∧
         ButteryAnimationEngine.vars tween !! "scaleY" = Some (VNum (num 1))) ∧
      length new = (2 + 2 * Nat.b2n (enabled "anticipation" p)
                    + 2 * Nat.b2n (enabled "followThrough" p))%nat.
Proof.
  intros w p this.
  assert (H1 : animation_groups p) by exact animation_groups_animationParams.
  assert (H2 : "year1" ∈ ButteryAnimationEngine.paths this) by by left.
  split; [reflexivity|]. split; [reflexivity|]. split; [exact H1|].
  split; [reflexivity|]. split; [exact H2|].
  exact (strict_mode_calms_engine w p this [] "year1" (num 0) eq_refl eq_refl H1 eq_refl H2).
Defined.

(** The engine of animation-engine.js as it is built: a year's animation
    is thirteen tweens, six of them jiggles; after the strict mode it is
    six, none of them a jiggle. *)
Example animateYearButtery_demo :
  (λ r, length <$> (r ≫= λ '(_, this), ButteryAnimationEngine.timeline this))
    (ButteryAnimationEngine.animateYearButtery 10 "year1" (num 0) demo_engine)
  = Some 13%nat ∧
  (λ r, length <$> (r ≫= λ '(_, this), ButteryAnimationEngine.timeline this))
    (ButteryAnimationEngine.animateYearButtery 10 "year1" (num 0)
       (with_params (strict_mode ButteryAnimationEngine.animationParams) demo_engine))
  = Some 6%nat.
Proof. split; by vm_compute. Qed.
